(** * Vehicle rental system: a shallow embedding of the C++ sources

    The development follows the headers of the repository:
    [Vehicle.hpp], [CombustionVehicle.hpp], [ElectricVehicle.hpp],
    [CombustionCar.hpp], [ElectricCar.hpp], [Truck.hpp], [Motorcycle.hpp],
    [Customer.hpp], [Rental.hpp] and [VehicleManager.hpp].

    Conventions of the embedding:
    - [int] is a [Z]; every [int] the modelled code computes stays far inside
      the 32-bit range (see [countTotalDays_int_range]), and [stoi] checks it;
    - [double] is Rocq's primitive binary64 [float];
    - [std::string] is [string], compared as [std::string] does, byte by
      byte as unsigned characters;
    - a C++ exception is the [Throw] result; the manager's operations return
      an [outcome] that carries the manager as the exception leaves it;
    - an object the manager owns lives in the manager's store under its
      address ([ptr]); a [Rental] refers to its vehicle and customer by
      address, as the raw pointers of the source do. *)

From Stdlib Require Import ZArith List String Ascii Bool Lia.
From Stdlib Require Import Floats.PrimFloat Floats.SpecFloat Floats.FloatOps.
From Stdlib Require Import Numbers.Cyclic.Int63.Uint63.
From Stdlib Require Import Decimal DecimalString DecimalPos.
Import ListNotations.

Local Open Scope string_scope.
Local Open Scope list_scope.
Local Open Scope Z_scope.

(** ** Exceptions *)

(** The three standard exception classes the sources throw or receive from
    the standard library, with their [what()] text. *)
Inductive exn : Type :=
| invalid_argument (what : string)
| out_of_range (what : string)
| runtime_error (what : string).

(** The result of evaluating an expression: a value, a thrown exception, or
    undefined behaviour (the only source of it in these sources is the
    dereference of a pointer to no live object). *)
Inductive result (A : Type) : Type :=
| Ok (a : A)
| Throw (e : exn)
| Undefined.

Arguments Ok {A} a.
Arguments Throw {A} e.
Arguments Undefined {A}.

Definition bind {A B : Type} (r : result A) (k : A -> result B) : result B :=
  match r with
  | Ok a => k a
  | Throw e => Throw e
  | Undefined => Undefined
  end.

Notation "x <- e ;; k" := (bind e (fun x => k))
  (at level 61, e at next level, right associativity).

(** ** The pieces of the C and C++ standard library the sources call *)

Definition INT_MIN : Z := - 2 ^ 31.
Definition INT_MAX : Z := 2 ^ 31 - 1.

Definition char_code (c : ascii) : Z := Z.of_N (N_of_ascii c).

(** [isdigit] in the "C" locale. *)
Definition isdigit (c : ascii) : bool :=
  (48 <=? char_code c) && (char_code c <=? 57).

(** [isspace] in the "C" locale: space, \t, \n, \v, \f, \r. *)
Definition isspace (c : ascii) : bool :=
  (char_code c =? 32) || ((9 <=? char_code c) && (char_code c <=? 13)).

Definition digit_value (c : ascii) : Z := char_code c - 48.

(** [s[i]] for [i < s.length()]. *)
Definition at_ (s : string) (i : nat) : ascii :=
  match String.get i s with
  | Some c => c
  | None => Ascii.zero
  end.

(** The decimal text of a [size_t], as [%zu] writes it. *)
Definition show_size (n : nat) : string := NilZero.string_of_uint (Nat.to_uint n).

(** [s.substr(pos, n)]: throws [std::out_of_range] when [pos > s.size()],
    with the text the GNU C++ library gives it, and is cut at the end of
    [s]. *)
Definition substr (s : string) (pos n : nat) : result string :=
  if (String.length s <? pos)%nat
  then Throw (out_of_range
                ("basic_string::substr: __pos (which is " ++ show_size pos
                 ++ ") > this->size() (which is " ++ show_size (String.length s)
                 ++ ")")%string)
  else Ok (String.substring pos n s).

Fixpoint skip_spaces (s : string) : string :=
  match s with
  | String c r => if isspace c then skip_spaces r else s
  | EmptyString => s
  end.

(** The digits at the head of [s], read most significant first onto [acc]. *)
Fixpoint read_digits (s : string) (acc : Z) : Z :=
  match s with
  | String c r => if isdigit c then read_digits r (10 * acc + digit_value c) else acc
  | EmptyString => acc
  end.

(** [std::stoi(s)] (base 10, no position out-parameter): leading white space
    is skipped, an optional sign is read, then the longest run of digits;
    what follows is ignored. No digit: [std::invalid_argument]; a value that
    is no [int]: [std::out_of_range]. *)
Definition stoi (s : string) : result Z :=
  let s1 := skip_spaces s in
  let '(negative, s2) :=
    match s1 with
    | String c r =>
        if Ascii.eqb c "-" then (true, r)
        else if Ascii.eqb c "+" then (false, r)
        else (false, s1)
    | EmptyString => (false, s1)
    end in
  match s2 with
  | String c _ =>
      if isdigit c then
        let v := read_digits s2 0 in
        let v := if negative then - v else v in
        if (INT_MIN <=? v) && (v <=? INT_MAX) then Ok v
        else Throw (out_of_range "stoi")
      else Throw (invalid_argument "stoi")
  | EmptyString => Throw (invalid_argument "stoi")
  end.

(** The integers [lo], [lo + 1], ..., [hi - 1]: the values the counter of
    [for (int i = lo; i < hi; ++i)] takes. *)
Definition int_range (lo hi : Z) : list Z :=
  map (fun k => lo + Z.of_nat k) (seq 0 (Z.to_nat (hi - lo))).

(** ** Rental.hpp: the static calendar helpers *)

(** [Rental::isLeapYear]; [%] on [int] truncates, as [Z.rem]. *)
Definition isLeapYear (year : Z) : bool :=
  ((Z.rem year 4 =? 0) && negb (Z.rem year 100 =? 0)) || (Z.rem year 400 =? 0).

Definition days_table : list Z := [31; 28; 31; 30; 31; 30; 31; 31; 30; 31; 30; 31].

(** [Rental::getDaysInMonth]. *)
Definition getDaysInMonth (month year : Z) : Z :=
  if (month <? 1) || (month >? 12) then 0
  else
    let d := nth (Z.to_nat (month - 1)) days_table 0 in
    if (month =? 2) && isLeapYear year then d + 1 else d.

(** [Rental::isValidDate]. The three [stoi] calls stand after the digit
    check of the source; the model keeps them as calls that may throw, and
    [isValidDate_total] shows they never do. *)
Definition isValidDate (date : string) : result bool :=
  if negb (String.length date =? 10)%nat then Ok false
  else if negb (Ascii.eqb (at_ date 4) "-") || negb (Ascii.eqb (at_ date 7) "-")
  then Ok false
  else if negb (forallb (fun i => (i =? 4)%nat || (i =? 7)%nat || isdigit (at_ date i))
                  (seq 0 10))
  then Ok false
  else
    y <- substr date 0 4 ;;
    year <- stoi y ;;
    m <- substr date 5 2 ;;
    month <- stoi m ;;
    d <- substr date 8 2 ;;
    day <- stoi d ;;
    if (month <? 1) || (month >? 12) then Ok false
    else if (day <? 1) || (day >? getDaysInMonth month year) then Ok false
    else Ok true.

(** [Rental::countTotalDays]: the two [for] loops add onto [total]. *)
Definition countTotalDays (date : string) : result Z :=
  ys <- substr date 0 4 ;;
  y <- stoi ys ;;
  ms <- substr date 5 2 ;;
  m <- stoi ms ;;
  ds <- substr date 8 2 ;;
  d <- stoi ds ;;
  let total := d in
  let total :=
    fold_left (fun total i => total + (if isLeapYear i then 366 else 365))
      (int_range 1 y) total in
  let total :=
    fold_left (fun total i => total + getDaysInMonth i y) (int_range 1 m) total in
  Ok total.

(** ** Numbers as the sources use them *)

(** The conversion of an [int] to [double] ([baseCost * days]); exact on the
    whole [int] range. *)
Definition double_of_int (z : Z) : float :=
  if z <? 0 then PrimFloat.opp (PrimFloat.of_uint63 (Uint63.of_Z (- z)))
  else PrimFloat.of_uint63 (Uint63.of_Z z).

(** The literal [0.1] of [Truck::calculateRentCost]: the binary64 number
    nearest to one tenth. *)
Definition one_tenth : float := 0x1.999999999999ap-4%float.

(** [operator<<] on an [int] or a [size_t]: the decimal numeral. *)
Definition show_int (z : Z) : string := NilZero.string_of_int (Z.to_int z).

(** What a conversion function of the standard library does: it returns a
    value or throws. *)
Inductive conversion (A : Type) : Type :=
| Converted (a : A)
| Failed (e : exn).

Arguments Converted {A} a.
Arguments Failed {A} e.

Definition conversion_result {A : Type} (c : conversion A) : result A :=
  match c with
  | Converted a => Ok a
  | Failed e => Throw e
  end.

Coercion conversion_result : conversion >-> result.

(** The text forms of a [double]: [operator<<(std::ostream&, double)] with
    the stream's default format, and [std::stod]. They are the standard
    library's, not this repository's; the manager is stated over any pair of
    them, and [printf_g6] / [strtod_model] below give the usual pair. *)
Class DoubleText : Type := {
  show_double : float -> string;
  stod : string -> conversion float
}.

(** ** Vehicle.hpp *)

(** [enum class LicenceCategory { A, B, C }] and
    [enum class FuelType { Gasoline, Diesel }]: scoped enumerations over
    [int]. [loadFromFile] casts whatever [int] the file holds into them, so
    the model keeps the underlying value. *)
Definition LicenceCategory : Type := Z.
Definition LicenceCategory_A : LicenceCategory := 0.
Definition LicenceCategory_B : LicenceCategory := 1.
Definition LicenceCategory_C : LicenceCategory := 2.

Definition FuelType : Type := Z.
Definition FuelType_Gasoline : FuelType := 0.
Definition FuelType_Diesel : FuelType := 1.

(** The data members of [class Vehicle]. *)
Record Vehicle_base : Type := mkVehicle_base {
  regNumber : string;
  brand : string;
  model : string;
  mileage : float;
  baseCost : float;
  licenceCat : LicenceCategory
}.

(** The data members [class CombustionVehicle] adds. *)
Record CombustionVehicle_part : Type := mkCombustionVehicle_part {
  engineSize : Z;
  fuelConsumption : float;
  fuelType : FuelType
}.

(** The four concrete classes; [dynamic_cast] is the match on the
    constructor. *)
Inductive Vehicle : Type :=
| CombustionCar (base : Vehicle_base) (comb : CombustionVehicle_part) (doors : Z)
| ElectricCar (base : Vehicle_base) (batteryCapacity : float) (doors : Z)
| Truck (base : Vehicle_base) (comb : CombustionVehicle_part) (cargoCapacity : Z)
| Motorcycle (base : Vehicle_base) (comb : CombustionVehicle_part).

Definition vehicle_base (v : Vehicle) : Vehicle_base :=
  match v with
  | CombustionCar b _ _ | ElectricCar b _ _ | Truck b _ _ | Motorcycle b _ => b
  end.

Definition with_base (b : Vehicle_base) (v : Vehicle) : Vehicle :=
  match v with
  | CombustionCar _ c d => CombustionCar b c d
  | ElectricCar _ bat d => ElectricCar b bat d
  | Truck _ c cap => Truck b c cap
  | Motorcycle _ c => Motorcycle b c
  end.

Definition getRegNumber (v : Vehicle) : string := regNumber (vehicle_base v).
Definition getBrand (v : Vehicle) : string := brand (vehicle_base v).
Definition getModel (v : Vehicle) : string := model (vehicle_base v).
Definition getMileage (v : Vehicle) : float := mileage (vehicle_base v).
Definition getBaseCost (v : Vehicle) : float := baseCost (vehicle_base v).
Definition getLicenceCategory (v : Vehicle) : LicenceCategory :=
  licenceCat (vehicle_base v).

Definition empty (s : string) : bool := (String.length s =? 0)%nat.

(** [Vehicle::Vehicle(reg, brandVal, modelVal, miles, cost, cat)]. *)
Definition Vehicle_ctor (reg brandVal modelVal : string) (miles cost : float)
    (cat : LicenceCategory) : result Vehicle_base :=
  if empty reg then
    Throw (invalid_argument "Registration number cannot be empty.")
  else if (9 <? String.length reg)%nat then
    Throw (invalid_argument "Registration number cannot exceed 9 characters.")
  else if empty brandVal then Throw (invalid_argument "Brand cannot be empty.")
  else if empty modelVal then Throw (invalid_argument "Model cannot be empty.")
  else Ok (mkVehicle_base reg brandVal modelVal miles cost cat).

(** [Vehicle::setMileage]. *)
Definition setMileage (newMileage : float) (v : Vehicle) : result Vehicle :=
  if PrimFloat.ltb newMileage 0 then
    Throw (invalid_argument "Mileage cannot be negative.")
  else if PrimFloat.ltb newMileage (getMileage v) then
    Throw (invalid_argument "New mileage cannot be lower than current mileage.")
  else
    let b := vehicle_base v in
    Ok (with_base (mkVehicle_base (regNumber b) (brand b) (model b) newMileage
                     (baseCost b) (licenceCat b)) v).

(** [Vehicle::setBaseCost]. *)
Definition setBaseCost (newCost : float) (v : Vehicle) : result Vehicle :=
  if PrimFloat.leb newCost 0 then
    Throw (invalid_argument "Base cost must be positive.")
  else
    let b := vehicle_base v in
    Ok (with_base (mkVehicle_base (regNumber b) (brand b) (model b) (mileage b)
                     newCost (licenceCat b)) v).

(** ** CombustionVehicle.hpp, ElectricVehicle.hpp *)

(** [CombustionVehicle::CombustionVehicle]: the base class is constructed
    first, then this body runs. *)
Definition CombustionVehicle_ctor (reg brand model : string) (miles cost : float)
    (cat : LicenceCategory) (engine : Z) (consumption : float) (fuel : FuelType)
    : result (Vehicle_base * CombustionVehicle_part) :=
  b <- Vehicle_ctor reg brand model miles cost cat ;;
  if engine <=? 0 then Throw (invalid_argument "Engine size must be positive.")
  else if PrimFloat.leb consumption 0 then
    Throw (invalid_argument "Fuel consumption must be positive.")
  else Ok (b, mkCombustionVehicle_part engine consumption fuel).

(** [ElectricVehicle::ElectricVehicle]. *)
Definition ElectricVehicle_ctor (reg brand model : string) (miles cost : float)
    (cat : LicenceCategory) (battery : float) : result (Vehicle_base * float) :=
  b <- Vehicle_ctor reg brand model miles cost cat ;;
  if PrimFloat.leb battery 0 then
    Throw (invalid_argument "Battery capacity must be positive.")
  else Ok (b, battery).

(** ** CombustionCar.hpp, ElectricCar.hpp, Truck.hpp, Motorcycle.hpp *)

Definition CombustionCar_ctor (reg brand model : string) (miles cost : float)
    (cat : LicenceCategory) (engine : Z) (consumption : float) (fuel : FuelType)
    (numDoors : Z) : result Vehicle :=
  bc <- CombustionVehicle_ctor reg brand model miles cost cat engine consumption fuel ;;
  if numDoors <=? 0 then
    Throw (invalid_argument "Number of doors must be positive.")
  else Ok (CombustionCar (fst bc) (snd bc) numDoors).

Definition ElectricCar_ctor (reg brand model : string) (miles cost : float)
    (cat : LicenceCategory) (battery : float) (numDoors : Z) : result Vehicle :=
  bb <- ElectricVehicle_ctor reg brand model miles cost cat battery ;;
  if numDoors <=? 0 then
    Throw (invalid_argument "Number of doors must be positive.")
  else Ok (ElectricCar (fst bb) (snd bb) numDoors).

Definition Truck_ctor (reg brand model : string) (miles cost : float)
    (cat : LicenceCategory) (engine : Z) (consumption : float) (fuel : FuelType)
    (capacity : Z) : result Vehicle :=
  bc <- CombustionVehicle_ctor reg brand model miles cost cat engine consumption fuel ;;
  if capacity <=? 0 then
    Throw (invalid_argument "Cargo capacity must be positive.")
  else Ok (Truck (fst bc) (snd bc) capacity).

Definition Motorcycle_ctor (reg brand model : string) (miles cost : float)
    (cat : LicenceCategory) (engine : Z) (consumption : float) (fuel : FuelType)
    : result Vehicle :=
  bc <- CombustionVehicle_ctor reg brand model miles cost cat engine consumption fuel ;;
  Ok (Motorcycle (fst bc) (snd bc)).

(** The virtual [calculateRentCost(int days)], dispatched on the class. *)
Definition calculateRentCost (v : Vehicle) (days : Z) : result float :=
  match v with
  | CombustionCar b _ _ =>
      if days <=? 0 then Throw (invalid_argument "Rental duration must be positive.")
      else Ok (baseCost b * double_of_int days)%float
  | ElectricCar b _ _ =>
      if days <=? 0 then Ok 0%float
      else Ok (baseCost b * double_of_int days)%float
  | Truck b _ cargoCapacity =>
      if days <=? 0 then Ok 0%float
      else Ok ((baseCost b * double_of_int days)
               + (double_of_int cargoCapacity * one_tenth * double_of_int days))%float
  | Motorcycle b _ =>
      if days <=? 0 then Throw (invalid_argument "Rental duration must be positive.")
      else Ok (baseCost b * double_of_int days)%float
  end.

(** ** Customer.hpp *)

Module Customer.

(** The data members of [class Customer]. *)
Record base : Type := mk_base {
  id : string;
  name : string;
  address : string
}.

End Customer.

(** [PrivateCustomer] and [BusinessCustomer]. *)
Inductive Customer : Type :=
| PrivateCustomer (base : Customer.base) (idCardNumber : string)
| BusinessCustomer (base : Customer.base) (nip : string).

Definition customer_base (c : Customer) : Customer.base :=
  match c with
  | PrivateCustomer b _ | BusinessCustomer b _ => b
  end.

Definition getId (c : Customer) : string := Customer.id (customer_base c).
Definition getName (c : Customer) : string := Customer.name (customer_base c).
Definition getAddress (c : Customer) : string := Customer.address (customer_base c).

(** [Customer::Customer(idVal, nameVal, addrVal)]. *)
Definition Customer_ctor (idVal nameVal addrVal : string) : result Customer.base :=
  if empty idVal then Throw (invalid_argument "ID cannot be empty.")
  else if empty nameVal then Throw (invalid_argument "Name cannot be empty.")
  else if empty addrVal then Throw (invalid_argument "Address cannot be empty.")
  else Ok (Customer.mk_base idVal nameVal addrVal).

(** [PrivateCustomer::PrivateCustomer(name, addr, idCard)]. *)
Definition PrivateCustomer_ctor (name addr idCard : string) : result Customer :=
  b <- Customer_ctor idCard name addr ;;
  if empty idCard then Throw (invalid_argument "ID Card number cannot be empty.")
  else Ok (PrivateCustomer b idCard).

(** [BusinessCustomer::BusinessCustomer(name, addr, nipVal)]. *)
Definition BusinessCustomer_ctor (name addr nipVal : string) : result Customer :=
  b <- Customer_ctor nipVal name addr ;;
  if empty nipVal then Throw (invalid_argument "NIP cannot be empty.")
  else Ok (BusinessCustomer b nipVal).

(** ** Rental.hpp: the class *)

(** The address of an object on the heap. *)
Definition ptr : Type := nat.

(** The data members of [class Rental]; [None] is [nullptr]. *)
Record Rental : Type := mkRental {
  vehicle : option ptr;
  customer : option ptr;
  startDate : string;
  endDate : string
}.

(** [Rental::Rental(v, c, start, end)]. *)
Definition Rental_ctor (v c : option ptr) (start end_ : string) : result Rental :=
  match v, c with
  | None, _ => Throw (invalid_argument "Vehicle cannot be null.")
  | Some _, None => Throw (invalid_argument "Customer cannot be null.")
  | Some _, Some _ =>
      startOk <- isValidDate start ;;
      if negb startOk then
        Throw (invalid_argument "Start date must be in format YYYY-MM-DD.")
      else
        endOk <- isValidDate end_ ;;
        if negb endOk then
          Throw (invalid_argument "End date must be in format YYYY-MM-DD.")
        else if String.leb end_ start then
          Throw (invalid_argument "End date must be later than start date.")
        else Ok (mkRental v c start end_)
  end.

(** [Rental::setEndDate]. *)
Definition setEndDate (end_ : string) (r : Rental) : result Rental :=
  endOk <- isValidDate end_ ;;
  if negb endOk then
    Throw (invalid_argument "End date must be in format YYYY-MM-DD.")
  else if String.leb end_ (startDate r) then
    Throw (invalid_argument "End date must be later than start date.")
  else Ok (mkRental (vehicle r) (customer r) (startDate r) end_).

(** [Rental::getRentalDays]. *)
Definition getRentalDays (r : Rental) : result Z :=
  if empty (startDate r) || empty (endDate r) then Ok 0
  else
    startTotal <- countTotalDays (startDate r) ;;
    endTotal <- countTotalDays (endDate r) ;;
    let days := endTotal - startTotal in
    Ok (if days <? 1 then 1 else days).

(** The object at address [p] of a store, if one lives there. *)
Fixpoint lookup {A : Type} (p : ptr) (store : list (ptr * A)) : option A :=
  match store with
  | [] => None
  | (q, a) :: rest => if Nat.eqb q p then Some a else lookup p rest
  end.

(** [Rental::calculateTotalCost], over the store its [vehicle] points into.
    A pointer to no live vehicle is undefined behaviour. *)
Definition calculateTotalCost (store : list (ptr * Vehicle)) (r : Rental) : result float :=
  match vehicle r with
  | None => Ok 0%float
  | Some p =>
      days <- getRentalDays r ;;
      match lookup p store with
      | Some v => calculateRentCost v days
      | None => Undefined
      end
  end.

(** ** VehicleManager.hpp *)

(** The data members of [class VehicleManager]. The vectors [vehicles] and
    [customers] own their objects: each entry is the address held in the
    vector together with the object living there, so that a [Rental]'s
    pointer and the vector's pointer reach the same object. *)
Record VehicleManager : Type := mkVehicleManager {
  vehicles : list (ptr * Vehicle);
  customers : list (ptr * Customer);
  rentals : list Rental;
  rentalHistory : list string
}.

(** [VehicleManager() = default]. *)
Definition VehicleManager_new : VehicleManager := mkVehicleManager [] [] [] [].

(** What a member function call leaves behind: it returns [a] ([Done]), or
    an exception leaves it ([Raised]); both carry the manager as it then is.
    [UB]: the call dereferenced a pointer to no live object. *)
Inductive outcome (A : Type) : Type :=
| Done (a : A) (m : VehicleManager)
| Raised (e : exn) (m : VehicleManager)
| UB.

Arguments Done {A} a m.
Arguments Raised {A} e m.
Arguments UB {A}.

(** [new]: an address no object of the store lives at. *)
Definition new_ptr {A : Type} (store : list (ptr * A)) : ptr :=
  S (list_max (map fst store)).

(** Assignment through a pointer into the store. *)
Fixpoint store_set {A : Type} (p : ptr) (a : A) (store : list (ptr * A))
    : list (ptr * A) :=
  match store with
  | [] => []
  | (q, x) :: rest =>
      if Nat.eqb q p then (q, a) :: rest else (q, x) :: store_set p a rest
  end.

Definition newline : ascii := ascii_of_nat 10.
Definition nl : string := String newline EmptyString.

(** [std::getline(stream, line, delim)] on what is left of a stream: it
    fails at the end of the stream; otherwise it takes the characters up to
    the first [delim], which it consumes, or up to the end. *)
Fixpoint read_until (delim : ascii) (s : string) : string * string :=
  match s with
  | EmptyString => (EmptyString, EmptyString)
  | String c r =>
      if Ascii.eqb c delim then (EmptyString, r)
      else let '(line, rest) := read_until delim r in (String c line, rest)
  end.

Definition getline (delim : ascii) (stream : string) : option (string * string) :=
  match stream with
  | EmptyString => None
  | _ => Some (read_until delim stream)
  end.

(** [while (std::getline(ss, segment, ';')) parts.push_back(segment);] *)
Fixpoint split_loop (fuel : nat) (ss : string) : list string :=
  match fuel with
  | O => []
  | S fuel' =>
      match getline ";" ss with
      | Some (segment, rest) => segment :: split_loop fuel' rest
      | None => []
      end
  end.

(** Every [getline] that succeeds consumes a character, so the loop ends
    within [length line + 1] calls. *)
Definition split (line : string) : list string :=
  split_loop (S (String.length line)) line.

Section Manager.

Context {DT : DoubleText}.

Definition isRegNumberUnique (m : VehicleManager) (regNumber : string) : bool :=
  negb (existsb (fun pv => getRegNumber (snd pv) =? regNumber)%string (vehicles m)).

Definition isCustomerIdUnique (m : VehicleManager) (id : string) : bool :=
  negb (existsb (fun pc => getId (snd pc) =? id)%string (customers m)).

(** [addVehicle(Vehicle* v)]: the argument stands for the object the caller
    made with [new] ([None]: [nullptr]); [push_back] stores its address. *)
Definition addVehicle (v : option Vehicle) (m : VehicleManager) : outcome unit :=
  match v with
  | None => Raised (invalid_argument "Vehicle cannot be null.") m
  | Some v =>
      if negb (isRegNumberUnique m (getRegNumber v)) then
        Raised (invalid_argument
                  "Vehicle with this registration number already exists.") m
      else
        Done tt (mkVehicleManager (vehicles m ++ [(new_ptr (vehicles m), v)])
                   (customers m) (rentals m) (rentalHistory m))
  end.

(** [r->getVehicle()] and [r->getCustomer()], dereferenced. *)
Definition rental_vehicle (m : VehicleManager) (r : Rental) : option Vehicle :=
  match vehicle r with
  | Some p => lookup p (vehicles m)
  | None => None
  end.

Definition rental_customer (m : VehicleManager) (r : Rental) : option Customer :=
  match customer r with
  | Some p => lookup p (customers m)
  | None => None
  end.

(** The loop [for (r : rentals) if (r->getVehicle()->getRegNumber() ==
    regNumber) throw ...] of [removeVehicle] and [rentVehicle]:
    [Ok true] when it throws. *)
Fixpoint rented_scan (m : VehicleManager) (regNumber : string) (rs : list Rental)
    : result bool :=
  match rs with
  | [] => Ok false
  | r :: rest =>
      match rental_vehicle m r with
      | None => Undefined
      | Some v =>
          if (getRegNumber v =? regNumber)%string then Ok true
          else rented_scan m regNumber rest
      end
  end.

(** The same loop of [removeCustomer], on [r->getCustomer()->getId()]. *)
Fixpoint renting_scan (m : VehicleManager) (id : string) (rs : list Rental)
    : result bool :=
  match rs with
  | [] => Ok false
  | r :: rest =>
      match rental_customer m r with
      | None => Undefined
      | Some c =>
          if (getId c =? id)%string then Ok true else renting_scan m id rest
      end
  end.

(** [removeVehicle]: [remove_if] deletes and drops every vehicle of that
    registration; [it != vehicles.end()] when one was dropped. *)
Definition removeVehicle (regNumber : string) (m : VehicleManager) : outcome unit :=
  match rented_scan m regNumber (rentals m) with
  | Undefined => UB
  | Throw e => Raised e m
  | Ok true =>
      Raised (invalid_argument "Cannot remove vehicle that is currently rented.") m
  | Ok false =>
      if existsb (fun pv => getRegNumber (snd pv) =? regNumber)%string (vehicles m)
      then
        Done tt (mkVehicleManager
                   (filter (fun pv => negb (getRegNumber (snd pv) =? regNumber)%string)
                      (vehicles m))
                   (customers m) (rentals m) (rentalHistory m))
      else Raised (invalid_argument "Vehicle not found.") m
  end.

(** [getVehicle]: the first vehicle of that registration, or [nullptr]. *)
Fixpoint find_vehicle (regNumber : string) (store : list (ptr * Vehicle))
    : option ptr :=
  match store with
  | [] => None
  | (p, v) :: rest =>
      if (getRegNumber v =? regNumber)%string then Some p
      else find_vehicle regNumber rest
  end.

Definition getVehicle (m : VehicleManager) (regNumber : string) : option ptr :=
  find_vehicle regNumber (vehicles m).

Definition findVehiclesByBrand (m : VehicleManager) (brand : string) : list ptr :=
  map fst (filter (fun pv => getBrand (snd pv) =? brand)%string (vehicles m)).

Definition findVehiclesByPrice (m : VehicleManager) (maxPrice : float) : list ptr :=
  map fst (filter (fun pv => PrimFloat.leb (getBaseCost (snd pv)) maxPrice) (vehicles m)).

Definition ptr_eqb (p : option ptr) (q : ptr) : bool :=
  match p with
  | Some a => Nat.eqb a q
  | None => false
  end.

(** [findAvailableVehicles]: the inner loop compares pointers. *)
Definition findAvailableVehicles (m : VehicleManager) : list ptr :=
  map fst
    (filter (fun pv => negb (existsb (fun r => ptr_eqb (vehicle r) (fst pv)) (rentals m)))
       (vehicles m)).

Definition addCustomer (c : option Customer) (m : VehicleManager) : outcome unit :=
  match c with
  | None => Raised (invalid_argument "Customer cannot be null.") m
  | Some c =>
      if negb (isCustomerIdUnique m (getId c)) then
        Raised (invalid_argument "Customer with this ID already exists.") m
      else
        Done tt (mkVehicleManager (vehicles m)
                   (customers m ++ [(new_ptr (customers m), c)])
                   (rentals m) (rentalHistory m))
  end.

Definition removeCustomer (id : string) (m : VehicleManager) : outcome unit :=
  match renting_scan m id (rentals m) with
  | Undefined => UB
  | Throw e => Raised e m
  | Ok true =>
      Raised (invalid_argument "Cannot remove customer who has active rentals.") m
  | Ok false =>
      if existsb (fun pc => getId (snd pc) =? id)%string (customers m)
      then
        Done tt (mkVehicleManager (vehicles m)
                   (filter (fun pc => negb (getId (snd pc) =? id)%string) (customers m))
                   (rentals m) (rentalHistory m))
      else Raised (invalid_argument "Customer not found.") m
  end.

Fixpoint find_customer (id : string) (store : list (ptr * Customer)) : option ptr :=
  match store with
  | [] => None
  | (p, c) :: rest =>
      if (getId c =? id)%string then Some p else find_customer id rest
  end.

Definition getCustomer (m : VehicleManager) (id : string) : option ptr :=
  find_customer id (customers m).

(** [rentVehicle]; the message it prints on success is no part of the
    manager's state. *)
Definition rentVehicle (regNumber customerId startDate endDate : string)
    (m : VehicleManager) : outcome unit :=
  match getVehicle m regNumber with
  | None => Raised (invalid_argument "Vehicle not found.") m
  | Some v =>
      match getCustomer m customerId with
      | None => Raised (invalid_argument "Customer not found.") m
      | Some c =>
          match rented_scan m regNumber (rentals m) with
          | Undefined => UB
          | Throw e => Raised e m
          | Ok true => Raised (invalid_argument "Vehicle is already rented.") m
          | Ok false =>
              match Rental_ctor (Some v) (Some c) startDate endDate with
              | Undefined => UB
              | Throw e => Raised e m
              | Ok rental =>
                  Done tt (mkVehicleManager (vehicles m) (customers m)
                             (rentals m ++ [rental]) (rentalHistory m))
              end
          end
      end
  end.

(** [std::find_if] over [rentals] for the registration: the rentals before
    the one found, that one, and those after it; [Ok None] is
    [rentals.end()]. *)
Fixpoint find_rental (m : VehicleManager) (regNumber : string) (rs : list Rental)
    : result (option (list Rental * Rental * list Rental)) :=
  match rs with
  | [] => Ok None
  | r :: rest =>
      match rental_vehicle m r with
      | None => Undefined
      | Some v =>
          if (getRegNumber v =? regNumber)%string then Ok (Some ([], r, rest))
          else
            found <- find_rental m regNumber rest ;;
            match found with
            | Some (before, x, after) => Ok (Some (r :: before, x, after))
            | None => Ok None
            end
      end
  end.

(** The line [returnVehicle] archives. *)
Definition history_line (v : Vehicle) (c : Customer) (r : Rental) (cost : float)
    : string :=
  getBrand v ++ " " ++ getModel v ++ " (" ++ getRegNumber v ++ ");"
  ++ getName c ++ " (" ++ getId c ++ ");"
  ++ startDate r ++ ";" ++ endDate r ++ ";" ++ show_double cost.

(** [returnVehicle]. *)
Definition returnVehicle (regNumber : string) (newMileage : float)
    (m : VehicleManager) : outcome float :=
  match find_rental m regNumber (rentals m) with
  | Undefined => UB
  | Throw e => Raised e m
  | Ok None => Raised (invalid_argument "Rental not found for this vehicle.") m
  | Ok (Some (before, r, after)) =>
      match vehicle r, rental_vehicle m r with
      | Some p, Some v =>
          match setMileage newMileage v with
          | Undefined => UB
          | Throw e => Raised e m
          | Ok v' =>
              let m1 := mkVehicleManager (store_set p v' (vehicles m)) (customers m)
                          (rentals m) (rentalHistory m) in
              match calculateTotalCost (vehicles m1) r with
              | Undefined => UB
              | Throw e => Raised e m1
              | Ok cost =>
                  match rental_customer m1 r with
                  | None => UB
                  | Some c =>
                      Done cost
                        (mkVehicleManager (vehicles m1) (customers m1)
                           (before ++ after)
                           (rentalHistory m1 ++ [history_line v' c r cost]))
                  end
              end
          end
      | _, _ => UB
      end
  end.

End Manager.

(** ** VehicleManager.hpp: persistence *)

Definition lift {A : Type} (r : result A) (m : VehicleManager) : outcome A :=
  match r with
  | Ok a => Done a m
  | Throw e => Raised e m
  | Undefined => UB
  end.

Definition and_then {A B : Type} (o : outcome A)
    (k : A -> VehicleManager -> outcome B) : outcome B :=
  match o with
  | Done a m => k a m
  | Raised e m => Raised e m
  | UB => UB
  end.

Section Persistence.

Context {DT : DoubleText}.

(** The line [saveToFile] writes for one vehicle, by its dynamic type. *)
Definition vehicle_record (v : Vehicle) : string :=
  match v with
  | CombustionCar b c doors =>
      "CombustionCar;"
      ++ brand b ++ ";" ++ model b ++ ";" ++ regNumber b ++ ";"
      ++ show_double (baseCost b) ++ ";" ++ show_int (engineSize c) ++ ";"
      ++ show_double (fuelConsumption c) ++ ";" ++ show_int (fuelType c) ++ ";"
      ++ show_int (licenceCat b) ++ ";" ++ show_double (mileage b) ++ ";"
      ++ show_int doors ++ nl
  | ElectricCar b batteryCapacity doors =>
      "ElectricCar;"
      ++ brand b ++ ";" ++ model b ++ ";" ++ regNumber b ++ ";"
      ++ show_double (baseCost b) ++ ";" ++ show_double batteryCapacity ++ ";"
      ++ show_int (licenceCat b) ++ ";" ++ show_double (mileage b) ++ ";"
      ++ show_int doors ++ nl
  | Truck b c cargoCapacity =>
      "Truck;"
      ++ brand b ++ ";" ++ model b ++ ";" ++ regNumber b ++ ";"
      ++ show_double (baseCost b) ++ ";" ++ show_int (engineSize c) ++ ";"
      ++ show_double (fuelConsumption c) ++ ";" ++ show_int (fuelType c) ++ ";"
      ++ show_int (licenceCat b) ++ ";" ++ show_double (mileage b) ++ ";"
      ++ show_int cargoCapacity ++ nl
  | Motorcycle b c =>
      "Motorcycle;"
      ++ brand b ++ ";" ++ model b ++ ";" ++ regNumber b ++ ";"
      ++ show_double (baseCost b) ++ ";" ++ show_int (engineSize c) ++ ";"
      ++ show_double (fuelConsumption c) ++ ";" ++ show_int (fuelType c) ++ ";"
      ++ show_int (licenceCat b) ++ ";" ++ show_double (mileage b) ++ nl
  end.

Definition customer_record (c : Customer) : string :=
  match c with
  | PrivateCustomer _ idCardNumber =>
      "PrivateCustomer;" ++ getName c ++ ";" ++ getAddress c ++ ";"
      ++ idCardNumber ++ nl
  | BusinessCustomer _ nip =>
      "BusinessCustomer;" ++ getName c ++ ";" ++ getAddress c ++ ";" ++ nip ++ nl
  end.

Definition rental_record (m : VehicleManager) (r : Rental) : result string :=
  match rental_vehicle m r, rental_customer m r with
  | Some v, Some c =>
      Ok (getRegNumber v ++ ";" ++ getId c ++ ";" ++ startDate r ++ ";"
          ++ endDate r ++ nl)%string
  | _, _ => Undefined
  end.

Fixpoint rental_records (m : VehicleManager) (rs : list Rental) : result string :=
  match rs with
  | [] => Ok EmptyString
  | r :: rest =>
      line <- rental_record m r ;;
      lines <- rental_records m rest ;;
      Ok (line ++ lines)%string
  end.

(** [saveToFile]: the text written to the file, [file_opens] telling whether
    [std::ofstream] could open it. *)
Definition saveToFile (file_opens : bool) (m : VehicleManager) : result string :=
  if negb file_opens then Throw (runtime_error "Could not open file for saving.")
  else
    rental_lines <- rental_records m (rentals m) ;;
    Ok (show_int (Z.of_nat (List.length (vehicles m))) ++ nl
        ++ String.concat "" (map (fun pv => vehicle_record (snd pv)) (vehicles m))
        ++ show_int (Z.of_nat (List.length (customers m))) ++ nl
        ++ String.concat "" (map (fun pc => customer_record (snd pc)) (customers m))
        ++ show_int (Z.of_nat (List.length (rentals m))) ++ nl
        ++ rental_lines
        ++ show_int (Z.of_nat (List.length (rentalHistory m))) ++ nl
        ++ String.concat "" (map (fun entry => entry ++ nl) (rentalHistory m)))%string.

(** [parts[i]], read only under a check of [parts.size()]. *)
Definition part (parts : list string) (i : nat) : string := nth i parts EmptyString.

(** The body of the [try] block that rebuilds one vehicle: [Ok None] when
    no branch matches ([v] stays [nullptr]). The order in which C++
    evaluates the arguments of [new] is unspecified; whichever conversion
    throws first, the handler does the same and drops the line. *)
Definition parse_vehicle (parts : list string) : result (option Vehicle) :=
  if (part parts 0 =? "CombustionCar")%string && (11 <=? List.length parts)%nat then
    fuel <- stoi (part parts 7) ;;
    cat <- stoi (part parts 8) ;;
    miles <- stod (part parts 9) ;;
    cost <- stod (part parts 4) ;;
    engine <- stoi (part parts 5) ;;
    consumption <- stod (part parts 6) ;;
    doors <- stoi (part parts 10) ;;
    v <- CombustionCar_ctor (part parts 3) (part parts 1) (part parts 2) miles cost
           cat engine consumption fuel doors ;;
    Ok (Some v)
  else if (part parts 0 =? "ElectricCar")%string && (9 <=? List.length parts)%nat then
    cat <- stoi (part parts 6) ;;
    miles <- stod (part parts 7) ;;
    cost <- stod (part parts 4) ;;
    battery <- stod (part parts 5) ;;
    doors <- stoi (part parts 8) ;;
    v <- ElectricCar_ctor (part parts 3) (part parts 1) (part parts 2) miles cost
           cat battery doors ;;
    Ok (Some v)
  else if (part parts 0 =? "Truck")%string && (11 <=? List.length parts)%nat then
    fuel <- stoi (part parts 7) ;;
    cat <- stoi (part parts 8) ;;
    miles <- stod (part parts 9) ;;
    cost <- stod (part parts 4) ;;
    engine <- stoi (part parts 5) ;;
    consumption <- stod (part parts 6) ;;
    capacity <- stoi (part parts 10) ;;
    v <- Truck_ctor (part parts 3) (part parts 1) (part parts 2) miles cost
           cat engine consumption fuel capacity ;;
    Ok (Some v)
  else if (part parts 0 =? "Motorcycle")%string && (10 <=? List.length parts)%nat then
    fuel <- stoi (part parts 7) ;;
    cat <- stoi (part parts 8) ;;
    miles <- stod (part parts 9) ;;
    cost <- stod (part parts 4) ;;
    engine <- stoi (part parts 5) ;;
    consumption <- stod (part parts 6) ;;
    v <- Motorcycle_ctor (part parts 3) (part parts 1) (part parts 2) miles cost
           cat engine consumption fuel ;;
    Ok (Some v)
  else Ok None.

Definition parse_customer (parts : list string) : result (option Customer) :=
  if (part parts 0 =? "PrivateCustomer")%string then
    if (4 <=? List.length parts)%nat then
      c <- PrivateCustomer_ctor (part parts 1) (part parts 2) (part parts 3) ;;
      Ok (Some c)
    else Ok None
  else if (part parts 0 =? "BusinessCustomer")%string then
    if (4 <=? List.length parts)%nat then
      c <- BusinessCustomer_ctor (part parts 1) (part parts 2) (part parts 3) ;;
      Ok (Some c)
    else Ok None
  else Ok None.

(** [int n = 0; if (std::getline(file, line)) n = std::stoi(line);] *)
Definition read_count (file : string) : result (Z * string) :=
  match getline newline file with
  | Some (line, file') => n <- stoi line ;; Ok (n, file')
  | None => Ok (0, file)
  end.

(** The loop that rebuilds the vehicles; [count] iterations are left and
    the result is what is left of the file. *)
Fixpoint load_vehicles (count : nat) (file : string) (m : VehicleManager)
    : outcome string :=
  match count with
  | O => Done file m
  | S count' =>
      match getline newline file with
      | None => Done file m
      | Some (line, file') =>
          let parts := split line in
          if (List.length parts =? 0)%nat then load_vehicles count' file' m
          else
            match parse_vehicle parts with
            | Ok (Some v) =>
                load_vehicles count' file'
                  (mkVehicleManager (vehicles m ++ [(new_ptr (vehicles m), v)])
                     (customers m) (rentals m) (rentalHistory m))
            | Ok None => load_vehicles count' file' m
            | Throw _ => load_vehicles count' file' m
            | Undefined => UB
            end
      end
  end.

Fixpoint load_customers (count : nat) (file : string) (m : VehicleManager)
    : outcome string :=
  match count with
  | O => Done file m
  | S count' =>
      match getline newline file with
      | None => Done file m
      | Some (line, file') =>
          let parts := split line in
          if (List.length parts =? 0)%nat then load_customers count' file' m
          else
            match parse_customer parts with
            | Ok (Some c) =>
                load_customers count' file'
                  (mkVehicleManager (vehicles m)
                     (customers m ++ [(new_ptr (customers m), c)])
                     (rentals m) (rentalHistory m))
            | Ok None => load_customers count' file' m
            | Throw _ => load_customers count' file' m
            | Undefined => UB
            end
      end
  end.

(** The loop that replays the rentals: [try { rentVehicle(...) } catch (...) {}]. *)
Fixpoint load_rentals (count : nat) (file : string) (m : VehicleManager)
    : outcome string :=
  match count with
  | O => Done file m
  | S count' =>
      match getline newline file with
      | None => Done file m
      | Some (line, file') =>
          let parts := split line in
          if (List.length parts <? 4)%nat then load_rentals count' file' m
          else
            match rentVehicle (part parts 0) (part parts 1) (part parts 2)
                    (part parts 3) m with
            | Done _ m' => load_rentals count' file' m'
            | Raised _ m' => load_rentals count' file' m'
            | UB => UB
            end
      end
  end.

(** The loop that reads the history; it has no [break]. *)
Fixpoint load_history (count : nat) (file : string) (history : list string)
    : list string :=
  match count with
  | O => history
  | S count' =>
      match getline newline file with
      | Some (line, file') => load_history count' file' (history ++ [line])
      | None => load_history count' file history
      end
  end.

(** [loadFromFile]: [file] is the text of the file, [None] when
    [std::ifstream] cannot open it. *)
Definition loadFromFile (file : option string) (m : VehicleManager) : outcome unit :=
  match file with
  | None => Done tt m
  | Some file =>
      let m := mkVehicleManager [] [] [] (rentalHistory m) in
      and_then (lift (read_count file) m) (fun '(vCount, file) m =>
      and_then (load_vehicles (Z.to_nat vCount) file m) (fun file m =>
      and_then (lift (read_count file) m) (fun '(cCount, file) m =>
      and_then (load_customers (Z.to_nat cCount) file m) (fun file m =>
      and_then (lift (read_count file) m) (fun '(rCount, file) m =>
      and_then (load_rentals (Z.to_nat rCount) file m) (fun file m =>
      and_then (lift (read_count file) m) (fun '(hCount, file) m =>
      Done tt (mkVehicleManager (vehicles m) (customers m) (rentals m)
                 (load_history (Z.to_nat hCount) file [])))))))))
  end.

End Persistence.

(** ** The usual text forms of a [double]

    A model of what the GNU C and C++ libraries do for
    [operator<<(std::ostream&, double)] under the stream's default format
    (that of [printf("%g")]: six significant digits, the shorter of fixed and
    scientific notation, trailing zeros dropped) and for [std::stod]
    ([strtod]: decimal and hexadecimal numerals, [inf] and [nan], correctly
    rounded; [std::out_of_range] on overflow and on an inexact subnormal
    result). Both work on the exact rational value of the number. *)

(** The integer nearest to [n / d], ties to even ([0 <= n], [0 < d]). *)
Definition div_nearest_even (n d : Z) : Z :=
  let q := n / d in
  match 2 * (n mod d) ?= d with
  | Lt => q
  | Gt => q + 1
  | Eq => if Z.even q then q else q + 1
  end.

(** [num / den] times [base ^ (- k)], rounded to the nearest integer. *)
Definition scaled (base num den k : Z) : Z :=
  if 0 <=? k then div_nearest_even num (den * base ^ k)
  else div_nearest_even (num * base ^ (- k)) den.

(** [base ^ x <= num / den] *)
Definition reaches (base num den x : Z) : bool :=
  if 0 <=? x then den * base ^ x <=? num else den <=? num * base ^ (- x).

(** The largest [x], searched downwards from [x0], with
    [10 ^ x <= num / den]. [printf_g6] starts the search just above the
    decimal logarithm, which it bounds by the binary one
    ([log10 2 < 0.30103]). *)
Fixpoint decimal_exponent (fuel : nat) (num den x0 : Z) : Z :=
  match fuel with
  | O => x0
  | S fuel' =>
      if reaches 10 num den x0 then x0
      else decimal_exponent fuel' num den (x0 - 1)
  end.

Fixpoint strip_zeros_rev (s : list ascii) : list ascii :=
  match s with
  | c :: r => if Ascii.eqb c "0" then strip_zeros_rev r else s
  | [] => []
  end.

(** [s] without its trailing zeros. *)
Definition strip_trailing_zeros (s : string) : string :=
  string_of_list_ascii
    (List.rev (strip_zeros_rev (List.rev (list_ascii_of_string s)))).

Fixpoint zeros (n : nat) : string :=
  match n with
  | O => EmptyString
  | S n' => String "0" (zeros n')
  end.

Definition with_point (int_part frac : string) : string :=
  if empty frac then int_part else (int_part ++ "." ++ frac)%string.

(** The three layouts of [%g] for the six digits [ds] and the decimal
    exponent [x]. *)
Definition sign_of_exponent (x : Z) : string := if x <? 0 then "-" else "+".

Definition two_digits (x : Z) : string :=
  let pad : string := if x <? 10 then "0" else "" in pad ++ show_int x.

Definition scientific (ds : string) (x : Z) : string :=
  with_point (String.substring 0 1 ds) (strip_trailing_zeros (String.substring 1 5 ds))
  ++ "e" ++ sign_of_exponent x ++ two_digits (Z.abs x).

Definition fixed_above_one (ds : string) (x : Z) : string :=
  with_point (String.substring 0 (Z.to_nat (x + 1)) ds)
    (strip_trailing_zeros (String.substring (Z.to_nat (x + 1)) (Z.to_nat (5 - x)) ds)).

Definition fixed_below_one (ds : string) (x : Z) : string :=
  "0." ++ zeros (Z.to_nat (- x - 1)) ++ strip_trailing_zeros ds.

(** [printf("%g", x)]. A [float] has one NaN, which has no sign: [nan] is
    written for it, where the library writes [-nan] for a NaN whose sign
    bit is set. *)
Definition printf_g6 (x : float) : string :=
  match Prim2SF x with
  | S754_nan => "nan"
  | S754_zero s => if s then "-0" else "0"
  | S754_infinity s => if s then "-inf" else "inf"
  | S754_finite s m e =>
      let num := if 0 <=? e then Z.pos m * 2 ^ e else Z.pos m in
      let den := if 0 <=? e then 1 else 2 ^ (- e) in
      let guess := ((Z.log2 num - Z.log2 den + 1) * 30103) / 100000 + 1 in
      let x0 := decimal_exponent 700 num den guess in
      let d0 := scaled 10 num den (x0 - 5) in
      let '(d, x) := if d0 =? 10 ^ 6 then (10 ^ 5, x0 + 1) else (d0, x0) in
      let ds := show_int d in
      let body : string :=
        if (x <? -4) || (6 <=? x) then scientific ds x
        else if 0 <=? x then fixed_above_one ds x
        else fixed_below_one ds x in
      let sign : string := if s then "-" else "" in
      sign ++ body
  end.

(** The [double] nearest to [num / den] (ties to even), with the sign
    [negative]. [strtod] reports a range error, and [std::stod] throws, when
    the value overflows and when it is tiny after rounding and inexact. *)
Definition round_to_double (negative : bool) (num den : Z) : conversion float :=
  let e0 := Z.log2 num - Z.log2 den in
  let e := if reaches 2 num den e0 then e0 else e0 - 1 in
  let q_free := scaled 2 num den (e - 52) in
  let tiny := if q_free =? 2 ^ 53 then e + 1 <? -1022 else e <? -1022 in
  let k0 := Z.max (e - 52) (-1074) in
  let q0 := scaled 2 num den k0 in
  let '(q, k) := if q0 =? 2 ^ 53 then (2 ^ 52, k0 + 1) else (q0, k0) in
  let exact := if 0 <=? k then q * 2 ^ k * den =? num else q * den =? num * 2 ^ (- k) in
  if 971 <? k then Failed (out_of_range "stod")
  else if tiny && negb exact then Failed (out_of_range "stod")
  else
    match q with
    | Z.pos p => Converted (SF2Prim (S754_finite negative p k))
    | _ => Converted (SF2Prim (S754_zero negative))
    end.

Definition to_lower (c : ascii) : ascii :=
  if (65 <=? char_code c) && (char_code c <=? 90)
  then ascii_of_N (N_of_ascii c + 32) else c.

(** What follows the prefix [p] of [s], letters compared without case. *)
Fixpoint after_prefix (p s : string) : option string :=
  match p, s with
  | EmptyString, _ => Some s
  | String a p', String b s' =>
      if Ascii.eqb a (to_lower b) then after_prefix p' s' else None
  | String _ _, EmptyString => None
  end.

Definition hex_value (c : ascii) : option Z :=
  let n := char_code (to_lower c) in
  if (48 <=? n) && (n <=? 57) then Some (n - 48)
  else if (97 <=? n) && (n <=? 102) then Some (n - 87)
  else None.

Definition digit_in (base : Z) (c : ascii) : option Z :=
  if base =? 16 then hex_value c
  else if isdigit c then Some (digit_value c) else None.

(** The digits at the head of [s] in [base], read onto [acc]: the value,
    how many were read, and what follows. *)
Fixpoint read_numeral (base : Z) (s : string) (acc : Z) (count : Z)
    : Z * Z * string :=
  match s with
  | String c r =>
      match digit_in base c with
      | Some d => read_numeral base r (base * acc + d) (count + 1)
      | None => (acc, count, s)
      end
  | EmptyString => (acc, count, s)
  end.

(** An exponent part: the marker letter, an optional sign and at least one
    decimal digit; [0] when there is none. *)
Definition read_exponent (marker : ascii) (s : string) : Z :=
  match s with
  | String c r =>
      if Ascii.eqb (to_lower c) marker then
        let '(negative, r') :=
          match r with
          | String sgn r' =>
              if Ascii.eqb sgn "-" then (true, r')
              else if Ascii.eqb sgn "+" then (false, r')
              else (false, r)
          | EmptyString => (false, r)
          end in
        let '(v, count, _) := read_numeral 10 r' 0 0 in
        if count =? 0 then 0 else if negative then - v else v
      else 0
  | EmptyString => 0
  end.

(** Bounds of the binary logarithm of [ebase ^ ex] for [ebase] 2 or 10
    ([8 < 10 < 16]). They only keep [read_number] from building a power
    whose result is known to overflow or to vanish. *)
Definition log2_power_lower (ebase ex : Z) : Z :=
  if ebase =? 2 then ex else if 0 <=? ex then 3 * ex else 4 * ex.

Definition log2_power_upper (ebase ex : Z) : Z :=
  if ebase =? 2 then ex else if 0 <=? ex then 4 * ex else 3 * ex.

(** A numeral in [base] (10 with exponent marker [e] and exponent base 10,
    or 16 with marker [p] and exponent base 2): [None] when no digit
    stands at the head of [s]. *)
Definition read_number (negative : bool) (base : Z) (s : string)
    : option (conversion float) :=
  let '(m1, n1, r1) := read_numeral base s 0 0 in
  let '(m, n2, r2) :=
    match r1 with
    | String c r => if Ascii.eqb c "." then read_numeral base r m1 0 else (m1, 0, r1)
    | EmptyString => (m1, 0, r1)
    end in
  if n1 + n2 =? 0 then None
  else
    let '(marker, ebase, per_digit) :=
      if base =? 16 then ("p"%char, 2, 4) else ("e"%char, 10, 1) in
    let ex := read_exponent marker r2 - per_digit * n2 in
    if m =? 0 then Some (Converted (SF2Prim (S754_zero negative)))
    else if 1100 <=? Z.log2 m + log2_power_lower ebase ex then
      Some (Failed (out_of_range "stod"))
    else if (Z.log2 m + 1) + log2_power_upper ebase ex <=? -1100 then
      Some (Failed (out_of_range "stod"))
    else if 0 <=? ex then Some (round_to_double negative (m * ebase ^ ex) 1)
    else Some (round_to_double negative m (ebase ^ (- ex))).

(** [std::stod(s)]. *)
Definition strtod_model (s : string) : conversion float :=
  let s1 := skip_spaces s in
  let '(negative, s2) :=
    match s1 with
    | String c r =>
        if Ascii.eqb c "-" then (true, r)
        else if Ascii.eqb c "+" then (false, r)
        else (false, s1)
    | EmptyString => (false, s1)
    end in
  match after_prefix "inf" s2, after_prefix "nan" s2 with
  | Some _, _ => Converted (SF2Prim (S754_infinity negative))
  | None, Some _ => Converted PrimFloat.nan
  | None, None =>
      let hex :=
        match after_prefix "0x" s2 with
        | Some r => read_number negative 16 r
        | None => None
        end in
      match hex with
      | Some v => v
      | None =>
          match read_number negative 10 s2 with
          | Some v => v
          | None => Failed (invalid_argument "stod")
          end
      end
  end.

#[export] Instance libstdcxx_double_text : DoubleText := {
  show_double := printf_g6;
  stod := strtod_model
}.

(** * The specification's side

    Definitions that follow the words of the specification; the theorems
    compare them with the definitions translated from the sources. *)

(** A decimal digit. *)
Definition digit_char (c : ascii) : Prop :=
  In c ["0"; "1"; "2"; "3"; "4"; "5"; "6"; "7"; "8"; "9"]%char.

(** The number a list of decimal digits denotes. *)
Definition decimal (cs : list ascii) : Z :=
  fold_left (fun n c => 10 * n + (char_code c - char_code "0")) cs 0.

(** The Gregorian rule: divisible by 4 and not by 100, or divisible by 400. *)
Definition leap_year (y : Z) : bool :=
  ((y mod 4 =? 0) && negb (y mod 100 =? 0)) || (y mod 400 =? 0).

Definition days_in_month (m y : Z) : Z :=
  match m with
  | 1 | 3 | 5 | 7 | 8 | 10 | 12 => 31
  | 4 | 6 | 9 | 11 => 30
  | 2 => if leap_year y then 29 else 28
  | _ => 0
  end.

(** A string of the exact shape [DDDD-DD-DD] whose month is in 1..12 and
    whose day is in 1..[days_in_month]. *)
Definition valid_date (s : string) : Prop :=
  exists y1 y2 y3 y4 m1 m2 d1 d2 : ascii,
    s = string_of_list_ascii [y1; y2; y3; y4; "-"; m1; m2; "-"; d1; d2]%char
    /\ Forall digit_char [y1; y2; y3; y4; m1; m2; d1; d2]
    /\ 1 <= decimal [m1; m2] <= 12
    /\ 1 <= decimal [d1; d2]
       <= days_in_month (decimal [m1; m2]) (decimal [y1; y2; y3; y4]).

(** * Auxiliary definitions of the proofs *)

Fixpoint all_digits (s : string) : bool :=
  match s with
  | EmptyString => true
  | String c r => isdigit c && all_digits r
  end.

Definition str2 (a b : ascii) : string := String a (String b EmptyString).

Definition str4 (a b c d : ascii) : string :=
  String a (String b (String c (String d EmptyString))).

(** The fields of a date string [YYYY-MM-DD], read as decimal numbers. *)
Definition date_year (s : string) : Z :=
  decimal (firstn 4 (list_ascii_of_string s)).
Definition date_month (s : string) : Z :=
  decimal (firstn 2 (skipn 5 (list_ascii_of_string s))).
Definition date_day (s : string) : Z :=
  decimal (firstn 2 (skipn 8 (list_ascii_of_string s))).

Definition year_length (y : Z) : Z := if leap_year y then 366 else 365.

(** [f 1 + f 2 + ... + f n] *)
Fixpoint sum_1_to (n : nat) (f : Z -> Z) : Z :=
  match n with
  | O => 0
  | S k => sum_1_to k f + f (Z.of_nat (S k))
  end.

(** What the loops of [countTotalDays] add up on a valid date: the lengths
    of the years 1, ..., [year - 1], the days of the months before its
    month, and its day. *)
Definition counted_days (s : string) : Z :=
  sum_1_to (Z.to_nat (date_year s - 1)) year_length
  + sum_1_to (Z.to_nat (date_month s - 1)) (fun j => days_in_month j (date_year s))
  + date_day s.

(** [f 0 + f 1 + ... + f (n - 1)] *)
Fixpoint sum_below (n : nat) (f : Z -> Z) : Z :=
  match n with
  | O => 0
  | S k => sum_below k f + f (Z.of_nat k)
  end.

(** The day counter of the specification: 365 or 366 for each complete
    year before the date's year, which are the years 0000, ...,
    [year - 1], as 0000 is a year of a valid date; the days of each
    complete month before its month; and its day. *)
Definition daysSinceEpoch (s : string) : Z :=
  sum_below (Z.to_nat (date_year s)) year_length
  + sum_1_to (Z.to_nat (date_month s - 1)) (fun j => days_in_month j (date_year s))
  + date_day s.

(** The order of three numbers taken as year, month and day. *)
Definition compare_ymd (y m d y' m' d' : Z) : comparison :=
  match y ?= y' with
  | Eq => match m ?= m' with
          | Eq => d ?= d'
          | c => c
          end
  | c => c
  end.

(** The days of the year [y] before the month [m]. *)
Definition days_before_month (m y : Z) : Z :=
  sum_1_to (Z.to_nat (m - 1)) (fun j => days_in_month j y).

(** The days of the years 1, ..., [y - 1]. *)
Definition days_before_year (y : Z) : Z :=
  sum_1_to (Z.to_nat (y - 1)) year_length.

(** The counter of a year, a month and a day. *)
Definition day_number (y m d : Z) : Z :=
  days_before_year y + days_before_month m y + d.

(** * Objects, calls and reachable managers *)

(** The constructor call that yields the object [v] again: constructors
    store their arguments as they are, so [v] is an object some constructor
    call returns exactly when [reconstruct v = Ok v]. *)
Definition reconstruct (v : Vehicle) : result Vehicle :=
  match v with
  | CombustionCar b c doors =>
      CombustionCar_ctor (regNumber b) (brand b) (model b) (mileage b) (baseCost b)
        (licenceCat b) (engineSize c) (fuelConsumption c) (fuelType c) doors
  | ElectricCar b battery doors =>
      ElectricCar_ctor (regNumber b) (brand b) (model b) (mileage b) (baseCost b)
        (licenceCat b) battery doors
  | Truck b c capacity =>
      Truck_ctor (regNumber b) (brand b) (model b) (mileage b) (baseCost b)
        (licenceCat b) (engineSize c) (fuelConsumption c) (fuelType c) capacity
  | Motorcycle b c =>
      Motorcycle_ctor (regNumber b) (brand b) (model b) (mileage b) (baseCost b)
        (licenceCat b) (engineSize c) (fuelConsumption c) (fuelType c)
  end.

Definition constructed (v : Vehicle) : Prop := reconstruct v = Ok v.

Definition reconstruct_customer (c : Customer) : result Customer :=
  match c with
  | PrivateCustomer b idCardNumber =>
      PrivateCustomer_ctor (Customer.name b) (Customer.address b) idCardNumber
  | BusinessCustomer b nip =>
      BusinessCustomer_ctor (Customer.name b) (Customer.address b) nip
  end.

Definition constructed_customer (c : Customer) : Prop :=
  reconstruct_customer c = Ok c.

(** A call of one of the manager's state-changing public member functions. *)
Inductive call : Type :=
| call_addVehicle (v : option Vehicle)
| call_removeVehicle (regNumber : string)
| call_addCustomer (c : option Customer)
| call_removeCustomer (id : string)
| call_rentVehicle (regNumber customerId startDate endDate : string)
| call_returnVehicle (regNumber : string) (newMileage : float)
| call_loadFromFile (file : option string).

(** The objects handed to the manager come from constructors. *)
Definition call_ok (c : call) : Prop :=
  match c with
  | call_addVehicle (Some v) => constructed v
  | call_addCustomer (Some c) => constructed_customer c
  | _ => True
  end.

Definition forget {A : Type} (o : outcome A) : outcome unit :=
  match o with
  | Done _ m => Done tt m
  | Raised e m => Raised e m
  | UB => UB
  end.

Section Reachable.

Context {DT : DoubleText}.

Definition run (c : call) (m : VehicleManager) : outcome unit :=
  match c with
  | call_addVehicle v => addVehicle v m
  | call_removeVehicle regNumber => removeVehicle regNumber m
  | call_addCustomer c => addCustomer c m
  | call_removeCustomer id => removeCustomer id m
  | call_rentVehicle regNumber customerId startDate endDate =>
      rentVehicle regNumber customerId startDate endDate m
  | call_returnVehicle regNumber newMileage =>
      forget (returnVehicle regNumber newMileage m)
  | call_loadFromFile file => loadFromFile file m
  end.

(** The manager a call leaves behind, whether it returns or throws. *)
Definition leaves (c : call) (m m' : VehicleManager) : Prop :=
  run c m = Done tt m' \/ exists e, run c m = Raised e m'.

(** The managers the public member functions can produce from a new one. *)
Inductive reachable : VehicleManager -> Prop :=
| reachable_new : reachable VehicleManager_new
| reachable_call (c : call) (m m' : VehicleManager) :
    reachable m -> call_ok c -> leaves c m m' -> reachable m'.

End Reachable.

(** The vehicle at [p] is referenced by an active rental (the test of
    [findAvailableVehicles]). *)
Definition is_rented (m : VehicleManager) (p : ptr) : bool :=
  existsb (fun r => ptr_eqb (vehicle r) p) (rentals m).

(** The registration of the vehicle a rental refers to. *)
Definition rental_reg (m : VehicleManager) (r : Rental) : option string :=
  option_map getRegNumber (rental_vehicle m r).

(** The rental points at a vehicle of the store that is the first of its
    registration, as [getVehicle] finds it. *)
Definition refers_to_vehicle (vs : list (ptr * Vehicle)) (r : Rental) : Prop :=
  exists p v, vehicle r = Some p /\ lookup p vs = Some v
              /\ find_vehicle (getRegNumber v) vs = Some p.

(** The rental points at a customer of the store that is the first of its
    id, as [getCustomer] finds it. *)
Definition refers_to_customer (cs : list (ptr * Customer)) (r : Rental) : Prop :=
  exists q c, customer r = Some q /\ lookup q cs = Some c
              /\ find_customer (getId c) cs = Some q.

(** A rental as [rentVehicle] makes them. *)
Definition rental_ok (m : VehicleManager) (r : Rental) : Prop :=
  refers_to_vehicle (vehicles m) r
  /\ refers_to_customer (customers m) r
  /\ valid_date (startDate r) /\ valid_date (endDate r)
  /\ String.leb (endDate r) (startDate r) = false.

(** The invariant of the manager. *)
Record manager_inv (m : VehicleManager) : Prop := {
  inv_vehicle_ptrs : NoDup (map fst (vehicles m));
  inv_customer_ptrs : NoDup (map fst (customers m));
  inv_rentals : Forall (rental_ok m) (rentals m);
  inv_rented_once : NoDup (map (rental_reg m) (rentals m));
  inv_vehicles : Forall (fun pv => constructed (snd pv)) (vehicles m);
  inv_customers : Forall (fun pc => constructed_customer (snd pc)) (customers m)
}.

(** * Auxiliary definitions of the manager's proofs *)

(** The first object of the store whose key is [k]: the common shape of
    [find_vehicle] and [find_customer]. *)
Fixpoint find_by {A : Type} (key : A -> string) (k : string)
    (store : list (ptr * A)) : option ptr :=
  match store with
  | [] => None
  | (p, a) :: rest => if (key a =? k)%string then Some p else find_by key k rest
  end.

(** The rental refers to a vehicle of registration [reg]. *)
Definition has_reg (m : VehicleManager) (reg : string) (r : Rental) : bool :=
  match rental_reg m r with
  | Some g => (g =? reg)%string
  | None => false
  end.

(** The rental refers to a customer of id [id]. *)
Definition has_id (m : VehicleManager) (id : string) (r : Rental) : bool :=
  match rental_customer m r with
  | Some c => (getId c =? id)%string
  | None => false
  end.

(** The call does not run into undefined behaviour and leaves a manager
    that satisfies [P], whether it returns or throws. *)
Definition ends_in {A : Type} (P : VehicleManager -> Prop) (o : outcome A) : Prop :=
  match o with
  | Done _ m' => P m'
  | Raised _ m' => P m'
  | UB => False
  end.

(** The constructors' checks, on the fields an object holds. *)
Definition base_okb (b : Vehicle_base) : bool :=
  negb (empty (regNumber b)) && negb (9 <? String.length (regNumber b))%nat
  && negb (empty (brand b)) && negb (empty (model b)).

Definition comb_okb (c : CombustionVehicle_part) : bool :=
  negb (engineSize c <=? 0) && negb (PrimFloat.leb (fuelConsumption c) 0).

Definition vehicle_okb (v : Vehicle) : bool :=
  match v with
  | CombustionCar b c doors => base_okb b && comb_okb c && negb (doors <=? 0)
  | ElectricCar b battery doors =>
      base_okb b && negb (PrimFloat.leb battery 0) && negb (doors <=? 0)
  | Truck b c capacity => base_okb b && comb_okb c && negb (capacity <=? 0)
  | Motorcycle b c => base_okb b && comb_okb c
  end.

Definition customer_okb (c : Customer) : bool :=
  negb (empty (getId c)) && negb (empty (getName c)) && negb (empty (getAddress c))
  && match c with
     | PrivateCustomer b idCardNumber => (Customer.id b =? idCardNumber)%string
     | BusinessCustomer b nip => (Customer.id b =? nip)%string
     end.

(** * A small fleet

    A concrete manager, built by calls, at which the theorems are
    instantiated. *)

Definition demo_car : Vehicle :=
  CombustionCar
    (mkVehicle_base "WA12345" "Toyota" "Corolla" 15000.5 100 LicenceCategory_B)
    (mkCombustionVehicle_part 1600 6.5 FuelType_Gasoline) 4.

Definition demo_truck : Vehicle :=
  Truck
    (mkVehicle_base "KR7777" "Volvo" "FH16" 250000 100 LicenceCategory_C)
    (mkCombustionVehicle_part 12800 32.5 FuelType_Diesel) 50.

Definition demo_customer : Customer :=
  PrivateCustomer (Customer.mk_base "ABC123456" "Jan Kowalski" "Warszawa, Prosta 1")
    "ABC123456".

Definition demo_company : Customer :=
  BusinessCustomer (Customer.mk_base "1234567890" "Acme" "Krakow, Dluga 5")
    "1234567890".

(** The manager a sequence of calls leaves ([None]: undefined behaviour). *)
Fixpoint run_all {DT : DoubleText} (cs : list call) (m : VehicleManager)
    : option VehicleManager :=
  match cs with
  | [] => Some m
  | c :: rest =>
      match run c m with
      | Done _ m' => run_all rest m'
      | Raised _ m' => run_all rest m'
      | UB => None
      end
  end.

Definition demo_calls : list call :=
  [call_addVehicle (Some demo_car);
   call_addVehicle (Some demo_truck);
   call_addCustomer (Some demo_customer);
   call_addCustomer (Some demo_company);
   call_rentVehicle "WA12345" "ABC123456" "2024-01-01" "2024-01-05"].

Definition demo_manager : VehicleManager :=
  Eval vm_compute in
    match run_all demo_calls VehicleManager_new with
    | Some m => m
    | None => VehicleManager_new
    end.

(** The manager after [returnVehicle("WA12345", 15200.5)]. *)
Definition demo_returned : VehicleManager :=
  Eval vm_compute in
    match returnVehicle "WA12345" 15200.5 demo_manager with
    | Done _ m => m
    | _ => demo_manager
    end.

(** A car with a base cost of zero and a negative mileage. *)
Definition free_car : Vehicle :=
  CombustionCar
    (mkVehicle_base "WA12345" "Toyota" "Corolla" (-5) 0 LicenceCategory_B)
    (mkCombustionVehicle_part 1600 6.5 FuelType_Gasoline) 4.

(** * The saved text

    Auxiliary definitions of the proofs about [saveToFile] and
    [loadFromFile]. *)

(** The fields [fs], separated by [;] and followed by [tail]. *)
Fixpoint join_with (fs : list string) (tail : string) : string :=
  match fs with
  | [] => tail
  | [f] => f ++ tail
  | f :: rest => f ++ ";" ++ join_with rest tail
  end.

(** No character of [s] is [c]. *)
Fixpoint lacks (c : ascii) (s : string) : bool :=
  match s with
  | EmptyString => true
  | String a r => negb (Ascii.eqb a c) && lacks c r
  end.

(** A text that is read back as one field of one line. *)
Definition plain (s : string) : bool := lacks ";" s && lacks newline s.

(** A value of the type [int]. *)
Definition is_int (z : Z) : Prop := INT_MIN <= z <= INT_MAX.

(** The objects of [vs], stored one by one behind new pointers: what the
    loops of [loadFromFile] build with [push_back(new ...)]. *)
Definition push_all {A : Type} (store : list (ptr * A)) (vs : list A)
    : list (ptr * A) :=
  fold_left (fun st v => st ++ [(new_ptr st, v)]) vs store.

Section Saved.

Context {DT : DoubleText}.

(** The text [operator<<] writes for [d] is one field, and [std::stod]
    reads [d] back from it. *)
Definition reads_back (d : float) : Prop :=
  stod (show_double d) = Converted d
  /\ plain (show_double d) = true
  /\ show_double d <> EmptyString.

(** The fields of the line [saveToFile] writes for a vehicle. *)
Definition vehicle_fields (v : Vehicle) : list string :=
  match v with
  | CombustionCar b c doors =>
      ["CombustionCar"; brand b; model b; regNumber b; show_double (baseCost b);
       show_int (engineSize c); show_double (fuelConsumption c);
       show_int (fuelType c); show_int (licenceCat b); show_double (mileage b);
       show_int doors]
  | ElectricCar b batteryCapacity doors =>
      ["ElectricCar"; brand b; model b; regNumber b; show_double (baseCost b);
       show_double batteryCapacity; show_int (licenceCat b);
       show_double (mileage b); show_int doors]
  | Truck b c cargoCapacity =>
      ["Truck"; brand b; model b; regNumber b; show_double (baseCost b);
       show_int (engineSize c); show_double (fuelConsumption c);
       show_int (fuelType c); show_int (licenceCat b); show_double (mileage b);
       show_int cargoCapacity]
  | Motorcycle b c =>
      ["Motorcycle"; brand b; model b; regNumber b; show_double (baseCost b);
       show_int (engineSize c); show_double (fuelConsumption c);
       show_int (fuelType c); show_int (licenceCat b); show_double (mileage b)]
  end.

Definition customer_fields (c : Customer) : list string :=
  match c with
  | PrivateCustomer _ idCardNumber =>
      ["PrivateCustomer"; getName c; getAddress c; idCardNumber]
  | BusinessCustomer _ nip => ["BusinessCustomer"; getName c; getAddress c; nip]
  end.

Definition rental_fields (m : VehicleManager) (r : Rental) : list string :=
  match rental_vehicle m r, rental_customer m r with
  | Some v, Some c => [getRegNumber v; getId c; startDate r; endDate r]
  | _, _ => []
  end.

Definition base_savable (b : Vehicle_base) : Prop :=
  plain (regNumber b) = true /\ plain (brand b) = true /\ plain (model b) = true
  /\ reads_back (mileage b) /\ reads_back (baseCost b) /\ is_int (licenceCat b).

Definition combustion_savable (c : CombustionVehicle_part) : Prop :=
  is_int (engineSize c) /\ reads_back (fuelConsumption c) /\ is_int (fuelType c).

(** The vehicle is written to a line from which it is read back: no text
    field holds a [;] or a line break, and every number is read back from
    its text. *)
Definition vehicle_savable (v : Vehicle) : Prop :=
  match v with
  | CombustionCar b c doors =>
      base_savable b /\ combustion_savable c /\ is_int doors
  | ElectricCar b batteryCapacity doors =>
      base_savable b /\ reads_back batteryCapacity /\ is_int doors
  | Truck b c cargoCapacity =>
      base_savable b /\ combustion_savable c /\ is_int cargoCapacity
  | Motorcycle b c => base_savable b /\ combustion_savable c
  end.

Definition customer_savable (c : Customer) : Prop :=
  plain (getName c) = true /\ plain (getAddress c) = true /\ plain (getId c) = true.

(** The managers whose file holds all there is to them. *)
Definition savable (m : VehicleManager) : Prop :=
  Forall (fun pv => vehicle_savable (snd pv)) (vehicles m)
  /\ Forall (fun pc => customer_savable (snd pc)) (customers m)
  /\ Forall (fun entry => lacks newline entry = true) (rentalHistory m)
  /\ is_int (Z.of_nat (List.length (vehicles m)))
  /\ is_int (Z.of_nat (List.length (customers m)))
  /\ is_int (Z.of_nat (List.length (rentals m)))
  /\ is_int (Z.of_nat (List.length (rentalHistory m))).

End Saved.

(** What a rental is by its fields: the vehicle and the customer it points
    at, and its two dates. *)
Definition rental_view (m : VehicleManager) (r : Rental)
    : option Vehicle * option Customer * string * string :=
  (rental_vehicle m r, rental_customer m r, startDate r, endDate r).

(** The manager's state up to the addresses of its objects: the vehicles,
    the customers, the active rentals and the history, each in its order. *)
Definition snapshot (m : VehicleManager)
    : list Vehicle * list Customer
      * list (option Vehicle * option Customer * string * string) * list string :=
  (map snd (vehicles m), map snd (customers m),
   map (rental_view m) (rentals m), rentalHistory m).

(** The fleet later in the season: the car is back, the truck is out. *)
Definition demo_season : VehicleManager :=
  Eval vm_compute in
    match run_all [call_returnVehicle "WA12345" 15200.5;
                   call_rentVehicle "KR7777" "1234567890" "2024-02-01" "2024-02-03"]
            demo_manager with
    | Some m => m
    | None => demo_manager
    end.

(** A customer whose name holds a [;]. *)
Definition listed_customer : Customer :=
  PrivateCustomer (Customer.mk_base "ABC123456" "Kowalski; Jan" "Warszawa")
    "ABC123456".

Definition listed_manager : VehicleManager :=
  mkVehicleManager [] [(1%nat, listed_customer)] [] [].

(** A car whose mileage, 123456.7 km (the nearest binary64 number), has
    seven significant digits. *)
Definition worn_car : Vehicle :=
  CombustionCar
    (mkVehicle_base "WA12345" "Toyota" "Corolla" 0x1.e240b33333333p+16 100 LicenceCategory_B)
    (mkCombustionVehicle_part 1600 6.5 FuelType_Gasoline) 4.

Definition worn_manager : VehicleManager :=
  mkVehicleManager [(1%nat, worn_car)] [] [] [].

(** The manager with another history. *)
Definition with_history (history : list string) (m : VehicleManager)
    : VehicleManager :=
  mkVehicleManager (vehicles m) (customers m) (rentals m) history.

Definition outcome_with_history {A : Type} (history : list string)
    (o : outcome A) : outcome A :=
  match o with
  | Done a m => Done a (with_history history m)
  | Raised e m => Raised e (with_history history m)
  | UB => UB
  end.

(** * The other member functions *)

(** ** Setters of the vehicle classes

    Each setter is given on the data members of the class that declares
    it. *)

(** [CombustionVehicle::setEngineSize]. *)
Definition setEngineSize (size : Z) (c : CombustionVehicle_part)
    : result CombustionVehicle_part :=
  if size <=? 0 then Throw (invalid_argument "Engine size must be positive.")
  else Ok (mkCombustionVehicle_part size (fuelConsumption c) (fuelType c)).

(** [CombustionVehicle::setFuelConsumption]. *)
Definition setFuelConsumption (consumption : float) (c : CombustionVehicle_part)
    : result CombustionVehicle_part :=
  if PrimFloat.leb consumption 0 then
    Throw (invalid_argument "Fuel consumption must be positive.")
  else Ok (mkCombustionVehicle_part (engineSize c) consumption (fuelType c)).

(** [CombustionVehicle::setFuelType]. *)
Definition setFuelType (type : FuelType) (c : CombustionVehicle_part)
    : result CombustionVehicle_part :=
  if negb ((type =? FuelType_Gasoline) || (type =? FuelType_Diesel)) then
    Throw (invalid_argument "Invalid fuel type.")
  else Ok (mkCombustionVehicle_part (engineSize c) (fuelConsumption c) type).

(** [ElectricVehicle::setBatteryCapacity]: the new value of the member. *)
Definition setBatteryCapacity (capacity : float) : result float :=
  if PrimFloat.leb capacity 0 then
    Throw (invalid_argument "Battery capacity must be positive.")
  else Ok capacity.

(** [CombustionCar::setDoors] and [ElectricCar::setDoors]. *)
Definition setDoors (num : Z) : result Z :=
  if num <=? 0 then Throw (invalid_argument "Doors must be positive.")
  else Ok num.

(** [Truck::setCargoCapacity]. *)
Definition setCargoCapacity (capacity : Z) : result Z :=
  if capacity <=? 0 then Throw (invalid_argument "Cargo capacity must be positive.")
  else Ok capacity.

(** A call of a setter, with its argument. *)
Inductive setter : Type :=
| call_setMileage (newMileage : float)
| call_setBaseCost (newCost : float)
| call_setEngineSize (size : Z)
| call_setFuelConsumption (consumption : float)
| call_setFuelType (type : FuelType)
| call_setBatteryCapacity (capacity : float)
| call_setDoors (num : Z)
| call_setCargoCapacity (capacity : Z).

(** The setter called on an object by its class: [None] where the class of
    the object does not have the member function. *)
Definition apply_setter (s : setter) (v : Vehicle) : option (result Vehicle) :=
  match s, v with
  | call_setMileage newMileage, _ => Some (setMileage newMileage v)
  | call_setBaseCost newCost, _ => Some (setBaseCost newCost v)
  | call_setEngineSize size, CombustionCar b c doors =>
      Some (c' <- setEngineSize size c ;; Ok (CombustionCar b c' doors))
  | call_setEngineSize size, Truck b c cargo =>
      Some (c' <- setEngineSize size c ;; Ok (Truck b c' cargo))
  | call_setEngineSize size, Motorcycle b c =>
      Some (c' <- setEngineSize size c ;; Ok (Motorcycle b c'))
  | call_setFuelConsumption consumption, CombustionCar b c doors =>
      Some (c' <- setFuelConsumption consumption c ;; Ok (CombustionCar b c' doors))
  | call_setFuelConsumption consumption, Truck b c cargo =>
      Some (c' <- setFuelConsumption consumption c ;; Ok (Truck b c' cargo))
  | call_setFuelConsumption consumption, Motorcycle b c =>
      Some (c' <- setFuelConsumption consumption c ;; Ok (Motorcycle b c'))
  | call_setFuelType type, CombustionCar b c doors =>
      Some (c' <- setFuelType type c ;; Ok (CombustionCar b c' doors))
  | call_setFuelType type, Truck b c cargo =>
      Some (c' <- setFuelType type c ;; Ok (Truck b c' cargo))
  | call_setFuelType type, Motorcycle b c =>
      Some (c' <- setFuelType type c ;; Ok (Motorcycle b c'))
  | call_setBatteryCapacity capacity, ElectricCar b _ doors =>
      Some (battery <- setBatteryCapacity capacity ;; Ok (ElectricCar b battery doors))
  | call_setDoors num, CombustionCar b c _ =>
      Some (doors <- setDoors num ;; Ok (CombustionCar b c doors))
  | call_setDoors num, ElectricCar b battery _ =>
      Some (doors <- setDoors num ;; Ok (ElectricCar b battery doors))
  | call_setCargoCapacity capacity, Truck b c _ =>
      Some (cargo <- setCargoCapacity capacity ;; Ok (Truck b c cargo))
  | _, _ => None
  end.

(** The getters of the derived classes, called on an object by its class:
    [None] where the class of the object does not have the member. *)
Definition combustion_part (v : Vehicle) : option CombustionVehicle_part :=
  match v with
  | CombustionCar _ c _ | Truck _ c _ | Motorcycle _ c => Some c
  | ElectricCar _ _ _ => None
  end.

Definition getEngineSize (v : Vehicle) : option Z :=
  option_map engineSize (combustion_part v).

Definition getFuelConsumption (v : Vehicle) : option float :=
  option_map fuelConsumption (combustion_part v).

Definition getFuelType (v : Vehicle) : option FuelType :=
  option_map fuelType (combustion_part v).

Definition getBatteryCapacity (v : Vehicle) : option float :=
  match v with
  | ElectricCar _ batteryCapacity _ => Some batteryCapacity
  | _ => None
  end.

Definition getDoors (v : Vehicle) : option Z :=
  match v with
  | CombustionCar _ _ doors | ElectricCar _ _ doors => Some doors
  | _ => None
  end.

Definition getCargoCapacity (v : Vehicle) : option Z :=
  match v with
  | Truck _ _ cargoCapacity => Some cargoCapacity
  | _ => None
  end.

(** ** [VehicleManager::showRentalHistory]

    The text the function writes to [std::cout]. *)

(** What is written for one entry, cut into [parts] at the [;]. *)
Definition history_entry_text (parts : list string) : string :=
  if (5 <=? List.length parts)%nat then
    "Vehicle: " ++ part parts 0 ++ nl
    ++ "Customer: " ++ part parts 1 ++ nl
    ++ "Period: " ++ part parts 2 ++ " - " ++ part parts 3 ++ nl
    ++ "Cost: " ++ part parts 4 ++ " zl" ++ nl
    ++ "-----------------" ++ nl
  else EmptyString.

Definition showRentalHistory (m : VehicleManager) : string :=
  if (List.length (rentalHistory m) =? 0)%nat then "No rental history." ++ nl
  else
    "=== Rental History ===" ++ nl
    ++ String.concat ""
         (map (fun entry => history_entry_text (split entry)) (rentalHistory m)).

(** * Auxiliary definitions of the further theorems *)

(** The registrations of the stored vehicles and the ids of the stored
    customers, in the order of the stores. *)
Definition registrations (m : VehicleManager) : list string :=
  map (fun pv => getRegNumber (snd pv)) (vehicles m).

Definition customer_ids (m : VehicleManager) : list string :=
  map (fun pc => getId (snd pc)) (customers m).

Section Edited.

Context {DT : DoubleText}.

(** The managers the public member functions other than [loadFromFile]
    produce from a new one. *)
Inductive edited : VehicleManager -> Prop :=
| edited_new : edited VehicleManager_new
| edited_call (c : call) (m m' : VehicleManager) :
    edited m -> call_ok c -> (forall file, c <> call_loadFromFile file) ->
    leaves c m m' -> edited m'.

End Edited.

(** The date [b] is the day after the date [a] in the Gregorian calendar:
    the next day of the month, or the first of the next month after the last
    day of a month, or the first of January after the 31st of December. *)
Definition day_after (a b : string) : Prop :=
  (date_year b = date_year a /\ date_month b = date_month a
   /\ date_day b = date_day a + 1)
  \/ (date_year b = date_year a /\ date_month b = date_month a + 1
      /\ date_day b = 1 /\ date_day a = days_in_month (date_month a) (date_year a))
  \/ (date_year b = date_year a + 1 /\ date_month b = 1 /\ date_day b = 1
      /\ date_month a = 12 /\ date_day a = 31).

(** No text the history line is made of holds a [;]. *)
Definition vehicle_text_plain (v : Vehicle) : Prop :=
  lacks ";" (getBrand v) = true /\ lacks ";" (getModel v) = true
  /\ lacks ";" (getRegNumber v) = true.

Definition customer_text_plain (c : Customer) : Prop :=
  lacks ";" (getName c) = true /\ lacks ";" (getId c) = true.

(** A motorcycle and a customer the demonstration fleet does not hold. *)
Definition demo_bike : Vehicle :=
  Motorcycle
    (mkVehicle_base "PO5555" "Honda" "CBR" 1000 80 LicenceCategory_A)
    (mkCombustionVehicle_part 600 5.5 FuelType_Gasoline).

Definition demo_guest : Customer :=
  PrivateCustomer (Customer.mk_base "XYZ000111" "Anna Nowak" "Gdansk, Dluga 3")
    "XYZ000111".


(** * The data file, as the specification describes it

    Four sections in a fixed order, for the vehicles, the customers, the
    active rentals and the history; each is the number of its lines, then
    the lines. *)



Section Rebuild.

Context {DT : DoubleText}.


(** The replay of one rental line: [rentVehicle] on its first four fields.
    The line is skipped when it has fewer, or when [rentVehicle] refuses
    the rental. *)
Definition replay_rental (m : VehicleManager) (line : string) : VehicleManager :=
  match split line with
  | reg :: cid :: start :: end_ :: _ =>
      match rentVehicle reg cid start end_ m with
      | Done _ m' => m'
      | _ => m
      end
  | _ => m
  end.


End Rebuild.




(** * Text and dates *)

(** ** Characters and [stoi] *)

Lemma char_code_range (c : ascii) : 0 <= char_code c < 256.
Proof.
  unfold char_code. pose proof (N_ascii_bounded c) as H. lia.
Qed.

Lemma isdigit_value (c : ascii) : isdigit c = true -> 0 <= digit_value c <= 9.
Proof. unfold isdigit, digit_value. lia. Qed.

Lemma isdigit_not_space (c : ascii) : isdigit c = true -> isspace c = false.
Proof. unfold isdigit, isspace. lia. Qed.

Lemma char_code_inj (c d : ascii) : char_code c = char_code d -> c = d.
Proof.
  unfold char_code. intros H. apply N2Z.inj in H.
  rewrite <- (ascii_N_embedding c), <- (ascii_N_embedding d). now rewrite H.
Qed.

Lemma eqb_char_code (c d : ascii) : Ascii.eqb c d = (char_code c =? char_code d).
Proof.
  destruct (Ascii.eqb_spec c d) as [->|N].
  - symmetry. apply Z.eqb_refl.
  - symmetry. apply Z.eqb_neq. intros E. apply N. now apply char_code_inj.
Qed.

Lemma isdigit_not_minus (c : ascii) : isdigit c = true -> Ascii.eqb c "-" = false.
Proof. rewrite eqb_char_code. unfold isdigit. change (char_code "-") with 45. lia. Qed.

Lemma isdigit_not_plus (c : ascii) : isdigit c = true -> Ascii.eqb c "+" = false.
Proof. rewrite eqb_char_code. unfold isdigit. change (char_code "+") with 43. lia. Qed.

Lemma read_digits_bounds (s : string) : forall acc,
  all_digits s = true -> 0 <= acc ->
  acc * 10 ^ Z.of_nat (String.length s) <= read_digits s acc
  < (acc + 1) * 10 ^ Z.of_nat (String.length s).
Proof.
  induction s as [|c r IH]; intros acc Hd Hacc.
  - cbn. lia.
  - cbn [all_digits] in Hd. apply andb_prop in Hd as [Hc Hr].
    cbn [read_digits String.length]. rewrite Hc.
    pose proof (isdigit_value c Hc) as Hv.
    specialize (IH (10 * acc + digit_value c) Hr ltac:(lia)).
    rewrite Nat2Z.inj_succ, Z.pow_succ_r by lia.
    assert (0 < 10 ^ Z.of_nat (String.length r)) by (apply Z.pow_pos_nonneg; lia).
    nia.
Qed.

Lemma stoi_all_digits (s : string) :
  all_digits s = true -> s <> EmptyString -> (String.length s <= 9)%nat ->
  stoi s = Ok (read_digits s 0).
Proof.
  intros Hd Hne Hlen. destruct s as [|c r]; [congruence|].
  pose proof (read_digits_bounds _ 0 Hd ltac:(lia)) as Hb.
  cbn [all_digits] in Hd. apply andb_prop in Hd as [Hc Hr].
  unfold stoi. cbn [skip_spaces]. rewrite (isdigit_not_space c Hc).
  rewrite (isdigit_not_minus c Hc), (isdigit_not_plus c Hc), Hc.
  assert (10 ^ Z.of_nat (String.length (String c r)) <= 10 ^ 9)
    by (apply Z.pow_le_mono_r; lia).
  replace ((INT_MIN <=? read_digits (String c r) 0) && (read_digits (String c r) 0 <=? INT_MAX))
    with true; [reflexivity|].
  symmetry. apply andb_true_intro. unfold INT_MIN, INT_MAX. split; lia.
Qed.

(** ** Date validation *)

Lemma isLeapYear_leap_year (y : Z) : 0 <= y -> isLeapYear y = leap_year y.
Proof.
  intros Hy. unfold isLeapYear, leap_year.
  now rewrite !Z.rem_mod_nonneg by lia.
Qed.

Lemma getDaysInMonth_days_in_month (m y : Z) :
  0 <= y -> getDaysInMonth m y = days_in_month m y.
Proof.
  intros Hy. unfold getDaysInMonth.
  destruct (Z.ltb_spec m 1) as [Hlo|Hlo]; cbn [orb].
  - destruct m as [|p|p]; try lia; reflexivity.
  - destruct (Z.gtb_spec m 12) as [Hhi|Hhi].
    + destruct m as [|p|p]; try lia.
      unfold days_in_month.
      do 4 (destruct p as [p|p|]; try lia; try reflexivity).
    + assert (m = 1 \/ m = 2 \/ m = 3 \/ m = 4 \/ m = 5 \/ m = 6 \/ m = 7 \/ m = 8
              \/ m = 9 \/ m = 10 \/ m = 11 \/ m = 12) as Hm by lia.
      rewrite (isLeapYear_leap_year y Hy).
      repeat (destruct Hm as [->|Hm]; [cbn; try reflexivity; destruct (leap_year y); reflexivity|]).
      subst m. reflexivity.
Qed.

Lemma isValidDate_ten (c0 c1 c2 c3 c4 c5 c6 c7 c8 c9 : ascii) :
  isValidDate
    (String c0 (String c1 (String c2 (String c3 (String c4 (String c5 (String c6
       (String c7 (String c8 (String c9 EmptyString))))))))))
  = Ok (Ascii.eqb c4 "-" && (Ascii.eqb c7 "-" &&
        (isdigit c0 && (isdigit c1 && (isdigit c2 && (isdigit c3 &&
        (isdigit c5 && (isdigit c6 && (isdigit c8 && (isdigit c9 &&
        ((1 <=? read_digits (str2 c5 c6) 0) && ((read_digits (str2 c5 c6) 0 <=? 12) &&
        ((1 <=? read_digits (str2 c8 c9) 0) &&
        (read_digits (str2 c8 c9) 0
         <=? days_in_month (read_digits (str2 c5 c6) 0)
               (read_digits (str4 c0 c1 c2 c3) 0))))))))))))))).
Proof.
  unfold isValidDate.
  cbn [String.length Nat.eqb negb at_ String.get].
  destruct (Ascii.eqb c4 "-"); cbn [negb orb andb]; [|reflexivity].
  destruct (Ascii.eqb c7 "-"); cbn [negb orb andb]; [|reflexivity].
  cbn [seq forallb Nat.eqb orb at_ String.get].
  destruct (isdigit c0) eqn:D0; cbn [negb orb andb]; [|reflexivity].
  destruct (isdigit c1) eqn:D1; cbn [negb orb andb]; [|reflexivity].
  destruct (isdigit c2) eqn:D2; cbn [negb orb andb]; [|reflexivity].
  destruct (isdigit c3) eqn:D3; cbn [negb orb andb]; [|reflexivity].
  destruct (isdigit c5) eqn:D5; cbn [negb orb andb]; [|reflexivity].
  destruct (isdigit c6) eqn:D6; cbn [negb orb andb]; [|reflexivity].
  destruct (isdigit c8) eqn:D8; cbn [negb orb andb]; [|reflexivity].
  destruct (isdigit c9) eqn:D9; cbn [negb orb andb]; [|reflexivity].
  unfold substr. cbn [String.length Nat.ltb Nat.leb String.substring bind].
  fold (str4 c0 c1 c2 c3) (str2 c5 c6) (str2 c8 c9).
  assert (H4 : all_digits (str4 c0 c1 c2 c3) = true)
    by (cbn; now rewrite D0, D1, D2, D3).
  assert (H56 : all_digits (str2 c5 c6) = true) by (cbn; now rewrite D5, D6).
  assert (H89 : all_digits (str2 c8 c9) = true) by (cbn; now rewrite D8, D9).
  rewrite (stoi_all_digits (str4 c0 c1 c2 c3)), (stoi_all_digits (str2 c5 c6)),
    (stoi_all_digits (str2 c8 c9)); try assumption; try discriminate; try (cbn; lia).
  cbn [bind].
  pose proof (read_digits_bounds _ 0 H4 ltac:(lia)) as B4.
  rewrite (getDaysInMonth_days_in_month _ _ (proj1 ltac:(cbn in B4; exact B4))).
  cbv zeta.
  set (month := read_digits (str2 c5 c6) 0).
  set (day := read_digits (str2 c8 c9) 0).
  set (dim := days_in_month month _).
  destruct (Z.ltb_spec month 1), (Z.gtb_spec month 12), (Z.ltb_spec day 1),
    (Z.gtb_spec day dim), (Z.leb_spec 1 month), (Z.leb_spec month 12),
    (Z.leb_spec 1 day), (Z.leb_spec day dim); cbn [orb andb]; try reflexivity; lia.
Qed.

Lemma isdigit_digit_char (c : ascii) : isdigit c = true <-> digit_char c.
Proof.
  split.
  - intros H. unfold isdigit in H.
    assert (char_code c = 48 \/ char_code c = 49 \/ char_code c = 50
            \/ char_code c = 51 \/ char_code c = 52 \/ char_code c = 53
            \/ char_code c = 54 \/ char_code c = 55 \/ char_code c = 56
            \/ char_code c = 57) as Hc by lia.
    unfold digit_char, char_code in *.
    rewrite <- (ascii_N_embedding c).
    repeat (destruct Hc as [Hc|Hc];
            [apply (f_equal Z.to_N) in Hc; rewrite N2Z.id in Hc; rewrite Hc;
             cbn; tauto|]).
    apply (f_equal Z.to_N) in Hc; rewrite N2Z.id in Hc; rewrite Hc; cbn; tauto.
  - unfold digit_char. cbn [In]. intros H.
    repeat (destruct H as [<-|H]; [reflexivity|]). contradiction.
Qed.

Lemma read_digits_str2 (a b : ascii) :
  isdigit a = true -> isdigit b = true -> read_digits (str2 a b) 0 = decimal [a; b].
Proof.
  intros Ha Hb. unfold str2, decimal. cbn [read_digits fold_left].
  rewrite Ha, Hb. reflexivity.
Qed.

Lemma read_digits_str4 (a b c d : ascii) :
  isdigit a = true -> isdigit b = true -> isdigit c = true -> isdigit d = true ->
  read_digits (str4 a b c d) 0 = decimal [a; b; c; d].
Proof.
  intros Ha Hb Hc Hd. unfold str4, decimal. cbn [read_digits fold_left].
  rewrite Ha, Hb, Hc, Hd. reflexivity.
Qed.

Lemma Ok_inj {A : Type} (a b : A) : Ok a = Ok b -> a = b.
Proof. congruence. Qed.

Lemma isValidDate_total (s : string) :
  isValidDate s = Ok true \/ isValidDate s = Ok false.
Proof.
  do 10 (destruct s as [|? s]; [right; reflexivity|]).
  destruct s as [|? s]; [|right; reflexivity].
  rewrite isValidDate_ten.
  match goal with |- Ok ?b = _ \/ _ => destruct b end; auto.
Qed.

Lemma isValidDate_valid_date (s : string) :
  isValidDate s = Ok true <-> valid_date s.
Proof.
  split.
  - intros H.
    do 10 (destruct s as [|? s]; [discriminate H|]).
    destruct s as [|? s]; [|discriminate H].
    rewrite isValidDate_ten in H. apply Ok_inj in H.
    do 10 (apply andb_prop in H as [? H]).
    rewrite !read_digits_str2, !read_digits_str4 in H by assumption.
    repeat (apply andb_prop in H as [? H]).
    match goal with
    | D4 : Ascii.eqb ?c4 "-" = true, D7 : Ascii.eqb ?c7 "-" = true |- _ =>
        apply Ascii.eqb_eq in D4, D7; subst c4 c7
    end.
    repeat match goal with
           | D : isdigit _ = true |- _ => apply isdigit_digit_char in D
           end.
    do 8 eexists. split; [reflexivity|].
    split; [repeat (apply Forall_cons; [assumption|]); apply Forall_nil|].
    lia.
  - intros (y1 & y2 & y3 & y4 & m1 & m2 & d1 & d2 & -> & Hd & Hm & Hday).
    repeat match goal with
           | H : Forall _ (_ :: _) |- _ => inversion H; subst; clear H
           end.
    repeat match goal with
           | D : digit_char _ |- _ => apply isdigit_digit_char in D
           end.
    cbn [string_of_list_ascii]. rewrite isValidDate_ten.
    rewrite !Ascii.eqb_refl.
    rewrite read_digits_str2, read_digits_str2, read_digits_str4 by assumption.
    repeat match goal with D : isdigit _ = true |- _ => rewrite D; clear D end.
    cbn [andb]. f_equal.
    repeat (apply andb_true_intro; split); lia.
Qed.

(** * Costs, dates and rentals *)

(** ** Rental cost per vehicle class *)

(** C1. For every vehicle and every [int] days: with [days <= 0] a
    CombustionCar and a Motorcycle throw while an ElectricCar and a Truck
    return 0; with [days > 0] the cost is [baseCost * days], and for a Truck
    [baseCost * days + cargoCapacity * 0.1 * days]. A Truck of base cost 100
    and cargo capacity 50 costs 210 for 2 days, a CombustionCar of base cost
    100 costs 300 for 3 days and throws for 0 days, an ElectricCar costs 0
    for 0 days. *)
Theorem calculateRentCost_cases :
  (forall (v : Vehicle) (days : Z),
      calculateRentCost v days =
      if days <=? 0 then
        match v with
        | CombustionCar _ _ _ | Motorcycle _ _ =>
            Throw (invalid_argument "Rental duration must be positive.")
        | ElectricCar _ _ _ | Truck _ _ _ => Ok 0%float
        end
      else
        match v with
        | Truck _ _ cargoCapacity =>
            Ok ((getBaseCost v * double_of_int days)
                + (double_of_int cargoCapacity * one_tenth * double_of_int days))%float
        | _ => Ok (getBaseCost v * double_of_int days)%float
        end)
  /\ (forall reg brand model miles cat comb,
         calculateRentCost
           (Truck (mkVehicle_base reg brand model miles 100 cat) comb 50) 2
         = Ok 210%float)
  /\ (forall reg brand model miles cat comb doors,
         calculateRentCost
           (CombustionCar (mkVehicle_base reg brand model miles 100 cat) comb doors) 3
         = Ok 300%float
         /\ calculateRentCost
              (CombustionCar (mkVehicle_base reg brand model miles 100 cat) comb doors) 0
            = Throw (invalid_argument "Rental duration must be positive."))
  /\ (forall base battery doors,
         calculateRentCost (ElectricCar base battery doors) 0 = Ok 0%float).
Proof.
  split; [| split; [| split]].
  - intros v days. destruct v; cbn [calculateRentCost getBaseCost vehicle_base];
      destruct (days <=? 0); reflexivity.
  - intros. reflexivity.
  - intros. split; reflexivity.
  - intros. reflexivity.
Qed.

(** C5. Date validation accepts a string exactly when it has the shape
    [DDDD-DD-DD], its month is in 1..12 and its day is in
    1..[days_in_month] of that month and year under the Gregorian rule; it
    always answers. "2024-02-29" is valid; "2023-02-29", "2024-13-01" and
    "2024-02-30" are not. *)
Theorem isValidDate_correct :
  (forall s : string,
      (isValidDate s = Ok true <-> valid_date s)
      /\ (isValidDate s = Ok true \/ isValidDate s = Ok false))
  /\ isValidDate "2024-02-29" = Ok true
  /\ isValidDate "2023-02-29" = Ok false
  /\ isValidDate "2024-13-01" = Ok false
  /\ isValidDate "2024-02-30" = Ok false.
Proof.
  split.
  - intros s. split.
    + apply isValidDate_valid_date.
    + apply isValidDate_total.
  - repeat split; reflexivity.
Qed.

(** ** The day counter *)

Lemma fold_left_sum_1_to (g f : Z -> Z) (n : nat) (acc : Z) :
  (forall i, 1 <= i <= Z.of_nat n -> g i = f i) ->
  fold_left (fun total i => total + g i)
    (map (fun k => 1 + Z.of_nat k) (seq 0 n)) acc
  = acc + sum_1_to n f.
Proof.
  induction n as [|n IH]; intros Hgf.
  - cbn. lia.
  - rewrite seq_S, map_app, fold_left_app.
    rewrite IH by (intros i Hi; apply Hgf; lia).
    cbn [seq map fold_left sum_1_to Nat.add].
    rewrite Hgf by lia. rewrite <- Z.add_assoc. f_equal. f_equal. f_equal. lia.
Qed.

Lemma sum_1_to_nonneg (f : Z -> Z) (n : nat) :
  (forall i, 1 <= i <= Z.of_nat n -> 0 <= f i) -> 0 <= sum_1_to n f.
Proof.
  induction n as [|n IH]; intros Hf; cbn [sum_1_to]; [lia|].
  specialize (IH ltac:(intros; apply Hf; lia)).
  specialize (Hf (Z.of_nat (S n)) ltac:(lia)). lia.
Qed.

Lemma valid_date_fields (y1 y2 y3 y4 m1 m2 d1 d2 : ascii) :
  let s := string_of_list_ascii [y1; y2; y3; y4; "-"; m1; m2; "-"; d1; d2]%char in
  date_year s = decimal [y1; y2; y3; y4]
  /\ date_month s = decimal [m1; m2] /\ date_day s = decimal [d1; d2].
Proof.
  cbv zeta. unfold date_year, date_month, date_day.
  rewrite list_ascii_of_string_of_list_ascii. repeat split.
Qed.

Lemma decimal_bounds4 (a b c d : ascii) :
  Forall digit_char [a; b; c; d] -> 0 <= decimal [a; b; c; d] <= 9999.
Proof.
  intros H.
  repeat match goal with
         | H : Forall _ (_ :: _) |- _ => inversion H; subst; clear H
         end.
  repeat match goal with
         | D : digit_char _ |- _ => apply isdigit_digit_char, isdigit_value in D
         end.
  unfold decimal, digit_value in *. cbn [fold_left].
  change (char_code "0") with 48. lia.
Qed.

Lemma countTotalDays_valid (s : string) :
  valid_date s -> countTotalDays s = Ok (counted_days s).
Proof.
  intros (y1 & y2 & y3 & y4 & m1 & m2 & d1 & d2 & -> & Hd & Hm & Hday).
  unfold counted_days.
  destruct (valid_date_fields y1 y2 y3 y4 m1 m2 d1 d2) as (-> & -> & ->).
  assert (Hy : 0 <= decimal [y1; y2; y3; y4] <= 9999).
  { apply decimal_bounds4.
    repeat match goal with
           | H : Forall _ (_ :: _) |- _ => inversion H; subst; clear H
           end.
    repeat (apply Forall_cons; [assumption|]). apply Forall_nil. }
  repeat match goal with
         | H : Forall _ (_ :: _) |- _ => inversion H; subst; clear H
         end.
  repeat match goal with
         | D : digit_char _ |- _ => apply isdigit_digit_char in D
         end.
  unfold countTotalDays, substr.
  cbn [string_of_list_ascii String.length Nat.ltb Nat.leb String.substring bind].
  fold (str4 y1 y2 y3 y4) (str2 m1 m2) (str2 d1 d2).
  rewrite (stoi_all_digits (str4 y1 y2 y3 y4)), (stoi_all_digits (str2 m1 m2)),
    (stoi_all_digits (str2 d1 d2));
    try discriminate; try (cbn [String.length str2 str4]; lia);
    try (cbn [all_digits str2 str4];
         repeat match goal with D : isdigit _ = true |- _ => rewrite D; clear D end;
         reflexivity).
  cbn [bind].
  rewrite read_digits_str2, read_digits_str2, read_digits_str4 by assumption.
  f_equal. unfold int_range.
  rewrite (fold_left_sum_1_to (fun i => if isLeapYear i then 366 else 365) year_length),
    (fold_left_sum_1_to _ (fun j => days_in_month j (decimal [y1; y2; y3; y4]))).
  - lia.
  - intros i Hi. apply getDaysInMonth_days_in_month. lia.
  - intros i Hi. unfold year_length. rewrite isLeapYear_leap_year by lia. reflexivity.
Qed.

(** ** Construction of a rental and its duration *)

Lemma Rental_ctor_Ok (v c : option ptr) (start end_ : string) (r : Rental) :
  Rental_ctor v c start end_ = Ok r ->
  (exists pv pc, v = Some pv /\ c = Some pc)
  /\ valid_date start /\ valid_date end_ /\ String.leb end_ start = false
  /\ r = mkRental v c start end_.
Proof.
  unfold Rental_ctor. intros H.
  destruct v as [pv|]; [|discriminate H].
  destruct c as [pc|]; [|discriminate H].
  destruct (isValidDate_total start) as [Hs|Hs]; rewrite Hs in H;
    cbn [bind negb] in H; [|discriminate H].
  destruct (isValidDate_total end_) as [He|He]; rewrite He in H;
    cbn [bind negb] in H; [|discriminate H].
  destruct (String.leb end_ start) eqn:Hle; [discriminate H|].
  apply Ok_inj in H. subst r.
  apply isValidDate_valid_date in Hs, He.
  repeat split; eauto.
Qed.

Lemma Rental_ctor_rejects (v c : option ptr) (start end_ : string) :
  String.leb end_ start = true -> exists e, Rental_ctor v c start end_ = Throw e.
Proof.
  intros Hle. unfold Rental_ctor.
  destruct v as [pv|]; [|eauto].
  destruct c as [pc|]; [|eauto].
  destruct (isValidDate_total start) as [Hs|Hs]; rewrite Hs;
    cbn [bind negb]; [|eauto].
  destruct (isValidDate_total end_) as [He|He]; rewrite He;
    cbn [bind negb]; [|eauto].
  rewrite Hle. eauto.
Qed.

Lemma valid_date_not_empty (s : string) : valid_date s -> empty s = false.
Proof.
  intros (y1 & y2 & y3 & y4 & m1 & m2 & d1 & d2 & -> & _). reflexivity.
Qed.

Lemma getRentalDays_valid (r : Rental) :
  valid_date (startDate r) -> valid_date (endDate r) ->
  getRentalDays r
  = Ok (Z.max 1 (counted_days (endDate r) - counted_days (startDate r))).
Proof.
  intros Hs He. unfold getRentalDays.
  rewrite (valid_date_not_empty _ Hs), (valid_date_not_empty _ He).
  cbn [orb]. rewrite (countTotalDays_valid _ Hs), (countTotalDays_valid _ He).
  cbn [bind]. f_equal.
  destruct (Z.ltb_spec (counted_days (endDate r) - counted_days (startDate r)) 1);
    lia.
Qed.

(** ** The order of dates *)

Lemma ascii_compare_char_code (c d : ascii) :
  Ascii.compare c d = (char_code c ?= char_code d).
Proof. unfold Ascii.compare, char_code. now rewrite N2Z.inj_compare. Qed.

Lemma digit_char_value (c : ascii) : digit_char c -> 0 <= char_code c - 48 <= 9.
Proof. intros H. apply isdigit_digit_char, isdigit_value in H. exact H. Qed.

Lemma compare_valid_dates (a b : string) :
  valid_date a -> valid_date b ->
  String.compare a b
  = compare_ymd (date_year a) (date_month a) (date_day a)
      (date_year b) (date_month b) (date_day b).
Proof.
  intros (y1 & y2 & y3 & y4 & m1 & m2 & d1 & d2 & -> & Hd & _)
         (z1 & z2 & z3 & z4 & n1 & n2 & e1 & e2 & -> & He & _).
  destruct (valid_date_fields y1 y2 y3 y4 m1 m2 d1 d2) as (-> & -> & ->).
  destruct (valid_date_fields z1 z2 z3 z4 n1 n2 e1 e2) as (-> & -> & ->).
  repeat match goal with
         | H : Forall _ (_ :: _) |- _ => inversion H; subst; clear H
         end.
  repeat match goal with
         | D : digit_char _ |- _ => apply digit_char_value in D
         end.
  cbn [string_of_list_ascii String.compare].
  rewrite !ascii_compare_char_code.
  change (char_code "-" ?= char_code "-") with Eq. cbv iota.
  unfold compare_ymd, decimal. cbn [fold_left].
  change (char_code "0") with 48.
  repeat match goal with
         | |- context [char_code ?c ?= char_code ?d] =>
             destruct (Z.compare_spec (char_code c) (char_code d))
         end;
    repeat match goal with
           | |- context [?x ?= ?y] => destruct (Z.compare_spec x y)
           end; try reflexivity; lia.
Qed.

(** ** The day counter and the order of dates *)

Lemma sum_1_to_le (f : Z -> Z) (n n' : nat) :
  (forall i, 1 <= i -> 0 <= f i) -> (n <= n')%nat -> sum_1_to n f <= sum_1_to n' f.
Proof.
  intros Hf Hn. induction Hn as [|k Hk IH]; [lia|].
  cbn [sum_1_to]. specialize (Hf (Z.of_nat (S k)) ltac:(lia)). lia.
Qed.

Lemma year_length_pos (y : Z) : 365 <= year_length y <= 366.
Proof. unfold year_length. destruct (leap_year y); lia. Qed.

Lemma days_in_month_nonneg (m y : Z) : 0 <= days_in_month m y.
Proof.
  unfold days_in_month.
  destruct m as [|p|p]; try lia.
  repeat (destruct p as [p|p|]; try lia).
  destruct (leap_year y); lia.
Qed.

Lemma sum_months_of_year (y : Z) :
  sum_1_to 12 (fun j => days_in_month j y) = year_length y.
Proof.
  unfold year_length. cbn. destruct (leap_year y); reflexivity.
Qed.

Lemma days_before_month_succ (m y : Z) :
  1 <= m -> days_before_month (m + 1) y = days_before_month m y + days_in_month m y.
Proof.
  intros Hm. unfold days_before_month.
  replace (Z.to_nat (m + 1 - 1)) with (S (Z.to_nat (m - 1))) by lia.
  cbn [sum_1_to]. do 2 f_equal. lia.
Qed.

Lemma days_before_month_le (m m' y : Z) :
  m <= m' -> days_before_month m y <= days_before_month m' y.
Proof.
  intros H. unfold days_before_month. apply sum_1_to_le.
  - intros. apply days_in_month_nonneg.
  - lia.
Qed.

Lemma days_before_year_succ (y : Z) :
  1 <= y -> days_before_year (y + 1) = days_before_year y + year_length y.
Proof.
  intros Hy. unfold days_before_year.
  replace (Z.to_nat (y + 1 - 1)) with (S (Z.to_nat (y - 1))) by lia.
  cbn [sum_1_to]. do 2 f_equal. lia.
Qed.

Lemma days_before_year_le (y y' : Z) :
  y <= y' -> days_before_year y <= days_before_year y'.
Proof.
  intros H. unfold days_before_year. apply sum_1_to_le.
  - intros. pose proof (year_length_pos i). lia.
  - lia.
Qed.

(** Within a year, the day of the year is at most the year's length. *)
Lemma day_of_year_le (y m d : Z) :
  1 <= m <= 12 -> d <= days_in_month m y ->
  days_before_month m y + d <= year_length y.
Proof.
  intros Hm Hd.
  rewrite <- sum_months_of_year.
  change (sum_1_to 12 (fun j => days_in_month j y)) with (days_before_month 13 y).
  pose proof (days_before_month_succ m y ltac:(lia)).
  pose proof (days_before_month_le (m + 1) 13 y ltac:(lia)). lia.
Qed.

Lemma day_number_lt (y m d y' m' d' : Z) :
  1 <= y -> 1 <= m <= 12 -> 1 <= m' <= 12 ->
  1 <= d <= days_in_month m y -> 1 <= d' <= days_in_month m' y' ->
  compare_ymd y m d y' m' d' = Lt -> day_number y m d < day_number y' m' d'.
Proof.
  intros Hy Hm Hm' Hd Hd' Hlt. unfold compare_ymd in Hlt. unfold day_number.
  destruct (Z.compare_spec y y') as [->|Hyy|Hyy]; [|clear Hlt|discriminate Hlt].
  - destruct (Z.compare_spec m m') as [->|Hmm|Hmm]; [|clear Hlt|discriminate Hlt].
    + change (d < d') in Hlt. lia.
    + pose proof (days_before_month_succ m y' ltac:(lia)).
      pose proof (days_before_month_le (m + 1) m' y' ltac:(lia)). lia.
  - pose proof (day_of_year_le y m d Hm ltac:(lia)).
    pose proof (days_before_year_succ y Hy).
    pose proof (days_before_year_le (y + 1) y' ltac:(lia)).
    pose proof (days_before_month_le 1 m' y' ltac:(lia)) as Hb.
    change (days_before_month 1 y') with 0 in Hb. lia.
Qed.

Lemma compare_ymd_antisym (y m d y' m' d' : Z) :
  compare_ymd y' m' d' y m d = CompOpp (compare_ymd y m d y' m' d').
Proof.
  unfold compare_ymd.
  rewrite (Z.compare_antisym y y'), (Z.compare_antisym m m'), (Z.compare_antisym d d').
  destruct (y ?= y'), (m ?= m'), (d ?= d'); reflexivity.
Qed.

Lemma compare_ymd_eq (y m d y' m' d' : Z) :
  compare_ymd y m d y' m' d' = Eq -> y = y' /\ m = m' /\ d = d'.
Proof.
  unfold compare_ymd.
  destruct (Z.compare_spec y y'); try discriminate.
  destruct (Z.compare_spec m m'); try discriminate.
  destruct (Z.compare_spec d d'); try discriminate. auto.
Qed.

Lemma valid_date_ranges (s : string) :
  valid_date s ->
  0 <= date_year s <= 9999 /\ 1 <= date_month s <= 12
  /\ 1 <= date_day s <= days_in_month (date_month s) (date_year s).
Proof.
  intros (y1 & y2 & y3 & y4 & m1 & m2 & d1 & d2 & -> & Hd & Hm & Hday).
  destruct (valid_date_fields y1 y2 y3 y4 m1 m2 d1 d2) as (-> & -> & ->).
  split; [|auto]. apply decimal_bounds4.
  repeat match goal with
         | H : Forall _ (_ :: _) |- _ => inversion H; subst; clear H
         end.
  repeat (apply Forall_cons; [assumption|]). apply Forall_nil.
Qed.

Lemma counted_days_day_number (s : string) :
  counted_days s = day_number (date_year s) (date_month s) (date_day s).
Proof. reflexivity. Qed.

(** For two calendar-valid dates of the years 0001 and later:
    [countTotalDays] returns for both, the order of the strings is the
    order of the two counters, and a rental constructed from the first to
    the second lasts exactly the difference of the counters, which is at
    least 1 (the clamp of [getRentalDays] does not decide). *)
Theorem date_order_from_year_1 (a b : string) :
  valid_date a -> valid_date b -> 1 <= date_year a -> 1 <= date_year b ->
  exists na nb : Z,
    countTotalDays a = Ok na /\ countTotalDays b = Ok nb
    /\ (String.ltb a b = true <-> na < nb)
    /\ (forall (v c : option ptr) (r : Rental),
           Rental_ctor v c a b = Ok r ->
           getRentalDays r = Ok (nb - na) /\ 1 <= nb - na).
Proof.
  intros Ha Hb Hya Hyb.
  pose proof (valid_date_ranges a Ha) as (_ & Hma & Hda).
  pose proof (valid_date_ranges b Hb) as (_ & Hmb & Hdb).
  exists (counted_days a), (counted_days b).
  split; [now apply countTotalDays_valid|].
  split; [now apply countTotalDays_valid|].
  assert (Horder : String.ltb a b = true <-> counted_days a < counted_days b).
  { unfold String.ltb.
    rewrite (compare_valid_dates a b Ha Hb), !counted_days_day_number.
    destruct (compare_ymd (date_year a) (date_month a) (date_day a)
                (date_year b) (date_month b) (date_day b)) eqn:Hc.
    - apply compare_ymd_eq in Hc as (-> & -> & ->). split; [discriminate|lia].
    - split; [intros _|reflexivity]. now apply day_number_lt.
    - split; [discriminate|]. intros Hlt. exfalso.
      assert (Hc' : compare_ymd (date_year b) (date_month b) (date_day b)
                      (date_year a) (date_month a) (date_day a) = Lt)
        by (rewrite compare_ymd_antisym, Hc; reflexivity).
      pose proof (day_number_lt _ _ _ _ _ _ Hyb Hmb Hma Hdb Hda Hc'). lia. }
  split; [exact Horder|].
  intros v c r Hr. apply Rental_ctor_Ok in Hr as (_ & _ & _ & Hle & ->).
  assert (Hlt : counted_days a < counted_days b).
  { apply Horder. unfold String.leb in Hle. unfold String.ltb.
    rewrite (compare_valid_dates b a Hb Ha) in Hle.
    rewrite (compare_valid_dates a b Ha Hb), compare_ymd_antisym.
    destruct (compare_ymd (date_year b) (date_month b) (date_day b)
                (date_year a) (date_month a) (date_day a));
      [discriminate|discriminate|reflexivity]. }
  split; [|lia].
  rewrite (getRentalDays_valid (mkRental v c a b) Ha Hb).
  cbn [startDate endDate]. f_equal. lia.
Qed.

Lemma date_order_from_year_1_witness :
  valid_date "2023-12-31" /\ valid_date "2024-03-01"
  /\ exists na nb : Z,
      countTotalDays "2023-12-31" = Ok na /\ countTotalDays "2024-03-01" = Ok nb
      /\ (String.ltb "2023-12-31" "2024-03-01" = true <-> na < nb)
      /\ (forall (v c : option ptr) (r : Rental),
             Rental_ctor v c "2023-12-31" "2024-03-01" = Ok r ->
             getRentalDays r = Ok (nb - na) /\ 1 <= nb - na).
Proof.
  assert (Ha : valid_date "2023-12-31")
    by (apply isValidDate_valid_date; reflexivity).
  assert (Hb : valid_date "2024-03-01")
    by (apply isValidDate_valid_date; reflexivity).
  split; [exact Ha|]. split; [exact Hb|].
  apply (date_order_from_year_1 "2023-12-31" "2024-03-01" Ha Hb);
    vm_compute; discriminate.
Defined.

(** ** The day counter of the specification *)

Lemma sum_below_S (f : Z -> Z) (n : nat) :
  sum_below (S n) f = f 0 + sum_1_to n f.
Proof.
  induction n as [|n IH]; [cbn; lia|].
  change (sum_below (S (S n)) f) with (sum_below (S n) f + f (Z.of_nat (S n))).
  rewrite IH. cbn [sum_1_to]. lia.
Qed.

(** The counter of the specification is that of the loops, and 366 more
    from the year 0001 on: the loop over the years leaves out the year
    0000. *)
Lemma daysSinceEpoch_counted (s : string) :
  0 <= date_year s ->
  daysSinceEpoch s = counted_days s + (if date_year s =? 0 then 0 else 366).
Proof.
  intros Hy. unfold daysSinceEpoch, counted_days.
  destruct (Z.eqb_spec (date_year s) 0) as [->|Hne]; [cbn; lia|].
  replace (Z.to_nat (date_year s)) with (S (Z.to_nat (date_year s - 1))) by lia.
  rewrite sum_below_S. change (year_length 0) with 366. lia.
Qed.

Lemma valid_dates_years (a b : string) :
  valid_date a -> valid_date b -> String.leb b a = false ->
  date_year a <= date_year b.
Proof.
  intros Ha Hb Hle. unfold String.leb in Hle.
  rewrite (compare_valid_dates b a Hb Ha) in Hle. unfold compare_ymd in Hle.
  destruct (Z.compare_spec (date_year b) (date_year a)) as [E|E|E];
    [lia|discriminate Hle|lia].
Qed.

(** The constructor rejects an end date that is not after the start date.
    The duration of a constructed rental is the larger of 1 and the
    difference of the specification's day counters, unless the rental
    starts in the year 0000 and ends in a later year: then the 366 days of
    the year 0000 are missing from the difference. From "2024-01-01" to
    "2024-01-02" it is 1. *)
Theorem rental_duration_from_year_1 :
  (forall (v c : option ptr) (start end_ : string),
      String.leb end_ start = true ->
      exists e, Rental_ctor v c start end_ = Throw e)
  /\ (forall (v c : option ptr) (start end_ : string) (r : Rental),
         Rental_ctor v c start end_ = Ok r ->
         getRentalDays r
         = Ok (Z.max 1
                 (daysSinceEpoch end_ - daysSinceEpoch start
                  - (if (date_year start =? 0) && (0 <? date_year end_)
                     then 366 else 0)))
         /\ (1 <= date_year start \/ date_year end_ = 0 ->
             getRentalDays r
             = Ok (Z.max 1 (daysSinceEpoch end_ - daysSinceEpoch start))))
  /\ (forall pv pc : ptr,
         exists r,
           Rental_ctor (Some pv) (Some pc) "2024-01-01" "2024-01-02" = Ok r
           /\ getRentalDays r = Ok 1).
Proof.
  split; [|split].
  - apply Rental_ctor_rejects.
  - intros v c start end_ r H.
    apply Rental_ctor_Ok in H as (_ & Hs & He & Hle & ->).
    pose proof (valid_dates_years start end_ Hs He Hle) as Hyears.
    pose proof (valid_date_ranges start Hs) as ((Hys & _) & _).
    pose proof (valid_date_ranges end_ He) as ((Hye & _) & _).
    rewrite (getRentalDays_valid (mkRental v c start end_) Hs He).
    cbn [startDate endDate].
    rewrite (daysSinceEpoch_counted start Hys), (daysSinceEpoch_counted end_ Hye).
    destruct (Z.eqb_spec (date_year start) 0) as [Es|Es];
      destruct (Z.eqb_spec (date_year end_) 0) as [Ee|Ee];
      destruct (Z.ltb_spec 0 (date_year end_)); cbn [andb]; try lia;
      (split; [f_equal; lia|intros [Hy|Hy]; try lia; f_equal; lia]).
  - intros pv pc. eexists. split; reflexivity.
Qed.

Lemma rental_duration_from_year_1_witness :
  String.leb "2024-03-10" "2024-03-10" = true
  /\ (exists e, Rental_ctor (Some 1%nat) (Some 1%nat) "2024-03-10" "2024-03-10" = Throw e)
  /\ Rental_ctor (Some 1%nat) (Some 1%nat) "2024-02-27" "2024-03-02"
     = Ok (mkRental (Some 1%nat) (Some 1%nat) "2024-02-27" "2024-03-02")
  /\ 1 <= date_year "2024-02-27"
  /\ getRentalDays (mkRental (Some 1%nat) (Some 1%nat) "2024-02-27" "2024-03-02")
     = Ok (Z.max 1 (daysSinceEpoch "2024-03-02" - daysSinceEpoch "2024-02-27"))
  /\ Z.max 1 (daysSinceEpoch "2024-03-02" - daysSinceEpoch "2024-02-27") = 4.
Proof.
  split; [reflexivity|]. split.
  - apply (proj1 rental_duration_from_year_1). reflexivity.
  - split; [reflexivity|]. split; [vm_compute; discriminate|]. split.
    + apply (proj1 (proj2 rental_duration_from_year_1) (Some 1%nat) (Some 1%nat)
               "2024-02-27" "2024-03-02").
      * reflexivity.
      * left. vm_compute. discriminate.
    + vm_compute. reflexivity.
Defined.

(** C6, at the year 0000. The rental from "0000-01-01" to "0001-01-01" is
    constructed: both dates are valid and the end is the greater string.
    The specification's day counters of the two dates are 1 and 367, so
    the duration should be 366, the length of the year 0000; but
    [getRentalDays] returns 1, by its clamp, as [countTotalDays] gives 1
    for both dates. From "0000-06-01" to "0001-06-01" it returns 1 too,
    for 365 days. *)
Theorem rental_duration_year_0 :
  Rental_ctor (Some 1%nat) (Some 1%nat) "0000-01-01" "0001-01-01"
  = Ok (mkRental (Some 1%nat) (Some 1%nat) "0000-01-01" "0001-01-01")
  /\ getRentalDays (mkRental (Some 1%nat) (Some 1%nat) "0000-01-01" "0001-01-01")
     = Ok 1
  /\ daysSinceEpoch "0000-01-01" = 1
  /\ daysSinceEpoch "0001-01-01" = 367
  /\ Z.max 1 (daysSinceEpoch "0001-01-01" - daysSinceEpoch "0000-01-01") = 366
  /\ Rental_ctor (Some 1%nat) (Some 1%nat) "0000-06-01" "0001-06-01"
     = Ok (mkRental (Some 1%nat) (Some 1%nat) "0000-06-01" "0001-06-01")
  /\ getRentalDays (mkRental (Some 1%nat) (Some 1%nat) "0000-06-01" "0001-06-01")
     = Ok 1
  /\ Z.max 1 (daysSinceEpoch "0001-06-01" - daysSinceEpoch "0000-06-01") = 365.
Proof. repeat split; reflexivity. Qed.

(** C10, at the year 0000. The dates "0000-01-01" and "0001-01-01" are both
    accepted and the first is the smaller string, yet [countTotalDays]
    gives 1 for both: its loop over the past years starts at year 1, so
    the 366 days of the year 0000 are never counted. The rental between
    them is constructed and lasts 1 day by the clamp of [getRentalDays].
    "0000-03-01" even counts more days than "0001-03-01". *)
Theorem countTotalDays_year_0 :
  isValidDate "0000-01-01" = Ok true
  /\ isValidDate "0001-01-01" = Ok true
  /\ String.ltb "0000-01-01" "0001-01-01" = true
  /\ countTotalDays "0000-01-01" = Ok 1
  /\ countTotalDays "0001-01-01" = Ok 1
  /\ Rental_ctor (Some 1%nat) (Some 1%nat) "0000-01-01" "0001-01-01"
     = Ok (mkRental (Some 1%nat) (Some 1%nat) "0000-01-01" "0001-01-01")
  /\ getRentalDays (mkRental (Some 1%nat) (Some 1%nat) "0000-01-01" "0001-01-01")
     = Ok 1
  /\ String.ltb "0000-03-01" "0001-03-01" = true
  /\ countTotalDays "0000-03-01" = Ok 61
  /\ countTotalDays "0001-03-01" = Ok 60.
Proof. repeat split; reflexivity. Qed.

(** ** The [int]s of [countTotalDays] *)

Lemma read_digits_range (s : string) : forall acc : Z,
  0 <= acc ->
  acc <= read_digits s acc < (acc + 1) * 10 ^ Z.of_nat (String.length s).
Proof.
  induction s as [|c r IH]; intros acc Hacc; cbn [read_digits String.length].
  - cbn. lia.
  - rewrite Nat2Z.inj_succ, Z.pow_succ_r by lia.
    pose proof (Z.pow_pos_nonneg 10 (Z.of_nat (String.length r))
                  ltac:(lia) ltac:(lia)) as Hpow.
    set (P := 10 ^ Z.of_nat (String.length r)) in *.
    destruct (isdigit c) eqn:Hc.
    + pose proof (isdigit_value c Hc) as Hv. unfold digit_value in *.
      specialize (IH (10 * acc + (char_code c - 48)) ltac:(lia)).
      assert ((10 * acc + (char_code c - 48) + 1) * P <= (10 * acc + 10) * P)
        by (apply Z.mul_le_mono_nonneg_r; lia).
      lia.
    + assert (1 * (acc + 1) <= 10 * P * (acc + 1))
        by (apply Z.mul_le_mono_nonneg_r; lia).
      lia.
Qed.

Lemma skip_spaces_length (s : string) :
  (String.length (skip_spaces s) <= String.length s)%nat.
Proof.
  induction s as [|c r IH]; cbn [skip_spaces String.length]; [lia|].
  destruct (isspace c); cbn [String.length]; lia.
Qed.

Lemma stoi_range (s : string) (v : Z) :
  stoi s = Ok v ->
  - 10 ^ Z.of_nat (String.length s) < v < 10 ^ Z.of_nat (String.length s).
Proof.
  unfold stoi. pose proof (skip_spaces_length s) as Hlen.
  assert (Hmono : forall n : nat, (n <= String.length s)%nat ->
                                  10 ^ Z.of_nat n <= 10 ^ Z.of_nat (String.length s))
    by (intros n Hn; apply Z.pow_le_mono_r; lia).
  destruct (skip_spaces s) as [|c r]; [discriminate|].
  cbn [String.length] in Hlen.
  assert (Hgen : forall (negative : bool) (s2 : string),
             (String.length s2 <= String.length s)%nat ->
             match s2 with
             | String c _ =>
                 if isdigit c then
                   let v := read_digits s2 0 in
                   let v := if negative then - v else v in
                   if (INT_MIN <=? v) && (v <=? INT_MAX) then Ok v
                   else Throw (out_of_range "stoi")
                 else Throw (invalid_argument "stoi")
             | EmptyString => Throw (invalid_argument "stoi")
             end = Ok v ->
             - 10 ^ Z.of_nat (String.length s) < v < 10 ^ Z.of_nat (String.length s)).
  { intros negative s2 Hs2 H. destruct s2 as [|c2 r2]; [discriminate|].
    destruct (isdigit c2); [|discriminate]. cbv zeta in H.
    pose proof (read_digits_range (String c2 r2) 0 ltac:(lia)) as Hr.
    pose proof (Hmono _ Hs2) as Hm.
    remember (read_digits (String c2 r2) 0) as rd eqn:Hrd. clear Hrd.
    destruct ((INT_MIN <=? _) && (_ <=? INT_MAX)); [|discriminate].
    injection H as <-. rewrite Z.add_0_l, Z.mul_1_l in Hr.
    destruct negative; lia. }
  destruct (Ascii.eqb c "-"); [apply (Hgen true r); lia|].
  destruct (Ascii.eqb c "+"); [apply (Hgen false r); lia|].
  apply (Hgen false (String c r)). cbn [String.length]. lia.
Qed.

Lemma substring_length (s : string) : forall pos n : nat,
  (String.length (String.substring pos n s) <= n)%nat.
Proof.
  induction s as [|c r IH]; intros pos n.
  - destruct pos, n; cbn; lia.
  - destruct pos as [|pos]; cbn [String.substring].
    + destruct n as [|n]; cbn [String.length]; [lia|].
      specialize (IH 0%nat n). lia.
    + apply IH.
Qed.

Lemma substr_stoi_range (s t : string) (pos n : nat) (v : Z) :
  substr s pos n = Ok t -> stoi t = Ok v ->
  - 10 ^ Z.of_nat n < v < 10 ^ Z.of_nat n.
Proof.
  unfold substr. destruct (String.length s <? pos)%nat; [discriminate|].
  intros H Hv. injection H as <-. apply stoi_range in Hv.
  pose proof (substring_length s pos n) as Hlen.
  assert (10 ^ Z.of_nat (String.length (String.substring pos n s))
          <= 10 ^ Z.of_nat n) by (apply Z.pow_le_mono_r; lia).
  lia.
Qed.

Lemma fold_left_sum_range (f : Z -> Z) (c : Z) (l : list Z) : forall total : Z,
  (forall i, 0 <= f i <= c) ->
  total <= fold_left (fun total i => total + f i) l total
  <= total + c * Z.of_nat (List.length l).
Proof.
  induction l as [|i l IH]; intros total Hf; cbn [fold_left List.length]; [lia|].
  specialize (IH (total + f i) Hf). specialize (Hf i). lia.
Qed.

Lemma int_range_length (lo hi : Z) :
  List.length (int_range lo hi) = Z.to_nat (hi - lo).
Proof. unfold int_range. now rewrite length_map, length_seq. Qed.

Lemma getDaysInMonth_range (month year : Z) : 0 <= getDaysInMonth month year <= 31.
Proof.
  unfold getDaysInMonth.
  destruct ((month <? 1) || (month >? 12)) eqn:E; [lia|].
  apply orb_false_elim in E as [E1 E2].
  assert (H : month = 1 \/ month = 2 \/ month = 3 \/ month = 4 \/ month = 5
              \/ month = 6 \/ month = 7 \/ month = 8 \/ month = 9 \/ month = 10
              \/ month = 11 \/ month = 12) by lia.
  destruct (isLeapYear year);
    repeat (destruct H as [->|H]; [vm_compute; split; discriminate|]); subst;
    vm_compute; split; discriminate.
Qed.

(** Every value [total] takes in [countTotalDays] is an [int]: the sums only
    grow, and the last one is below four million. *)
Lemma countTotalDays_int_range (date : string) (n : Z) :
  countTotalDays date = Ok n -> -99 <= n <= 3662832 /\ INT_MIN <= n <= INT_MAX.
Proof.
  unfold countTotalDays. intros H.
  destruct (substr date 0 4) as [ys| |] eqn:Eys; try discriminate. cbn [bind] in H.
  destruct (stoi ys) as [y| |] eqn:Ey; try discriminate. cbn [bind] in H.
  destruct (substr date 5 2) as [ms| |] eqn:Ems; try discriminate. cbn [bind] in H.
  destruct (stoi ms) as [m| |] eqn:Em; try discriminate. cbn [bind] in H.
  destruct (substr date 8 2) as [ds| |] eqn:Eds; try discriminate. cbn [bind] in H.
  destruct (stoi ds) as [d| |] eqn:Ed; try discriminate. cbn [bind] in H.
  injection H as <-.
  pose proof (substr_stoi_range _ _ _ _ _ Eys Ey) as Hy.
  pose proof (substr_stoi_range _ _ _ _ _ Ems Em) as Hm.
  pose proof (substr_stoi_range _ _ _ _ _ Eds Ed) as Hd.
  change (10 ^ Z.of_nat 4) with 10000 in Hy.
  change (10 ^ Z.of_nat 2) with 100 in Hm, Hd.
  pose proof (fold_left_sum_range (fun i => if isLeapYear i then 366 else 365) 366
                (int_range 1 y) d
                ltac:(intros i; cbv beta; destruct (isLeapYear i); lia)) as H1.
  pose proof (fold_left_sum_range (fun i => getDaysInMonth i y) 31 (int_range 1 m)
                (fold_left (fun total i => total + (if isLeapYear i then 366 else 365))
                   (int_range 1 y) d)
                ltac:(intros i; apply getDaysInMonth_range)) as H2.
  rewrite int_range_length in H1, H2.
  change INT_MIN with (-2147483648). change INT_MAX with 2147483647.
  cbv zeta. lia.
Qed.

(** * The manager *)

(** ** The store *)

Section Store.

Context {A : Type}.
Implicit Types (store : list (ptr * A)) (p q : ptr) (a : A).

Lemma lookup_In store p a : lookup p store = Some a -> In (p, a) store.
Proof.
  induction store as [|[q x] rest IH]; cbn [lookup]; [discriminate|].
  destruct (Nat.eqb_spec q p) as [->|Hne].
  - intros [= ->]. now left.
  - intros H. right. now apply IH.
Qed.

Lemma lookup_None store p : lookup p store = None -> ~ In p (map fst store).
Proof.
  induction store as [|[q x] rest IH]; cbn [lookup map fst In]; [tauto|].
  destruct (Nat.eqb_spec q p) as [->|Hne]; [discriminate|].
  intros H [Hq|Hin]; [congruence|]. now apply IH.
Qed.

Lemma In_lookup store p a :
  NoDup (map fst store) -> In (p, a) store -> lookup p store = Some a.
Proof.
  induction store as [|[q x] rest IH]; cbn [lookup map fst In]; [tauto|].
  intros Hnd [Heq|Hin].
  - injection Heq as -> ->. now rewrite Nat.eqb_refl.
  - inversion Hnd as [|? ? Hq Hrest]; subst.
    destruct (Nat.eqb_spec q p) as [->|Hne].
    + exfalso. apply Hq. now apply (in_map fst) in Hin.
    + now apply IH.
Qed.

Lemma lookup_app store store' p :
  lookup p (store ++ store')
  = match lookup p store with
    | Some a => Some a
    | None => lookup p store'
    end.
Proof.
  induction store as [|[q x] rest IH]; cbn [lookup List.app]; [reflexivity|].
  now destruct (Nat.eqb q p).
Qed.

Lemma list_max_ge (l : list nat) (n : nat) : In n l -> (n <= list_max l)%nat.
Proof.
  intros Hin.
  pose proof (proj1 (list_max_le l (list_max l)) (le_n _)) as Hall.
  rewrite Forall_forall in Hall. now apply Hall.
Qed.

Lemma new_ptr_fresh store : ~ In (new_ptr store) (map fst store).
Proof.
  unfold new_ptr. intros Hin. apply list_max_ge in Hin. lia.
Qed.

Lemma NoDup_push store a :
  NoDup (map fst store) -> NoDup (map fst (store ++ [(new_ptr store, a)])).
Proof.
  intros Hnd. rewrite map_app. cbn [map fst].
  apply NoDup_app; [assumption|repeat constructor; cbn; tauto|].
  intros x Hx [<-|[]]. now apply new_ptr_fresh in Hx.
Qed.

Lemma map_fst_store_set store p a : map fst (store_set p a store) = map fst store.
Proof.
  induction store as [|[q x] rest IH]; cbn [store_set map fst]; [reflexivity|].
  destruct (Nat.eqb q p); cbn [map fst]; [reflexivity|]. now rewrite IH.
Qed.

Lemma lookup_store_set store p q a :
  lookup q (store_set p a store)
  = if Nat.eqb p q then option_map (fun _ => a) (lookup q store)
    else lookup q store.
Proof.
  induction store as [|[r x] rest IH]; cbn [store_set lookup option_map].
  - now destruct (Nat.eqb p q).
  - destruct (Nat.eqb_spec r p) as [->|Hrp]; cbn [lookup].
    + destruct (Nat.eqb_spec p q) as [->|Hpq]; [reflexivity|reflexivity].
    + destruct (Nat.eqb_spec r q) as [->|Hrq].
      * destruct (Nat.eqb_spec p q) as [->|Hpq]; [congruence|reflexivity].
      * apply IH.
Qed.

Lemma NoDup_map_fst_filter (keep : ptr * A -> bool) store :
  NoDup (map fst store) -> NoDup (map fst (filter keep store)).
Proof.
  induction store as [|[q x] rest IH]; cbn [filter map fst]; [auto|].
  intros Hnd. inversion Hnd as [|? ? Hq Hrest]; subst.
  destruct (keep (q, x)); cbn [map fst]; [|auto].
  constructor; [|auto]. intros Hin. apply Hq.
  apply in_map_iff in Hin as ([q' x'] & Heq & Hin). cbn in Heq. subst q'.
  apply filter_In in Hin as [Hin _]. now apply (in_map fst) in Hin.
Qed.

Lemma lookup_filter (keep : ptr * A -> bool) store p a :
  lookup p store = Some a -> keep (p, a) = true ->
  lookup p (filter keep store) = Some a.
Proof.
  induction store as [|[q x] rest IH]; cbn [lookup filter]; [discriminate|].
  destruct (Nat.eqb_spec q p) as [->|Hne].
  - intros [= ->] Hk. rewrite Hk. cbn [lookup]. now rewrite Nat.eqb_refl.
  - intros H Hk. destruct (keep (q, x)); cbn [lookup]; [|auto].
    destruct (Nat.eqb_spec q p); [congruence|auto].
Qed.

End Store.

(** ** Search by key *)

Lemma find_vehicle_find_by (reg : string) (store : list (ptr * Vehicle)) :
  find_vehicle reg store = find_by getRegNumber reg store.
Proof. induction store as [|[p v] rest IH]; cbn; [reflexivity|now rewrite IH]. Qed.

Lemma find_customer_find_by (id : string) (store : list (ptr * Customer)) :
  find_customer id store = find_by getId id store.
Proof. induction store as [|[p v] rest IH]; cbn; [reflexivity|now rewrite IH]. Qed.

Section FindBy.

Context {A : Type} (key : A -> string).
Implicit Types (store : list (ptr * A)) (p q : ptr) (a : A) (k : string).

Lemma find_by_app store store' k :
  find_by key k (store ++ store')
  = match find_by key k store with
    | Some p => Some p
    | None => find_by key k store'
    end.
Proof.
  induction store as [|[q x] rest IH]; cbn [find_by List.app]; [reflexivity|].
  now destruct (key x =? k)%string.
Qed.

Lemma find_by_In store k p :
  find_by key k store = Some p -> exists a, In (p, a) store /\ key a = k.
Proof.
  induction store as [|[q x] rest IH]; cbn [find_by]; [discriminate|].
  destruct (String.eqb_spec (key x) k) as [Hk|Hk].
  - intros [= ->]. exists x. split; [now left|assumption].
  - intros H. destruct (IH H) as (a & Hin & Ha). exists a. split; [now right|assumption].
Qed.

Lemma find_by_lookup store k p :
  NoDup (map fst store) -> find_by key k store = Some p ->
  exists a, lookup p store = Some a /\ key a = k.
Proof.
  intros Hnd H. destruct (find_by_In _ _ _ H) as (a & Hin & Ha).
  exists a. split; [now apply In_lookup|assumption].
Qed.

Lemma find_by_existsb store k :
  existsb (fun pa => key (snd pa) =? k)%string store
  = match find_by key k store with
    | Some _ => true
    | None => false
    end.
Proof.
  induction store as [|[q x] rest IH]; cbn [find_by existsb snd]; [reflexivity|].
  destruct (key x =? k)%string; [reflexivity|apply IH].
Qed.

Lemma find_by_filter store k k' :
  k' <> k ->
  find_by key k' (filter (fun pa => negb (key (snd pa) =? k)%string) store)
  = find_by key k' store.
Proof.
  intros Hne. induction store as [|[q x] rest IH]; cbn [find_by filter snd]; [reflexivity|].
  destruct (String.eqb_spec (key x) k) as [Hk|Hk]; cbn [negb find_by].
  - destruct (String.eqb_spec (key x) k'); [congruence|apply IH].
  - now rewrite IH.
Qed.

Lemma find_by_filter_removed store k :
  find_by key k (filter (fun pa => negb (key (snd pa) =? k)%string) store) = None.
Proof.
  induction store as [|[q x] rest IH]; cbn [find_by filter snd]; [reflexivity|].
  destruct (String.eqb_spec (key x) k) as [Hk|Hk]; cbn [negb find_by]; [apply IH|].
  destruct (String.eqb_spec (key x) k); [congruence|apply IH].
Qed.

Lemma find_by_store_set store k p a a' :
  lookup p store = Some a -> key a' = key a ->
  find_by key k (store_set p a' store) = find_by key k store.
Proof.
  intros Hl Hk. induction store as [|[q x] rest IH];
    cbn [find_by store_set lookup] in *; [reflexivity|].
  destruct (Nat.eqb_spec q p) as [->|Hne]; cbn [find_by].
  - injection Hl as ->. now rewrite Hk.
  - now rewrite IH.
Qed.

End FindBy.

(** ** Rentals and the stores they point into *)

Lemma rental_reg_of_vehicle (m : VehicleManager) (r : Rental) :
  refers_to_vehicle (vehicles m) r ->
  exists p v, vehicle r = Some p /\ lookup p (vehicles m) = Some v
              /\ find_vehicle (getRegNumber v) (vehicles m) = Some p
              /\ rental_vehicle m r = Some v
              /\ rental_reg m r = Some (getRegNumber v).
Proof.
  intros (p & v & Hp & Hl & Hf). exists p, v.
  unfold rental_reg, rental_vehicle. rewrite Hp, Hl. auto.
Qed.

Lemma refers_to_vehicle_app (vs l : list (ptr * Vehicle)) (r : Rental) :
  refers_to_vehicle vs r -> refers_to_vehicle (vs ++ l) r.
Proof.
  intros (p & v & Hp & Hl & Hf). exists p, v.
  rewrite lookup_app, Hl, find_vehicle_find_by, find_by_app,
    <- find_vehicle_find_by, Hf. auto.
Qed.

Lemma refers_to_vehicle_filter (vs : list (ptr * Vehicle)) (reg : string) (r : Rental) :
  refers_to_vehicle vs r ->
  (forall p v, vehicle r = Some p -> lookup p vs = Some v -> getRegNumber v <> reg) ->
  refers_to_vehicle
    (filter (fun pv => negb (getRegNumber (snd pv) =? reg)%string) vs) r.
Proof.
  intros (p & v & Hp & Hl & Hf) Hne. specialize (Hne p v Hp Hl).
  exists p, v. split; [assumption|]. split.
  - apply lookup_filter; [assumption|]. cbn [snd].
    now destruct (String.eqb_spec (getRegNumber v) reg).
  - rewrite find_vehicle_find_by, find_by_filter, <- find_vehicle_find_by by assumption.
    assumption.
Qed.

Lemma refers_to_vehicle_store_set (vs : list (ptr * Vehicle)) (p : ptr)
    (v v' : Vehicle) (r : Rental) :
  lookup p vs = Some v -> getRegNumber v' = getRegNumber v ->
  refers_to_vehicle vs r -> refers_to_vehicle (store_set p v' vs) r.
Proof.
  intros Hl Hreg (q & w & Hq & Hlq & Hf).
  destruct (Nat.eqb_spec p q) as [->|Hne].
  - exists q, v'. rewrite lookup_store_set, Nat.eqb_refl, Hlq. cbn [option_map].
    rewrite find_vehicle_find_by, (find_by_store_set _ _ _ _ _ _ Hl Hreg),
      <- find_vehicle_find_by.
    assert (w = v) by congruence. subst w. rewrite Hreg. auto.
  - exists q, w. rewrite lookup_store_set.
    destruct (Nat.eqb_spec p q); [congruence|].
    rewrite find_vehicle_find_by, (find_by_store_set _ _ _ _ _ _ Hl Hreg),
      <- find_vehicle_find_by. auto.
Qed.

Lemma refers_to_customer_app (cs l : list (ptr * Customer)) (r : Rental) :
  refers_to_customer cs r -> refers_to_customer (cs ++ l) r.
Proof.
  intros (p & v & Hp & Hl & Hf). exists p, v.
  rewrite lookup_app, Hl, find_customer_find_by, find_by_app,
    <- find_customer_find_by, Hf. auto.
Qed.

Lemma refers_to_customer_filter (cs : list (ptr * Customer)) (id : string) (r : Rental) :
  refers_to_customer cs r ->
  (forall q c, customer r = Some q -> lookup q cs = Some c -> getId c <> id) ->
  refers_to_customer (filter (fun pc => negb (getId (snd pc) =? id)%string) cs) r.
Proof.
  intros (p & v & Hp & Hl & Hf) Hne. specialize (Hne p v Hp Hl).
  exists p, v. split; [assumption|]. split.
  - apply lookup_filter; [assumption|]. cbn [snd].
    now destruct (String.eqb_spec (getId v) id).
  - rewrite find_customer_find_by, find_by_filter, <- find_customer_find_by by assumption.
    assumption.
Qed.

(** The scans of [removeVehicle], [rentVehicle] and [removeCustomer] over
    well-formed rentals. *)
Lemma rented_scan_ok (m : VehicleManager) (reg : string) (rs : list Rental) :
  Forall (fun r => refers_to_vehicle (vehicles m) r) rs ->
  rented_scan m reg rs = Ok (existsb (has_reg m reg) rs).
Proof.
  induction 1 as [|r rs Hr _ IH]; cbn [rented_scan existsb]; [reflexivity|].
  destruct (rental_reg_of_vehicle m r Hr) as (p & v & _ & _ & _ & Hv & Hreg).
  unfold has_reg at 1. rewrite Hv, Hreg.
  destruct (getRegNumber v =? reg)%string; [reflexivity|apply IH].
Qed.

Lemma renting_scan_ok (m : VehicleManager) (id : string) (rs : list Rental) :
  Forall (fun r => refers_to_customer (customers m) r) rs ->
  renting_scan m id rs = Ok (existsb (has_id m id) rs).
Proof.
  induction 1 as [|r rs Hr _ IH]; cbn [renting_scan existsb]; [reflexivity|].
  destruct Hr as (q & c & Hq & Hl & _).
  unfold has_id at 1. unfold rental_customer. rewrite Hq, Hl.
  destruct (getId c =? id)%string; [reflexivity|apply IH].
Qed.

Lemma find_rental_ok (m : VehicleManager) (reg : string) (rs : list Rental) :
  Forall (fun r => refers_to_vehicle (vehicles m) r) rs ->
  (existsb (has_reg m reg) rs = false /\ find_rental m reg rs = Ok None)
  \/ (exists before r after,
         find_rental m reg rs = Ok (Some (before, r, after))
         /\ rs = before ++ r :: after
         /\ has_reg m reg r = true
         /\ existsb (has_reg m reg) before = false).
Proof.
  induction 1 as [|r rs Hr _ IH]; cbn [find_rental existsb]; [left; auto|].
  destruct (rental_reg_of_vehicle m r Hr) as (p & v & _ & _ & _ & Hv & Hreg).
  unfold has_reg at 1 3. rewrite Hv, Hreg.
  destruct (getRegNumber v =? reg)%string eqn:E.
  - right. exists [], r, rs. unfold has_reg. rewrite Hreg. auto.
  - destruct IH as [[Hex Hf]|(before & x & after & Hf & -> & Hx & Hb)].
    + left. rewrite Hf. auto.
    + right. exists (r :: before), x, after. rewrite Hf. cbn [bind existsb List.app].
      unfold has_reg at 1. rewrite Hreg, E. auto.
Qed.

(** ** Constructed objects *)

Lemma constructed_okb (v : Vehicle) : constructed v <-> vehicle_okb v = true.
Proof.
  unfold constructed.
  destruct v as [[reg br mo mi co cat] [en fc ft] d|[reg br mo mi co cat] bat d
                |[reg br mo mi co cat] [en fc ft] cap|[reg br mo mi co cat] [en fc ft]];
    unfold vehicle_okb, base_okb, comb_okb;
    cbn [reconstruct regNumber brand model mileage
           baseCost licenceCat engineSize fuelConsumption fuelType];
    unfold CombustionCar_ctor, ElectricCar_ctor, Truck_ctor, Motorcycle_ctor,
      CombustionVehicle_ctor, ElectricVehicle_ctor, Vehicle_ctor;
    destruct (empty reg), (9 <? String.length reg)%nat, (empty br), (empty mo);
    cbn [bind negb andb fst snd]; try (split; discriminate);
    repeat match goal with
           | |- context [if ?c then _ else _] =>
               destruct c; cbn [bind negb andb fst snd]; try (split; discriminate)
           end;
    split; reflexivity.
Qed.

Lemma constructed_customer_okb (c : Customer) :
  constructed_customer c <-> customer_okb c = true.
Proof.
  unfold constructed_customer, customer_okb, getId, getName, getAddress.
  destruct c as [[i n a] k|[i n a] k];
    cbn [reconstruct_customer customer_base Customer.id Customer.name Customer.address];
    unfold PrivateCustomer_ctor, BusinessCustomer_ctor, Customer_ctor;
    destruct (String.eqb_spec i k) as [->|Hne].
  1,3: destruct (empty k), (empty n), (empty a); cbn [bind negb andb];
    split; (reflexivity || discriminate).
  1,2: destruct (empty k), (empty n), (empty a), (empty i); cbn [bind negb andb];
    split; try discriminate; intros [= E]; congruence.
Qed.

(** Every constructor of a vehicle variant either builds the vehicle from
    its arguments as they are, or throws [std::invalid_argument]; it builds
    the vehicle exactly when the registration is non-empty and at most 9
    characters long, brand and model are non-empty, and the variant's own
    numbers (engine size, fuel consumption, battery capacity, doors, cargo
    capacity) are not [<= 0]. When it throws, [addVehicle] is not reached
    and the manager is as before. *)
Theorem constructors_validate (v : Vehicle) :
  if vehicle_okb v then reconstruct v = Ok v
  else exists msg,
      reconstruct v = Throw (invalid_argument msg)
      /\ forall m : VehicleManager,
          and_then (lift (reconstruct v) m) (fun v' => addVehicle (Some v'))
          = Raised (invalid_argument msg) m.
Proof.
  destruct (vehicle_okb v) eqn:Hok.
  - apply constructed_okb. exact Hok.
  - assert (H : exists msg, reconstruct v = Throw (invalid_argument msg)).
    { destruct v as [[reg br mo mi co cat] [en fc ft] d|[reg br mo mi co cat] bat d
                    |[reg br mo mi co cat] [en fc ft] cap
                    |[reg br mo mi co cat] [en fc ft]];
        revert Hok; unfold vehicle_okb, base_okb, comb_okb;
        cbn [reconstruct regNumber brand model mileage
               baseCost licenceCat engineSize fuelConsumption fuelType];
        unfold CombustionCar_ctor, ElectricCar_ctor, Truck_ctor, Motorcycle_ctor,
          CombustionVehicle_ctor, ElectricVehicle_ctor, Vehicle_ctor;
        repeat match goal with
               | |- context [if ?c then _ else _] =>
                   destruct c; cbn [bind fst snd negb andb]
               end;
        intros Hok; try discriminate Hok; eexists; reflexivity. }
    destruct H as [msg H]. exists msg. split; [exact H|].
    intros m. rewrite H. reflexivity.
Qed.

(** C2, base cost and mileage. The constructors compare neither the base
    daily cost nor the mileage with zero: a car with cost 0 and mileage -5
    is constructed and [addVehicle] stores it, although [setBaseCost] and
    [setMileage] refuse these very values. *)
Theorem constructor_accepts_zero_cost :
  CombustionCar_ctor "WA12345" "Toyota" "Corolla" (-5) 0 LicenceCategory_B
    1600 6.5 FuelType_Gasoline 4
  = Ok free_car
  /\ addVehicle (Some free_car) VehicleManager_new
     = Done tt {| vehicles := [(1%nat, free_car)]; customers := [];
                  rentals := []; rentalHistory := [] |}
  /\ setBaseCost 0 free_car
     = Throw (invalid_argument "Base cost must be positive.")
  /\ setMileage (-5) free_car
     = Throw (invalid_argument "Mileage cannot be negative.").
Proof.
  repeat split; vm_compute; reflexivity.
Qed.

Ltac ctor_cases :=
  unfold CombustionCar_ctor, ElectricCar_ctor, Truck_ctor, Motorcycle_ctor,
    CombustionVehicle_ctor, ElectricVehicle_ctor, Vehicle_ctor,
    PrivateCustomer_ctor, BusinessCustomer_ctor, Customer_ctor;
  repeat match goal with
         | |- context [if ?c then _ else _] =>
             let E := fresh "E" in
             destruct c eqn:E; cbn [bind fst snd]; try discriminate
         end.

Lemma CombustionCar_ctor_constructed reg br mo mi co cat en fc ft d v :
  CombustionCar_ctor reg br mo mi co cat en fc ft d = Ok v -> constructed v.
Proof.
  intros H. apply constructed_okb. revert H. ctor_cases. intros [= <-].
  unfold vehicle_okb, base_okb, comb_okb.
  cbn [regNumber brand model engineSize fuelConsumption].
  repeat match goal with E : _ = false |- _ => rewrite E; clear E end. reflexivity.
Qed.

Lemma ElectricCar_ctor_constructed reg br mo mi co cat bat d v :
  ElectricCar_ctor reg br mo mi co cat bat d = Ok v -> constructed v.
Proof.
  intros H. apply constructed_okb. revert H. ctor_cases. intros [= <-].
  unfold vehicle_okb, base_okb, comb_okb.
  cbn [regNumber brand model engineSize fuelConsumption].
  repeat match goal with E : _ = false |- _ => rewrite E; clear E end. reflexivity.
Qed.

Lemma Truck_ctor_constructed reg br mo mi co cat en fc ft cap v :
  Truck_ctor reg br mo mi co cat en fc ft cap = Ok v -> constructed v.
Proof.
  intros H. apply constructed_okb. revert H. ctor_cases. intros [= <-].
  unfold vehicle_okb, base_okb, comb_okb.
  cbn [regNumber brand model engineSize fuelConsumption].
  repeat match goal with E : _ = false |- _ => rewrite E; clear E end. reflexivity.
Qed.

Lemma Motorcycle_ctor_constructed reg br mo mi co cat en fc ft v :
  Motorcycle_ctor reg br mo mi co cat en fc ft = Ok v -> constructed v.
Proof.
  intros H. apply constructed_okb. revert H. ctor_cases. intros [= <-].
  unfold vehicle_okb, base_okb, comb_okb.
  cbn [regNumber brand model engineSize fuelConsumption].
  repeat match goal with E : _ = false |- _ => rewrite E; clear E end. reflexivity.
Qed.

Lemma PrivateCustomer_ctor_constructed n a k c :
  PrivateCustomer_ctor n a k = Ok c -> constructed_customer c.
Proof.
  intros H. apply constructed_customer_okb. revert H. ctor_cases. intros [= <-].
  unfold customer_okb, getId, getName, getAddress.
  cbn [customer_base Customer.id Customer.name Customer.address].
  repeat match goal with E : _ = false |- _ => rewrite E; clear E end.
  now rewrite String.eqb_refl.
Qed.

Lemma BusinessCustomer_ctor_constructed n a k c :
  BusinessCustomer_ctor n a k = Ok c -> constructed_customer c.
Proof.
  intros H. apply constructed_customer_okb. revert H. ctor_cases. intros [= <-].
  unfold customer_okb, getId, getName, getAddress.
  cbn [customer_base Customer.id Customer.name Customer.address].
  repeat match goal with E : _ = false |- _ => rewrite E; clear E end.
  now rewrite String.eqb_refl.
Qed.

Lemma setMileage_Ok (newMileage : float) (v v' : Vehicle) :
  setMileage newMileage v = Ok v' ->
  getRegNumber v' = getRegNumber v /\ getBrand v' = getBrand v
  /\ getModel v' = getModel v /\ getMileage v' = newMileage
  /\ getBaseCost v' = getBaseCost v
  /\ PrimFloat.ltb newMileage (getMileage v) = false
  /\ vehicle_okb v' = vehicle_okb v
  /\ (forall days, calculateRentCost v' days = calculateRentCost v days).
Proof.
  unfold setMileage.
  destruct (PrimFloat.ltb newMileage 0); [discriminate|].
  destruct (PrimFloat.ltb newMileage (getMileage v)); [discriminate|].
  intros [= <-]. destruct v as [b c d|b bat d|b c cap|b c]; cbn; auto 10.
Qed.

Lemma setMileage_total (newMileage : float) (v : Vehicle) :
  (exists v', setMileage newMileage v = Ok v')
  \/ (exists e, setMileage newMileage v = Throw e).
Proof.
  unfold setMileage.
  destruct (PrimFloat.ltb newMileage 0); [eauto|].
  destruct (PrimFloat.ltb newMileage (getMileage v)); eauto.
Qed.

(** ** The invariant is kept by every call *)

Lemma rental_reg_app (m m' : VehicleManager) (l : list (ptr * Vehicle)) (r : Rental) :
  vehicles m' = vehicles m ++ l -> refers_to_vehicle (vehicles m) r ->
  rental_reg m' r = rental_reg m r.
Proof.
  intros Hv (p & v & Hp & Hl & _). unfold rental_reg, rental_vehicle.
  now rewrite Hp, Hv, lookup_app, Hl.
Qed.

Lemma rental_reg_filter (m m' : VehicleManager) (reg : string) (r : Rental) :
  vehicles m' = filter (fun pv => negb (getRegNumber (snd pv) =? reg)%string) (vehicles m) ->
  refers_to_vehicle (vehicles m) r -> has_reg m reg r = false ->
  rental_reg m' r = rental_reg m r.
Proof.
  intros Hv (p & v & Hp & Hl & _) Hreg. unfold has_reg in Hreg.
  unfold rental_reg, rental_vehicle in *. rewrite Hp, Hl in *. cbn [option_map] in Hreg.
  rewrite Hv, (lookup_filter _ _ _ _ Hl); [reflexivity|].
  cbn [snd]. now rewrite Hreg.
Qed.

Lemma rental_reg_store_set (m m' : VehicleManager) (p : ptr) (v v' : Vehicle) (r : Rental) :
  vehicles m' = store_set p v' (vehicles m) ->
  lookup p (vehicles m) = Some v -> getRegNumber v' = getRegNumber v ->
  rental_reg m' r = rental_reg m r.
Proof.
  intros Hv Hl Hreg. unfold rental_reg, rental_vehicle.
  destruct (vehicle r) as [q|]; [|reflexivity].
  rewrite Hv, lookup_store_set.
  destruct (Nat.eqb_spec p q) as [->|Hne]; [|reflexivity].
  rewrite Hl. cbn [option_map]. now rewrite Hreg.
Qed.

Lemma has_reg_false_ne (m : VehicleManager) (reg : string) (r : Rental) :
  has_reg m reg r = false ->
  forall p v, vehicle r = Some p -> lookup p (vehicles m) = Some v ->
              getRegNumber v <> reg.
Proof.
  unfold has_reg, rental_reg, rental_vehicle. intros H p v Hp Hl.
  rewrite Hp, Hl in H. cbn [option_map] in H. now apply String.eqb_neq.
Qed.

Lemma has_id_false_ne (m : VehicleManager) (id : string) (r : Rental) :
  has_id m id r = false ->
  forall q c, customer r = Some q -> lookup q (customers m) = Some c -> getId c <> id.
Proof.
  unfold has_id, rental_customer. intros H q c Hq Hl.
  rewrite Hq, Hl in H. now apply String.eqb_neq.
Qed.

Lemma existsb_false_Forall {A : Type} (f : A -> bool) (l : list A) :
  existsb f l = false -> Forall (fun a => f a = false) l.
Proof.
  induction l as [|a l IH]; cbn [existsb]; [constructor|].
  intros H. apply orb_false_elim in H as [Ha Hl]. constructor; auto.
Qed.

Lemma Forall_and {A : Type} (P Q : A -> Prop) (l : list A) :
  Forall P l -> Forall Q l -> Forall (fun a => P a /\ Q a) l.
Proof. induction 1; inversion 1; subst; constructor; auto. Qed.

Lemma manager_inv_rentals_vehicle (m : VehicleManager) :
  manager_inv m -> Forall (fun r => refers_to_vehicle (vehicles m) r) (rentals m).
Proof.
  intros [_ _ H _ _ _]. eapply Forall_impl; [|exact H]. now intros r (Hv & _).
Qed.

Lemma manager_inv_rentals_customer (m : VehicleManager) :
  manager_inv m -> Forall (fun r => refers_to_customer (customers m) r) (rentals m).
Proof.
  intros [_ _ H _ _ _]. eapply Forall_impl; [|exact H]. now intros r (_ & Hc & _).
Qed.

Lemma addVehicle_inv (m : VehicleManager) (v : option Vehicle) :
  manager_inv m -> call_ok (call_addVehicle v) ->
  ends_in manager_inv (addVehicle v m).
Proof.
  intros Hinv Hok. destruct v as [v|]; cbn [addVehicle ends_in]; [|assumption].
  destruct (isRegNumberUnique m (getRegNumber v)); cbn [negb ends_in]; [|assumption].
  pose proof (manager_inv_rentals_vehicle m Hinv) as Hrv.
  destruct Hinv as [Hvp Hcp Hr Hro Hvs Hcs].
  constructor; cbn [vehicles customers rentals rentalHistory].
  - now apply NoDup_push.
  - assumption.
  - eapply Forall_impl; [|exact Hr]. intros r (Hv & Hc & Hd).
    split; [now apply refers_to_vehicle_app|]. split; assumption.
  - erewrite map_ext_in; [exact Hro|]. intros r Hin.
    rewrite Forall_forall in Hrv. eapply rental_reg_app; [reflexivity|]. now apply Hrv.
  - apply Forall_app. split; [assumption|]. repeat constructor. exact Hok.
  - assumption.
Qed.

Lemma removeVehicle_inv (m : VehicleManager) (reg : string) :
  manager_inv m -> ends_in manager_inv (removeVehicle reg m).
Proof.
  intros Hinv. unfold removeVehicle.
  pose proof (manager_inv_rentals_vehicle m Hinv) as Hrv.
  rewrite (rented_scan_ok m reg _ Hrv).
  destruct (existsb (has_reg m reg) (rentals m)) eqn:Hex; cbn [ends_in]; [assumption|].
  destruct (existsb _ (vehicles m)); cbn [ends_in]; [|assumption].
  apply existsb_false_Forall in Hex.
  pose proof (Forall_and _ _ _ Hrv Hex) as Hboth.
  destruct Hinv as [Hvp Hcp Hr Hro Hvs Hcs].
  constructor; cbn [vehicles customers rentals rentalHistory].
  - now apply NoDup_map_fst_filter.
  - assumption.
  - pose proof (Forall_and _ _ _ Hr Hex) as Hr'.
    eapply Forall_impl; [|exact Hr']. intros r ((Hv & Hc & Hd) & Hne).
    split; [|split; assumption].
    apply refers_to_vehicle_filter; [assumption|]. now apply has_reg_false_ne.
  - erewrite map_ext_in; [exact Hro|]. intros r Hin.
    rewrite Forall_forall in Hboth. destruct (Hboth r Hin) as [Hv Hne].
    eapply rental_reg_filter; [reflexivity|assumption|assumption].
  - rewrite Forall_forall in *. intros pv Hin. apply filter_In in Hin as [Hin _]. auto.
  - assumption.
Qed.

Lemma addCustomer_inv (m : VehicleManager) (c : option Customer) :
  manager_inv m -> call_ok (call_addCustomer c) ->
  ends_in manager_inv (addCustomer c m).
Proof.
  intros Hinv Hok. destruct c as [c|]; cbn [addCustomer ends_in]; [|assumption].
  destruct (isCustomerIdUnique m (getId c)); cbn [negb ends_in]; [|assumption].
  destruct Hinv as [Hvp Hcp Hr Hro Hvs Hcs].
  constructor; cbn [vehicles customers rentals rentalHistory]; try assumption.
  - now apply NoDup_push.
  - eapply Forall_impl; [|exact Hr]. intros r (Hv & Hc & Hd).
    split; [assumption|]. split; [now apply refers_to_customer_app|assumption].
  - apply Forall_app. split; [assumption|]. repeat constructor. exact Hok.
Qed.

Lemma removeCustomer_inv (m : VehicleManager) (id : string) :
  manager_inv m -> ends_in manager_inv (removeCustomer id m).
Proof.
  intros Hinv. unfold removeCustomer.
  pose proof (manager_inv_rentals_customer m Hinv) as Hrc.
  rewrite (renting_scan_ok m id _ Hrc).
  destruct (existsb (has_id m id) (rentals m)) eqn:Hex; cbn [ends_in]; [assumption|].
  destruct (existsb _ (customers m)); cbn [ends_in]; [|assumption].
  apply existsb_false_Forall in Hex.
  destruct Hinv as [Hvp Hcp Hr Hro Hvs Hcs].
  constructor; cbn [vehicles customers rentals rentalHistory]; try assumption.
  - now apply NoDup_map_fst_filter.
  - pose proof (Forall_and _ _ _ Hr Hex) as Hr'.
    eapply Forall_impl; [|exact Hr']. intros r ((Hv & Hc & Hd) & Hne).
    split; [assumption|]. split; [|assumption].
    apply refers_to_customer_filter; [assumption|]. now apply has_id_false_ne.
  - rewrite Forall_forall in *. intros pv Hin. apply filter_In in Hin as [Hin _]. auto.
Qed.

Lemma has_reg_false_rental_reg (m : VehicleManager) (reg : string) (r : Rental) :
  has_reg m reg r = false -> rental_reg m r <> Some reg.
Proof.
  unfold has_reg. intros H E. rewrite E in H. now rewrite String.eqb_refl in H.
Qed.

Lemma Rental_ctor_defined (v c : option ptr) (start end_ : string) :
  Rental_ctor v c start end_ <> Undefined.
Proof.
  unfold Rental_ctor.
  destruct v; [|discriminate]. destruct c; [|discriminate].
  destruct (isValidDate_total start) as [Hs|Hs]; rewrite Hs;
    cbn [bind negb]; [|discriminate].
  destruct (isValidDate_total end_) as [He|He]; rewrite He;
    cbn [bind negb]; [|discriminate].
  destruct (String.leb end_ start); discriminate.
Qed.

Lemma rentVehicle_inv (m : VehicleManager) (reg cid start end_ : string) :
  manager_inv m -> ends_in manager_inv (rentVehicle reg cid start end_ m).
Proof.
  intros Hinv. unfold rentVehicle, getVehicle, getCustomer.
  destruct (find_vehicle reg (vehicles m)) as [p|] eqn:Hfv; cbn [ends_in]; [|assumption].
  destruct (find_customer cid (customers m)) as [q|] eqn:Hfc; cbn [ends_in]; [|assumption].
  pose proof (manager_inv_rentals_vehicle m Hinv) as Hrv.
  rewrite (rented_scan_ok m reg _ Hrv).
  destruct (existsb (has_reg m reg) (rentals m)) eqn:Hex; cbn [ends_in]; [assumption|].
  destruct (Rental_ctor (Some p) (Some q) start end_) as [rental|e|] eqn:Hctor;
    cbn [ends_in]; [|assumption|now apply Rental_ctor_defined in Hctor].
  apply Rental_ctor_Ok in Hctor as (_ & Hs & He & Hle & ->).
  apply existsb_false_Forall in Hex.
  destruct Hinv as [Hvp Hcp Hr Hro Hvs Hcs].
  rewrite find_vehicle_find_by in Hfv. rewrite find_customer_find_by in Hfc.
  destruct (find_by_lookup _ _ _ _ Hvp Hfv) as (v & Hlv & Hreg).
  destruct (find_by_lookup _ _ _ _ Hcp Hfc) as (c & Hlc & Hid).
  constructor; cbn [vehicles customers rentals rentalHistory]; try assumption.
  - apply Forall_app. split; [assumption|]. repeat constructor; cbn [startDate endDate];
      try assumption.
    + exists p, v. cbn [vehicle]. rewrite find_vehicle_find_by, Hreg. auto.
    + exists q, c. cbn [customer]. rewrite find_customer_find_by, Hid. auto.
  - rewrite map_app. cbn [map].
    apply NoDup_app; [exact Hro|repeat constructor; cbn; tauto|].
    intros x Hin [<-|[]].
    apply in_map_iff in Hin as (r & Hr' & Hin).
    rewrite Forall_forall in Hex. specialize (Hex r Hin).
    apply has_reg_false_rental_reg in Hex. apply Hex.
    change (rental_reg m r = rental_reg m (mkRental (Some p) (Some q) start end_)) in Hr'.
    rewrite Hr'. unfold rental_reg, rental_vehicle. cbn [vehicle].
    rewrite Hlv. cbn [option_map]. now rewrite Hreg.
Qed.

Lemma calculateRentCost_positive (v : Vehicle) (days : Z) :
  1 <= days -> exists cost, calculateRentCost v days = Ok cost.
Proof.
  intros Hd. destruct v; cbn [calculateRentCost];
    destruct (Z.leb_spec days 0); try lia; eauto.
Qed.

Lemma calculateTotalCost_ok (store : list (ptr * Vehicle)) (r : Rental) (p : ptr)
    (v : Vehicle) :
  vehicle r = Some p -> lookup p store = Some v ->
  valid_date (startDate r) -> valid_date (endDate r) ->
  exists cost,
    calculateTotalCost store r = Ok cost
    /\ calculateRentCost v
         (Z.max 1 (counted_days (endDate r) - counted_days (startDate r)))
       = Ok cost.
Proof.
  intros Hp Hl Hs He. unfold calculateTotalCost.
  rewrite Hp, (getRentalDays_valid r Hs He), Hl. cbn [bind].
  destruct (calculateRentCost_positive v
              (Z.max 1 (counted_days (endDate r) - counted_days (startDate r)))
              ltac:(lia)) as [cost Hc].
  exists cost. now rewrite Hc.
Qed.

Lemma manager_inv_store_set (m : VehicleManager) (p : ptr) (v v' : Vehicle) :
  manager_inv m -> lookup p (vehicles m) = Some v ->
  getRegNumber v' = getRegNumber v -> vehicle_okb v' = vehicle_okb v ->
  manager_inv (mkVehicleManager (store_set p v' (vehicles m)) (customers m)
                 (rentals m) (rentalHistory m)).
Proof.
  intros [Hvp Hcp Hr Hro Hvs Hcs] Hl Hreg Hok.
  constructor; cbn [vehicles customers rentals rentalHistory]; try assumption.
  - now rewrite map_fst_store_set.
  - eapply Forall_impl; [|exact Hr]. intros r (Hv & Hc & Hd).
    split; [|split; assumption]. now apply (refers_to_vehicle_store_set _ _ v).
  - erewrite map_ext; [exact Hro|]. intros r.
    now apply (rental_reg_store_set _ _ p v v').
  - rewrite Forall_forall in *. intros [q x] Hin. cbn [snd].
    assert (Hx : lookup q (store_set p v' (vehicles m)) = Some x).
    { apply In_lookup; [now rewrite map_fst_store_set|assumption]. }
    rewrite lookup_store_set in Hx.
    destruct (Nat.eqb_spec p q) as [->|Hne].
    + rewrite Hl in Hx. injection Hx as <-.
      apply constructed_okb. rewrite Hok. apply constructed_okb.
      apply (Hvs (q, v)). now apply lookup_In.
    + apply (Hvs (q, x)). now apply lookup_In.
Qed.

Lemma manager_inv_drop_rental (vs : list (ptr * Vehicle)) (cs : list (ptr * Customer))
    (before after : list Rental) (r : Rental) (hs hs' : list string) :
  manager_inv (mkVehicleManager vs cs (before ++ r :: after) hs) ->
  manager_inv (mkVehicleManager vs cs (before ++ after) hs').
Proof.
  intros [Hvp Hcp Hr Hro Hvs Hcs]. cbn [vehicles customers rentals] in *.
  constructor; cbn [vehicles customers rentals]; try assumption.
  - apply Forall_app in Hr as [Hb Ha]. inversion Ha; subst.
    apply Forall_app. split; assumption.
  - rewrite map_app in *. cbn [map] in Hro. now apply NoDup_remove_1 in Hro.
Qed.

Lemma returnVehicle_inv {DT : DoubleText} (m : VehicleManager) (reg : string)
    (newMileage : float) :
  manager_inv m -> ends_in manager_inv (returnVehicle reg newMileage m).
Proof.
  intros Hinv. unfold returnVehicle.
  pose proof (manager_inv_rentals_vehicle m Hinv) as Hrv.
  destruct (find_rental_ok m reg _ Hrv)
    as [[_ ->]|(before & r & after & -> & Hrs & Hr & _)]; cbn [ends_in]; [assumption|].
  assert (Hrok : rental_ok m r).
  { destruct Hinv as [_ _ Hall _ _ _]. rewrite Forall_forall in Hall.
    apply Hall. rewrite Hrs. apply in_elt. }
  destruct Hrok as (Hv & (q & c & Hq & Hlc & _) & Hs & He & _).
  destruct (rental_reg_of_vehicle m r Hv) as (p & v & Hp & Hl & _ & Hrv' & _).
  rewrite Hp, Hrv'.
  destruct (setMileage_total newMileage v) as [[v' Hset]|[e Hset]]; rewrite Hset;
    cbn [ends_in]; [|assumption].
  apply setMileage_Ok in Hset as (Hreg & _ & _ & _ & _ & _ & Hok & _).
  pose proof (manager_inv_store_set m p v v' Hinv Hl Hreg Hok) as Hinv1.
  cbn [vehicles customers rentals rentalHistory].
  destruct (calculateTotalCost_ok (store_set p v' (vehicles m)) r p v' Hp)
    as (cost & -> & _); try assumption.
  { rewrite lookup_store_set, Nat.eqb_refl, Hl. reflexivity. }
  unfold rental_customer. cbn [customers]. rewrite Hq, Hlc. cbn [ends_in].
  rewrite Hrs in Hinv1. eapply manager_inv_drop_rental. exact Hinv1.
Qed.

(** ** Loading keeps the invariant *)

Ltac bind_cases H :=
  repeat match type of H with
         | bind ?r _ = Ok _ =>
             let E := fresh "E" in
             destruct r eqn:E; cbn [bind] in H; [|discriminate H|discriminate H]
         end.

Lemma parse_vehicle_constructed {DT : DoubleText} (parts : list string) (v : Vehicle) :
  parse_vehicle parts = Ok (Some v) -> constructed v.
Proof.
  unfold parse_vehicle. intros H.
  repeat match type of H with
         | (if ?c then _ else _) = _ => destruct c
         end; bind_cases H; try discriminate H;
    injection H as <-;
    eauto using CombustionCar_ctor_constructed, ElectricCar_ctor_constructed,
      Truck_ctor_constructed, Motorcycle_ctor_constructed.
Qed.

Lemma stoi_defined (s : string) : stoi s <> Undefined.
Proof.
  unfold stoi.
  destruct (match skip_spaces s with
            | String c r =>
                if Ascii.eqb c "-" then (true, r)
                else if Ascii.eqb c "+" then (false, r) else (false, skip_spaces s)
            | EmptyString => (false, skip_spaces s)
            end) as [negative s2].
  destruct s2 as [|c r]; [discriminate|].
  destruct (isdigit c); [|discriminate].
  match goal with |- (if ?c then _ else _) <> _ => destruct c; discriminate end.
Qed.

Lemma conversion_defined {A : Type} (c : conversion A) :
  conversion_result c <> Undefined.
Proof. destruct c; discriminate. Qed.

Ltac defined_step lemmas :=
  match goal with
  | |- bind ?r _ <> Undefined =>
      let E := fresh "E" in
      destruct r eqn:E; cbn [bind];
      [|discriminate|exfalso; revert E; lemmas]
  | |- (if ?c then _ else _) <> Undefined => destruct c
  | |- Ok _ <> Undefined => discriminate
  | |- Throw _ <> Undefined => discriminate
  end.

Lemma Vehicle_ctor_defined reg br mo mi co cat :
  Vehicle_ctor reg br mo mi co cat <> Undefined.
Proof. unfold Vehicle_ctor. repeat defined_step idtac. Qed.

Lemma CombustionVehicle_ctor_defined reg br mo mi co cat en fc ft :
  CombustionVehicle_ctor reg br mo mi co cat en fc ft <> Undefined.
Proof.
  unfold CombustionVehicle_ctor.
  repeat defined_step ltac:(apply Vehicle_ctor_defined).
Qed.

Lemma ElectricVehicle_ctor_defined reg br mo mi co cat bat :
  ElectricVehicle_ctor reg br mo mi co cat bat <> Undefined.
Proof.
  unfold ElectricVehicle_ctor.
  repeat defined_step ltac:(apply Vehicle_ctor_defined).
Qed.

Lemma CombustionCar_ctor_defined reg br mo mi co cat en fc ft d :
  CombustionCar_ctor reg br mo mi co cat en fc ft d <> Undefined.
Proof.
  unfold CombustionCar_ctor.
  repeat defined_step ltac:(apply CombustionVehicle_ctor_defined).
Qed.

Lemma ElectricCar_ctor_defined reg br mo mi co cat bat d :
  ElectricCar_ctor reg br mo mi co cat bat d <> Undefined.
Proof.
  unfold ElectricCar_ctor.
  repeat defined_step ltac:(apply ElectricVehicle_ctor_defined).
Qed.

Lemma Truck_ctor_defined reg br mo mi co cat en fc ft cap :
  Truck_ctor reg br mo mi co cat en fc ft cap <> Undefined.
Proof.
  unfold Truck_ctor.
  repeat defined_step ltac:(apply CombustionVehicle_ctor_defined).
Qed.

Lemma Motorcycle_ctor_defined reg br mo mi co cat en fc ft :
  Motorcycle_ctor reg br mo mi co cat en fc ft <> Undefined.
Proof.
  unfold Motorcycle_ctor.
  repeat defined_step ltac:(apply CombustionVehicle_ctor_defined).
Qed.

Lemma parse_vehicle_defined {DT : DoubleText} (parts : list string) :
  parse_vehicle parts <> Undefined.
Proof.
  unfold parse_vehicle.
  repeat defined_step
    ltac:(first [apply stoi_defined | apply conversion_defined
                | apply CombustionCar_ctor_defined | apply ElectricCar_ctor_defined
                | apply Truck_ctor_defined | apply Motorcycle_ctor_defined]).
Qed.

Lemma parse_customer_constructed (parts : list string) (c : Customer) :
  parse_customer parts = Ok (Some c) -> constructed_customer c.
Proof.
  unfold parse_customer. intros H.
  repeat match type of H with
         | (if ?c then _ else _) = _ => destruct c
         end; bind_cases H; try discriminate H;
    injection H as <-;
    eauto using PrivateCustomer_ctor_constructed, BusinessCustomer_ctor_constructed.
Qed.

Lemma Customer_ctor_defined i n a : Customer_ctor i n a <> Undefined.
Proof. unfold Customer_ctor. repeat defined_step idtac. Qed.

Lemma PrivateCustomer_ctor_defined n a k : PrivateCustomer_ctor n a k <> Undefined.
Proof.
  unfold PrivateCustomer_ctor. repeat defined_step ltac:(apply Customer_ctor_defined).
Qed.

Lemma BusinessCustomer_ctor_defined n a k : BusinessCustomer_ctor n a k <> Undefined.
Proof.
  unfold BusinessCustomer_ctor. repeat defined_step ltac:(apply Customer_ctor_defined).
Qed.

Lemma parse_customer_defined (parts : list string) : parse_customer parts <> Undefined.
Proof.
  unfold parse_customer.
  repeat defined_step
    ltac:(first [apply PrivateCustomer_ctor_defined
                | apply BusinessCustomer_ctor_defined]).
Qed.

Lemma ends_in_and_then {A B : Type} (P Q : VehicleManager -> Prop) (o : outcome A)
    (k : A -> VehicleManager -> outcome B) :
  ends_in P o -> (forall m, P m -> Q m) ->
  (forall a m, P m -> ends_in Q (k a m)) ->
  ends_in Q (and_then o k).
Proof. destruct o; cbn [ends_in and_then]; auto. Qed.

Lemma read_count_defined (file : string) : read_count file <> Undefined.
Proof.
  unfold read_count. destruct (getline newline file) as [[line file']|]; [|discriminate].
  destruct (stoi line) eqn:E; cbn [bind]; try discriminate.
  now apply stoi_defined in E.
Qed.

Lemma ends_in_read_count (P : VehicleManager -> Prop) (file : string)
    (m : VehicleManager) :
  P m -> ends_in P (lift (read_count file) m).
Proof.
  intros HP. destruct (read_count file) eqn:E; cbn [lift ends_in]; auto.
  now apply read_count_defined in E.
Qed.

Lemma manager_inv_push_vehicle (m : VehicleManager) (v : Vehicle) :
  manager_inv m -> rentals m = [] -> constructed v ->
  manager_inv (mkVehicleManager (vehicles m ++ [(new_ptr (vehicles m), v)])
                 (customers m) (rentals m) (rentalHistory m)).
Proof.
  intros [Hvp Hcp Hr Hro Hvs Hcs] Hnil Hv. rewrite Hnil in *.
  constructor; cbn [vehicles customers rentals rentalHistory map]; try assumption.
  - now apply NoDup_push.
  - constructor.
  - apply Forall_app. split; [assumption|]. repeat constructor. exact Hv.
Qed.

Lemma manager_inv_push_customer (m : VehicleManager) (c : Customer) :
  manager_inv m -> rentals m = [] -> constructed_customer c ->
  manager_inv (mkVehicleManager (vehicles m)
                 (customers m ++ [(new_ptr (customers m), c)])
                 (rentals m) (rentalHistory m)).
Proof.
  intros [Hvp Hcp Hr Hro Hvs Hcs] Hnil Hc. rewrite Hnil in *.
  constructor; cbn [vehicles customers rentals rentalHistory map]; try assumption.
  - now apply NoDup_push.
  - constructor.
  - apply Forall_app. split; [assumption|]. repeat constructor. exact Hc.
Qed.

Lemma load_vehicles_inv {DT : DoubleText} (count : nat) :
  forall (file : string) (m : VehicleManager),
    manager_inv m -> rentals m = [] ->
    ends_in (fun m' => manager_inv m' /\ rentals m' = []) (load_vehicles count file m).
Proof.
  induction count as [|count IH]; intros file m Hinv Hnil; cbn [load_vehicles ends_in];
    [auto|].
  destruct (getline newline file) as [[line file']|]; cbn [ends_in]; [|auto].
  destruct (List.length (split line) =? 0)%nat; [now apply IH|].
  destruct (parse_vehicle (split line)) as [[v|]|e|] eqn:Hp.
  - apply IH; [|assumption].
    apply manager_inv_push_vehicle; try assumption.
    now apply parse_vehicle_constructed in Hp.
  - now apply IH.
  - now apply IH.
  - now apply parse_vehicle_defined in Hp.
Qed.

Lemma load_customers_inv {DT : DoubleText} (count : nat) :
  forall (file : string) (m : VehicleManager),
    manager_inv m -> rentals m = [] ->
    ends_in (fun m' => manager_inv m' /\ rentals m' = []) (load_customers count file m).
Proof.
  induction count as [|count IH]; intros file m Hinv Hnil;
    cbn [load_customers ends_in]; [auto|].
  destruct (getline newline file) as [[line file']|]; cbn [ends_in]; [|auto].
  destruct (List.length (split line) =? 0)%nat; [now apply IH|].
  destruct (parse_customer (split line)) as [[c|]|e|] eqn:Hp.
  - apply IH; [|assumption].
    apply manager_inv_push_customer; try assumption.
    now apply parse_customer_constructed in Hp.
  - now apply IH.
  - now apply IH.
  - now apply parse_customer_defined in Hp.
Qed.

Lemma load_rentals_inv {DT : DoubleText} (count : nat) :
  forall (file : string) (m : VehicleManager),
    manager_inv m -> ends_in manager_inv (load_rentals count file m).
Proof.
  induction count as [|count IH]; intros file m Hinv; cbn [load_rentals ends_in];
    [auto|].
  destruct (getline newline file) as [[line file']|]; cbn [ends_in]; [|auto].
  destruct (List.length (split line) <? 4)%nat; [now apply IH|].
  pose proof (rentVehicle_inv m (part (split line) 0) (part (split line) 1)
                (part (split line) 2) (part (split line) 3) Hinv) as Hrent.
  destruct (rentVehicle _ _ _ _ m); cbn [ends_in] in Hrent; [now apply IH..|contradiction].
Qed.

Lemma manager_inv_history (m : VehicleManager) (hs : list string) :
  manager_inv m ->
  manager_inv (mkVehicleManager (vehicles m) (customers m) (rentals m) hs).
Proof. intros [? ? ? ? ? ?]. constructor; assumption. Qed.

Lemma manager_inv_cleared (hs : list string) :
  manager_inv (mkVehicleManager [] [] [] hs).
Proof. constructor; cbn; constructor. Qed.

Lemma loadFromFile_inv {DT : DoubleText} (file : option string) (m : VehicleManager) :
  manager_inv m -> ends_in manager_inv (loadFromFile file m).
Proof.
  intros Hinv. destruct file as [file|]; cbn [loadFromFile ends_in]; [|assumption].
  set (P := fun m' : VehicleManager => manager_inv m' /\ rentals m' = []).
  assert (HPQ : forall m', P m' -> manager_inv m') by (now intros m' [H _]).
  eapply (ends_in_and_then P); [apply ends_in_read_count| exact HPQ|].
  { split; [apply manager_inv_cleared|reflexivity]. }
  intros [vCount file1] m1 [Hinv1 Hnil1].
  eapply (ends_in_and_then P); [now apply load_vehicles_inv|exact HPQ|].
  intros file2 m2 HP2.
  eapply (ends_in_and_then P); [now apply ends_in_read_count|exact HPQ|].
  intros [cCount file3] m3 [Hinv3 Hnil3].
  eapply (ends_in_and_then P); [now apply load_customers_inv|exact HPQ|].
  intros file4 m4 HP4.
  eapply (ends_in_and_then P); [now apply ends_in_read_count|exact HPQ|].
  intros [rCount file5] m5 [Hinv5 Hnil5].
  eapply (ends_in_and_then manager_inv); [now apply load_rentals_inv|auto|].
  intros file6 m6 Hinv6.
  eapply (ends_in_and_then manager_inv); [now apply ends_in_read_count|auto|].
  intros [hCount file7] m7 Hinv7. cbn [ends_in].
  now apply manager_inv_history.
Qed.

(** Every reachable manager satisfies the invariant, and no call on a
    reachable manager runs into undefined behaviour. *)
Lemma run_inv {DT : DoubleText} (c : call) (m : VehicleManager) :
  manager_inv m -> call_ok c -> ends_in manager_inv (run c m).
Proof.
  intros Hinv Hok.
  destruct c as [v|reg|c|id|reg cid start end_|reg newMileage|file]; cbn [run].
  - now apply addVehicle_inv.
  - now apply removeVehicle_inv.
  - now apply addCustomer_inv.
  - now apply removeCustomer_inv.
  - now apply rentVehicle_inv.
  - pose proof (returnVehicle_inv m reg newMileage Hinv) as H.
    destruct (returnVehicle reg newMileage m); exact H.
  - now apply loadFromFile_inv.
Qed.

Lemma reachable_inv {DT : DoubleText} (m : VehicleManager) :
  reachable m -> manager_inv m.
Proof.
  induction 1 as [|c m m' _ IH Hok [Hdone|[e Hraised]]].
  - apply manager_inv_cleared.
  - pose proof (run_inv c m IH Hok) as H. now rewrite Hdone in H.
  - pose proof (run_inv c m IH Hok) as H. now rewrite Hraised in H.
Qed.

(** ** Failing calls *)

Lemma isRegNumberUnique_find (m : VehicleManager) (reg : string) :
  isRegNumberUnique m reg = true <-> getVehicle m reg = None.
Proof.
  unfold isRegNumberUnique, getVehicle.
  rewrite (find_by_existsb getRegNumber), <- find_vehicle_find_by.
  destruct (find_vehicle reg (vehicles m)); cbn [negb]; split; congruence.
Qed.

(** A call that throws leaves the manager as it was, [loadFromFile] apart. *)
Lemma raised_unchanged {DT : DoubleText} (c : call) (m m' : VehicleManager) (e : exn) :
  manager_inv m -> (forall file, c <> call_loadFromFile file) ->
  run c m = Raised e m' -> m' = m.
Proof.
  intros Hinv Hnl.
  pose proof (manager_inv_rentals_vehicle m Hinv) as Hrv.
  pose proof (manager_inv_rentals_customer m Hinv) as Hrc.
  destruct c as [v|reg|c|id|reg cid start end_|reg newMileage|file]; cbn [run].
  - destruct v as [v|]; cbn [addVehicle]; [|congruence].
    destruct (isRegNumberUnique m (getRegNumber v)); cbn [negb]; congruence.
  - unfold removeVehicle. rewrite (rented_scan_ok m reg _ Hrv).
    destruct (existsb (has_reg m reg) (rentals m)); [congruence|].
    destruct (existsb _ (vehicles m)); congruence.
  - destruct c as [c|]; cbn [addCustomer]; [|congruence].
    destruct (isCustomerIdUnique m (getId c)); cbn [negb]; congruence.
  - unfold removeCustomer. rewrite (renting_scan_ok m id _ Hrc).
    destruct (existsb (has_id m id) (rentals m)); [congruence|].
    destruct (existsb _ (customers m)); congruence.
  - unfold rentVehicle.
    destruct (getVehicle m reg); [|congruence].
    destruct (getCustomer m cid); [|congruence].
    rewrite (rented_scan_ok m reg _ Hrv).
    destruct (existsb (has_reg m reg) (rentals m)); [congruence|].
    destruct (Rental_ctor _ _ start end_); congruence.
  - unfold returnVehicle.
    destruct (find_rental_ok m reg _ Hrv)
      as [[_ ->]|(before & r & after & -> & Hrs & Hr & _)]; cbn [forget]; [congruence|].
    assert (Hrok : rental_ok m r).
    { destruct Hinv as [_ _ Hall _ _ _]. rewrite Forall_forall in Hall.
      apply Hall. rewrite Hrs. apply in_elt. }
    destruct Hrok as (Hv & (q & c & Hq & Hlc & _) & Hs & He & _).
    destruct (rental_reg_of_vehicle m r Hv) as (p & v & Hp & Hl & _ & Hrv' & _).
    rewrite Hp, Hrv'.
    destruct (setMileage_total newMileage v) as [[v' Hset]|[e' Hset]]; rewrite Hset;
      cbn [forget]; [|congruence].
    cbn [vehicles customers rentals rentalHistory].
    destruct (calculateTotalCost_ok (store_set p v' (vehicles m)) r p v' Hp)
      as (cost & -> & _); try assumption.
    { rewrite lookup_store_set, Nat.eqb_refl, Hl. reflexivity. }
    unfold rental_customer. cbn [customers]. rewrite Hq, Hlc. cbn [forget]. discriminate.
  - now specialize (Hnl file).
Qed.

(** Every manager a sequence of well-formed calls builds is reachable. *)
Lemma reachable_run_all {DT : DoubleText} (cs : list call) (m m' : VehicleManager) :
  reachable m -> Forall call_ok cs -> run_all cs m = Some m' -> reachable m'.
Proof.
  intros Hm Hcs. revert m Hm.
  induction Hcs as [|c rest Hc _ IH]; intros m Hm H; cbn [run_all] in H.
  - inversion H. subst m'. exact Hm.
  - destruct (run c m) as [x m1|e m1|] eqn:Hrun; try discriminate.
    + apply (IH m1); [|exact H].
      apply (reachable_call c m m1 Hm Hc). left. destruct x. exact Hrun.
    + apply (IH m1); [|exact H].
      apply (reachable_call c m m1 Hm Hc). right. exists e. exact Hrun.
Qed.

Lemma demo_reachable : reachable demo_manager.
Proof.
  apply (reachable_run_all demo_calls VehicleManager_new).
  - apply reachable_new.
  - unfold demo_calls.
    repeat (apply Forall_cons; [vm_compute; auto|]). apply Forall_nil.
  - vm_compute. reflexivity.
Qed.

(** C7. On a reachable manager, every call that fails with a conflict
    leaves the manager exactly as it was: [addVehicle] / [addCustomer] with
    a registration / id already present, [removeVehicle] / [removeCustomer]
    of an entity an active rental refers to, and [rentVehicle] of a vehicle
    already rented. More generally every throwing call other than
    [loadFromFile] leaves the manager unchanged. *)
Theorem conflicts_leave_state_unchanged {DT : DoubleText} (m : VehicleManager) :
  reachable m ->
  (forall v : Vehicle,
      isRegNumberUnique m (getRegNumber v) = false ->
      addVehicle (Some v) m
      = Raised (invalid_argument
                  "Vehicle with this registration number already exists.") m)
  /\ (forall c : Customer,
         isCustomerIdUnique m (getId c) = false ->
         addCustomer (Some c) m
         = Raised (invalid_argument "Customer with this ID already exists.") m)
  /\ (forall reg : string,
         existsb (has_reg m reg) (rentals m) = true ->
         removeVehicle reg m
         = Raised (invalid_argument
                     "Cannot remove vehicle that is currently rented.") m)
  /\ (forall id : string,
         existsb (has_id m id) (rentals m) = true ->
         removeCustomer id m
         = Raised (invalid_argument
                     "Cannot remove customer who has active rentals.") m)
  /\ (forall reg cid start end_ : string,
         existsb (has_reg m reg) (rentals m) = true ->
         exists e, rentVehicle reg cid start end_ m = Raised e m)
  /\ (forall (c : call) (e : exn) (m' : VehicleManager),
         (forall file, c <> call_loadFromFile file) ->
         run c m = Raised e m' -> m' = m).
Proof.
  intros Hreach. pose proof (reachable_inv m Hreach) as Hinv.
  pose proof (manager_inv_rentals_vehicle m Hinv) as Hrv.
  pose proof (manager_inv_rentals_customer m Hinv) as Hrc.
  repeat split.
  - intros v Hdup. cbn [addVehicle]. now rewrite Hdup.
  - intros c Hdup. cbn [addCustomer]. now rewrite Hdup.
  - intros reg Hr. unfold removeVehicle. now rewrite (rented_scan_ok m reg _ Hrv), Hr.
  - intros id Hr. unfold removeCustomer. now rewrite (renting_scan_ok m id _ Hrc), Hr.
  - intros reg cid start end_ Hr. unfold rentVehicle.
    destruct (getVehicle m reg); [|eauto].
    destruct (getCustomer m cid); [|eauto].
    rewrite (rented_scan_ok m reg _ Hrv), Hr. eauto.
  - intros c e m' Hnl Hrun. now apply (raised_unchanged c m m' e).
Qed.

Lemma conflicts_leave_state_unchanged_witness :
  reachable demo_manager
  /\ addVehicle (Some demo_car) demo_manager
     = Raised (invalid_argument
                 "Vehicle with this registration number already exists.")
         demo_manager
  /\ removeVehicle "WA12345" demo_manager
     = Raised (invalid_argument
                 "Cannot remove vehicle that is currently rented.")
         demo_manager
  /\ removeCustomer "ABC123456" demo_manager
     = Raised (invalid_argument
                 "Cannot remove customer who has active rentals.")
         demo_manager.
Proof.
  destruct (conflicts_leave_state_unchanged demo_manager demo_reachable)
    as (Hadd & _ & Hremove & Hcustomer & _).
  split; [exact demo_reachable|].
  split; [apply (Hadd demo_car); reflexivity|].
  split; [apply Hremove; reflexivity|apply Hcustomer; reflexivity].
Defined.

(** ** Returning a vehicle *)

Lemma ptr_eqb_true (p : option ptr) (q : ptr) : ptr_eqb p q = true <-> p = Some q.
Proof.
  destruct p as [a|]; cbn [ptr_eqb]; [|split; discriminate].
  rewrite Nat.eqb_eq. split; congruence.
Qed.

(** Two rentals of a well-formed manager that point at the same vehicle
    are the same entry of the list: at most one rental refers to a
    vehicle. *)
Lemma rented_at_most_once (m : VehicleManager) (p : ptr) :
  manager_inv m ->
  (List.length (filter (fun r => ptr_eqb (vehicle r) p) (rentals m)) <= 1)%nat.
Proof.
  intros [_ _ _ Hro _ _].
  induction (rentals m) as [|r rs IH]; cbn [filter List.length]; [lia|].
  cbn [map] in Hro. inversion Hro as [|? ? Hnotin Hro']; subst.
  specialize (IH Hro').
  destruct (ptr_eqb (vehicle r) p) eqn:E; [|exact IH].
  cbn [List.length].
  destruct (filter (fun r0 => ptr_eqb (vehicle r0) p) rs) as [|r' rest] eqn:Hf; [cbn; lia|].
  exfalso. apply Hnotin.
  assert (Hin : In r' (filter (fun r0 => ptr_eqb (vehicle r0) p) rs))
    by (rewrite Hf; now left).
  apply filter_In in Hin as [Hin E'].
  apply ptr_eqb_true in E, E'.
  apply in_map_iff. exists r'. split; [|assumption].
  unfold rental_reg, rental_vehicle. now rewrite E, E'.
Qed.

Lemma is_rented_false_drop (m : VehicleManager) (before after : list Rental)
    (r : Rental) (p : ptr) :
  manager_inv m -> rentals m = before ++ r :: after -> vehicle r = Some p ->
  existsb (fun r' => ptr_eqb (vehicle r') p) (before ++ after) = false.
Proof.
  intros Hinv Hrs Hp.
  pose proof (rented_at_most_once m p Hinv) as Hone.
  rewrite Hrs, filter_app in Hone. cbn [filter] in Hone.
  assert (E : ptr_eqb (vehicle r) p = true) by now apply ptr_eqb_true.
  rewrite E, length_app in Hone. cbn [List.length] in Hone.
  rewrite existsb_app. apply orb_false_intro.
  - destruct (existsb _ before) eqn:Hex; [|reflexivity].
    apply existsb_exists in Hex as (x & Hin & Hx).
    assert (In x (filter (fun r0 => ptr_eqb (vehicle r0) p) before))
      by (apply filter_In; auto).
    destruct (filter _ before); [contradiction|cbn [List.length] in Hone; lia].
  - destruct (existsb _ after) eqn:Hex; [|reflexivity].
    apply existsb_exists in Hex as (x & Hin & Hx).
    assert (In x (filter (fun r0 => ptr_eqb (vehicle r0) p) after))
      by (apply filter_In; auto).
    destruct (filter _ after); [contradiction|cbn [List.length] in Hone; lia].
Qed.

(** What [returnVehicle] does on a well-formed manager, case by case. *)
Lemma returnVehicle_cases {DT : DoubleText} (m : VehicleManager) (reg : string)
    (newMileage : float) :
  manager_inv m ->
  (existsb (has_reg m reg) (rentals m) = false
   /\ returnVehicle reg newMileage m
      = Raised (invalid_argument "Rental not found for this vehicle.") m)
  \/ (exists before r after p v c,
         rentals m = before ++ r :: after
         /\ existsb (has_reg m reg) before = false
         /\ vehicle r = Some p /\ lookup p (vehicles m) = Some v
         /\ getVehicle m reg = Some p
         /\ rental_customer m r = Some c
         /\ ((exists e, setMileage newMileage v = Throw e
                        /\ returnVehicle reg newMileage m = Raised e m)
             \/ (exists v' cost,
                    setMileage newMileage v = Ok v'
                    /\ calculateTotalCost (vehicles m) r = Ok cost
                    /\ returnVehicle reg newMileage m
                       = Done cost
                           (mkVehicleManager (store_set p v' (vehicles m))
                              (customers m) (before ++ after)
                              (rentalHistory m ++ [history_line v' c r cost]))))).
Proof.
  intros Hinv. unfold returnVehicle.
  pose proof (manager_inv_rentals_vehicle m Hinv) as Hrv.
  destruct (find_rental_ok m reg _ Hrv)
    as [[Hex ->]|(before & r & after & -> & Hrs & Hr & Hb)]; [left; auto|right].
  assert (Hrok : rental_ok m r).
  { destruct Hinv as [_ _ Hall _ _ _]. rewrite Forall_forall in Hall.
    apply Hall. rewrite Hrs. apply in_elt. }
  destruct Hrok as (Hv & (q & c & Hq & Hlc & _) & Hs & He & _).
  destruct (rental_reg_of_vehicle m r Hv) as (p & v & Hp & Hl & Hfv & Hrv' & Hreg).
  exists before, r, after, p, v, c.
  assert (Hc : rental_customer m r = Some c)
    by (unfold rental_customer; now rewrite Hq).
  assert (Hregv : getVehicle m reg = Some p).
  { unfold has_reg in Hr. rewrite Hreg in Hr. apply String.eqb_eq in Hr.
    unfold getVehicle. now rewrite <- Hr. }
  repeat (split; [assumption|]).
  rewrite Hp, Hrv'.
  destruct (setMileage_total newMileage v) as [[v' Hset]|[e Hset]]; rewrite Hset;
    [right|left; eauto].
  pose proof (setMileage_Ok _ _ _ Hset) as (_ & _ & _ & _ & _ & _ & _ & Hcost).
  cbn [vehicles customers rentals rentalHistory].
  destruct (calculateTotalCost_ok (store_set p v' (vehicles m)) r p v' Hp)
    as (cost & Hc1 & Hc2); try assumption.
  { rewrite lookup_store_set, Nat.eqb_refl, Hl. reflexivity. }
  destruct (calculateTotalCost_ok (vehicles m) r p v Hp Hl Hs He) as (cost0 & Hc3 & Hc4).
  rewrite Hcost, Hc4 in Hc2. injection Hc2 as ->.
  exists v', cost. rewrite Hc1. unfold rental_customer in *. cbn [customers].
  rewrite Hc. auto.
Qed.

Lemma setMileage_lower (newMileage : float) (v : Vehicle) :
  PrimFloat.ltb newMileage (getMileage v) = true ->
  exists e, setMileage newMileage v = Throw e.
Proof.
  intros H. unfold setMileage. destruct (PrimFloat.ltb newMileage 0); [eauto|].
  rewrite H. eauto.
Qed.

Lemma findAvailableVehicles_In (m : VehicleManager) (q : ptr) :
  In q (findAvailableVehicles m)
  <-> In q (map fst (vehicles m)) /\ is_rented m q = false.
Proof.
  unfold findAvailableVehicles, is_rented. rewrite !in_map_iff. split.
  - intros ([q' v] & <- & Hin). apply filter_In in Hin as [Hin Hfree].
    cbn [fst] in *. split; [exists (q', v); auto|].
    now apply negb_true_iff in Hfree.
  - intros (([q' v] & <- & Hin) & Hfree). cbn [fst] in *.
    exists (q', v). split; [reflexivity|]. apply filter_In.
    split; [assumption|]. cbn [fst]. now rewrite Hfree.
Qed.

(** C3. On a reachable manager: [returnVehicle] fails when no active rental
    refers to the registration, and fails when the new mileage is lower
    than the vehicle's; a failure leaves the manager unchanged. When it
    succeeds, the vehicle of the rental holds the new mileage, that rental
    (the first of this registration) is gone from the active rentals, one
    line [Brand Model (Reg);Name (Id);Start;End;Cost] is appended to the
    history, the value returned is the rental's total cost, and
    [findAvailableVehicles], which did not list the vehicle before the
    call, lists it again: it lists that vehicle and the vehicles it listed
    before. *)
Theorem returnVehicle_correct {DT : DoubleText} (m : VehicleManager) (reg : string)
    (newMileage : float) :
  reachable m ->
  (existsb (has_reg m reg) (rentals m) = false ->
   returnVehicle reg newMileage m
   = Raised (invalid_argument "Rental not found for this vehicle.") m)
  /\ (forall p v,
         getVehicle m reg = Some p -> lookup p (vehicles m) = Some v ->
         PrimFloat.ltb newMileage (getMileage v) = true ->
         exists e, returnVehicle reg newMileage m = Raised e m)
  /\ (forall cost m',
         returnVehicle reg newMileage m = Done cost m' ->
         exists before r after p v v' c,
           rentals m = before ++ r :: after
           /\ existsb (has_reg m reg) before = false
           /\ vehicle r = Some p /\ getVehicle m reg = Some p
           /\ lookup p (vehicles m) = Some v /\ rental_customer m r = Some c
           /\ setMileage newMileage v = Ok v'
           /\ lookup p (vehicles m') = Some v' /\ getMileage v' = newMileage
           /\ (forall q, q <> p -> lookup q (vehicles m') = lookup q (vehicles m))
           /\ customers m' = customers m
           /\ rentals m' = before ++ after
           /\ rentalHistory m'
              = rentalHistory m
                ++ [(getBrand v ++ " " ++ getModel v ++ " (" ++ reg ++ ");"
                     ++ getName c ++ " (" ++ getId c ++ ");"
                     ++ startDate r ++ ";" ++ endDate r ++ ";"
                     ++ show_double cost)%string]
           /\ calculateTotalCost (vehicles m) r = Ok cost
           /\ In p (findAvailableVehicles m')
           /\ ~ In p (findAvailableVehicles m)
           /\ (forall q, In q (findAvailableVehicles m')
                          <-> q = p \/ In q (findAvailableVehicles m))).
Proof.
  intros Hreach. pose proof (reachable_inv m Hreach) as Hinv.
  destruct (returnVehicle_cases m reg newMileage Hinv)
    as [[Hex Hret]|(before & r & after & p & v & c & Hrs & Hb & Hp & Hl & Hg & Hc & Hcase)].
  - split; [auto|]. split; [eauto|]. intros cost m' H. congruence.
  - assert (Hrented : existsb (has_reg m reg) (rentals m) = true).
    { assert (Hin : In r (rentals m)) by (rewrite Hrs; apply in_elt).
      apply existsb_exists. exists r. split; [assumption|].
      unfold has_reg, rental_reg, rental_vehicle. rewrite Hp, Hl. cbn [option_map].
      unfold getVehicle in Hg. rewrite find_vehicle_find_by in Hg.
      destruct Hinv as [Hvp _ _ _ _ _].
      destruct (find_by_lookup _ _ _ _ Hvp Hg) as (v0 & Hl0 & Hk).
      assert (v0 = v) by congruence. subst v0. now apply String.eqb_eq. }
    split; [congruence|]. split.
    + intros p0 v0 Hg0 Hl0 Hlt.
      assert (p0 = p) by congruence. subst p0.
      assert (v0 = v) by congruence. subst v0.
      destruct (setMileage_lower _ _ Hlt) as [e He].
      destruct Hcase as [(e' & He' & Hret)|(v' & cost & Hset & _)]; [eauto|congruence].
    + intros cost m' Hdone.
      destruct Hcase as [(e' & He' & Hret)|(v' & cost' & Hset & Hcost & Hret)];
        [congruence|].
      rewrite Hret in Hdone. injection Hdone as <- <-.
      pose proof (setMileage_Ok _ _ _ Hset) as (Hreg & Hbrand & Hmodel & Hmil & _).
      assert (Hl' : lookup p (store_set p v' (vehicles m)) = Some v')
        by (rewrite lookup_store_set, Nat.eqb_refl, Hl; reflexivity).
      exists before, r, after, p, v, v', c.
      cbn [vehicles customers rentals rentalHistory].
      repeat (split; [assumption || reflexivity|]).
      split; [intros q Hq; rewrite lookup_store_set;
              destruct (Nat.eqb_spec p q); [congruence|reflexivity]|].
      split; [reflexivity|]. split; [reflexivity|]. split.
      { unfold history_line. rewrite Hbrand, Hmodel, Hreg. do 2 f_equal.
        unfold getVehicle in Hg. rewrite find_vehicle_find_by in Hg.
        destruct Hinv as [Hvp _ _ _ _ _].
        destruct (find_by_lookup _ _ _ _ Hvp Hg) as (v0 & Hl0 & Hk).
        assert (v0 = v) by congruence. subst v0. now rewrite Hk. }
      split; [assumption|].
      pose proof (is_rented_false_drop m before after r p Hinv Hrs Hp) as Hfree.
      assert (Hstored : In p (map fst (vehicles m)))
        by (apply in_map_iff; exists (p, v); split;
            [reflexivity|now apply lookup_In]).
      assert (Hwas : is_rented m p = true).
      { unfold is_rented. rewrite Hrs, existsb_app. cbn [existsb].
        rewrite (proj2 (ptr_eqb_true (vehicle r) p) Hp).
        now rewrite orb_true_r. }
      assert (Hothers : forall q, q <> p ->
                existsb (fun r' => ptr_eqb (vehicle r') q) (before ++ after)
                = is_rented m q).
      { intros q Hq. unfold is_rented. rewrite Hrs, !existsb_app. cbn [existsb].
        rewrite Hp. cbn [ptr_eqb].
        destruct (Nat.eqb_spec p q) as [->|_]; [congruence|reflexivity]. }
      split; [|split].
      { apply findAvailableVehicles_In. cbn [vehicles].
        rewrite map_fst_store_set. split; [assumption|exact Hfree]. }
      { rewrite findAvailableVehicles_In. intros [_ H]. congruence. }
      intros q. rewrite !findAvailableVehicles_In. cbn [vehicles].
      rewrite map_fst_store_set. unfold is_rented at 1. cbn [rentals].
      destruct (Nat.eq_dec q p) as [->|Hq].
      { rewrite Hfree. split; [auto|]. intros _. auto. }
      rewrite (Hothers q Hq). split; [auto|]. intros [H|H]; [congruence|exact H].
Qed.

Lemma returnVehicle_correct_witness :
  reachable demo_manager
  /\ returnVehicle "KR7777" 250000 demo_manager
     = Raised (invalid_argument "Rental not found for this vehicle.")
         demo_manager
  /\ (exists e, returnVehicle "WA12345" 15000 demo_manager
                = Raised e demo_manager)
  /\ returnVehicle "WA12345" 15200.5 demo_manager = Done 400%float demo_returned
  /\ rentals demo_returned = []
  /\ findAvailableVehicles demo_manager = [2%nat]
  /\ ~ In 1%nat (findAvailableVehicles demo_manager)
  /\ In 1%nat (findAvailableVehicles demo_returned).
Proof.
  split; [exact demo_reachable|].
  split.
  { apply (returnVehicle_correct demo_manager "KR7777" 250000 demo_reachable).
    reflexivity. }
  split.
  { apply (proj1 (proj2 (returnVehicle_correct demo_manager "WA12345" 15000
                           demo_reachable)) 1%nat demo_car); reflexivity. }
  assert (Hdone : returnVehicle "WA12345" 15200.5 demo_manager
                  = Done 400%float demo_returned) by (vm_compute; reflexivity).
  split; [exact Hdone|].
  destruct (proj2 (proj2 (returnVehicle_correct demo_manager "WA12345" 15200.5
                            demo_reachable)) _ _ Hdone)
    as (before & r & after & p & v & v' & c & Hsplit & _ & _ & Hp & _ & _ & _
        & _ & _ & _ & _ & Hrentals & _ & _ & Havailable & Hbefore & _).
  assert (p = 1%nat) by (vm_compute in Hp; congruence). subst p.
  split; [|split; [reflexivity|split; [exact Hbefore|exact Havailable]]].
  rewrite Hrentals.
  destruct before as [|r0 [|r1 before]]; cbn in Hsplit.
  - injection Hsplit as _ <-. reflexivity.
  - injection Hsplit as _ Hnil. discriminate Hnil.
  - injection Hsplit as _ Hnil. discriminate Hnil.
Defined.

(** ** The rental status of a vehicle *)

Lemma is_rented_has_reg (m : VehicleManager) (reg : string) (p : ptr) :
  manager_inv m -> getVehicle m reg = Some p ->
  is_rented m p = existsb (has_reg m reg) (rentals m).
Proof.
  intros Hinv Hg. pose proof (manager_inv_rentals_vehicle m Hinv) as Hrv.
  destruct Hinv as [Hvp _ _ _ _ _].
  unfold getVehicle in Hg. rewrite find_vehicle_find_by in Hg.
  destruct (find_by_lookup _ _ _ _ Hvp Hg) as (v & Hl & Hk).
  unfold is_rented. rewrite Forall_forall in Hrv.
  destruct (existsb (has_reg m reg) (rentals m)) eqn:Hex.
  - apply existsb_exists in Hex as (r & Hin & Hr).
    apply existsb_exists. exists r. split; [assumption|].
    destruct (rental_reg_of_vehicle m r (Hrv r Hin)) as (p' & v' & Hp' & _ & Hf & _ & Hreg).
    unfold has_reg in Hr. rewrite Hreg in Hr. apply String.eqb_eq in Hr.
    rewrite Hr, find_vehicle_find_by, Hg in Hf. injection Hf as <-.
    now apply ptr_eqb_true.
  - destruct (existsb (fun r => ptr_eqb (vehicle r) p) (rentals m)) eqn:Hex';
      [|reflexivity].
    apply existsb_exists in Hex' as (r & Hin & Hr). apply ptr_eqb_true in Hr.
    assert (Hreg : has_reg m reg r = true).
    { unfold has_reg, rental_reg, rental_vehicle. rewrite Hr, Hl. cbn [option_map].
      now apply String.eqb_eq. }
    assert (existsb (has_reg m reg) (rentals m) = true)
      by (apply existsb_exists; eauto).
    congruence.
Qed.

Lemma rentVehicle_Done (m m' : VehicleManager) (reg cid start end_ : string) :
  manager_inv m -> rentVehicle reg cid start end_ m = Done tt m' ->
  exists p q,
    getVehicle m reg = Some p /\ getCustomer m cid = Some q
    /\ existsb (has_reg m reg) (rentals m) = false
    /\ m' = mkVehicleManager (vehicles m) (customers m)
              (rentals m ++ [mkRental (Some p) (Some q) start end_])
              (rentalHistory m).
Proof.
  intros Hinv. pose proof (manager_inv_rentals_vehicle m Hinv) as Hrv.
  unfold rentVehicle.
  destruct (getVehicle m reg) as [p|]; [|discriminate].
  destruct (getCustomer m cid) as [q|]; [|discriminate].
  rewrite (rented_scan_ok m reg _ Hrv).
  destruct (existsb (has_reg m reg) (rentals m)); [discriminate|].
  destruct (Rental_ctor (Some p) (Some q) start end_) as [r| |] eqn:Hctor;
    try discriminate.
  apply Rental_ctor_Ok in Hctor as (_ & _ & _ & _ & ->).
  intros [= <-]. exists p, q. auto.
Qed.

Lemma rentVehicle_already_rented (m : VehicleManager) (reg cid start end_ : string) :
  manager_inv m -> existsb (has_reg m reg) (rentals m) = true ->
  rentVehicle reg cid start end_ m
  = Raised (invalid_argument
              match getCustomer m cid with
              | Some _ => "Vehicle is already rented."
              | None => "Customer not found."
              end) m.
Proof.
  intros Hinv Hex. pose proof (manager_inv_rentals_vehicle m Hinv) as Hrv.
  unfold rentVehicle.
  destruct (getVehicle m reg) as [p|] eqn:Hg.
  - destruct (getCustomer m cid) as [q|]; [|reflexivity].
    now rewrite (rented_scan_ok m reg _ Hrv), Hex.
  - exfalso. apply existsb_exists in Hex as (r & Hin & Hr).
    rewrite Forall_forall in Hrv.
    destruct (rental_reg_of_vehicle m r (Hrv r Hin)) as (p & v & _ & _ & Hf & _ & Hreg).
    unfold has_reg in Hr. rewrite Hreg in Hr. apply String.eqb_eq in Hr.
    unfold getVehicle in Hg. congruence.
Qed.

Lemma rentals_unchanged {DT : DoubleText} (c : call) (m m' : VehicleManager) :
  manager_inv m -> run c m = Done tt m' ->
  match c with
  | call_addVehicle _ | call_removeVehicle _ | call_addCustomer _
  | call_removeCustomer _ => rentals m' = rentals m
  | _ => True
  end.
Proof.
  intros Hinv.
  pose proof (manager_inv_rentals_vehicle m Hinv) as Hrv.
  pose proof (manager_inv_rentals_customer m Hinv) as Hrc.
  destruct c as [v|reg|c|id|reg cid start end_|reg newMileage|file]; cbn [run]; auto.
  - destruct v as [v|]; cbn [addVehicle]; [|discriminate].
    destruct (isRegNumberUnique m (getRegNumber v)); cbn [negb]; [|discriminate].
    now intros [= <-].
  - unfold removeVehicle. rewrite (rented_scan_ok m reg _ Hrv).
    destruct (existsb (has_reg m reg) (rentals m)); [discriminate|].
    destruct (existsb _ (vehicles m)); [|discriminate]. now intros [= <-].
  - destruct c as [c|]; cbn [addCustomer]; [|discriminate].
    destruct (isCustomerIdUnique m (getId c)); cbn [negb]; [|discriminate].
    now intros [= <-].
  - unfold removeCustomer. rewrite (renting_scan_ok m id _ Hrc).
    destruct (existsb (has_id m id) (rentals m)); [discriminate|].
    destruct (existsb _ (customers m)); [|discriminate]. now intros [= <-].
Qed.

Lemma removeVehicle_Done (m m' : VehicleManager) (reg : string) :
  manager_inv m -> removeVehicle reg m = Done tt m' ->
  existsb (has_reg m reg) (rentals m) = false
  /\ m' = mkVehicleManager
            (filter (fun pv => negb (getRegNumber (snd pv) =? reg)%string) (vehicles m))
            (customers m) (rentals m) (rentalHistory m).
Proof.
  intros Hinv. pose proof (manager_inv_rentals_vehicle m Hinv) as Hrv.
  unfold removeVehicle. rewrite (rented_scan_ok m reg _ Hrv).
  destruct (existsb (has_reg m reg) (rentals m)); [discriminate|].
  destruct (existsb _ (vehicles m)); [|discriminate]. now intros [= <-].
Qed.

(** The status of a vehicle changes only by a successful [rentVehicle] or
    [returnVehicle] of its registration, or by [loadFromFile] of a file
    that opens. *)
Lemma status_change {DT : DoubleText} (c : call) (m m' : VehicleManager) (p : ptr) :
  manager_inv m -> leaves c m m' ->
  (is_rented m p = false -> is_rented m' p = true ->
   (exists reg cid start end_,
       c = call_rentVehicle reg cid start end_ /\ run c m = Done tt m'
       /\ getVehicle m reg = Some p)
   \/ exists file, c = call_loadFromFile (Some file))
  /\ (is_rented m p = true -> is_rented m' p = false ->
      (exists reg newMileage,
          c = call_returnVehicle reg newMileage /\ run c m = Done tt m'
          /\ getVehicle m reg = Some p)
      \/ exists file, c = call_loadFromFile (Some file)).
Proof.
  intros Hinv Hleaves.
  assert (Hload : (exists file, c = call_loadFromFile (Some file))
                  \/ (c = call_loadFromFile None /\ m' = m)
                  \/ forall file, c <> call_loadFromFile file).
  { destruct c as [v|reg|c|id|reg cid start end_|reg newMileage|[file|]];
      try (right; right; intros file; discriminate).
    - left. eauto.
    - right. left. split; [reflexivity|].
      destruct Hleaves as [H|[e H]]; cbn in H; congruence. }
  destruct Hload as [Hload|[[_ ->]|Hnl]].
  { split; intros; right; exact Hload. }
  { split; intros; congruence. }
  destruct Hleaves as [Hdone|[e Hraised]].
  2:{ apply raised_unchanged in Hraised; try assumption. subst m'.
      split; intros; congruence. }
  pose proof (rentals_unchanged c m m' Hinv Hdone) as Hsame.
  unfold is_rented.
  destruct c as [v|reg|c|id|reg cid start end_|reg newMileage|file];
    try (rewrite Hsame; split; intros; congruence).
  - cbn [run] in Hdone.
    destruct (rentVehicle_Done m m' reg cid start end_ Hinv Hdone)
      as (p0 & q & Hg & _ & _ & ->).
    cbn [rentals]. rewrite existsb_app. cbn [existsb vehicle ptr_eqb]. split.
    + intros H0 H1. rewrite H0 in H1. cbn [orb] in H1. rewrite orb_false_r in H1.
      apply Nat.eqb_eq in H1. subst p0. left. exists reg, cid, start, end_. auto.
    + intros H1 H0. rewrite H1 in H0. discriminate.
  - cbn [run] in Hdone.
    destruct (returnVehicle_cases m reg newMileage Hinv)
      as [[_ Hret]|(before & r & after & p0 & v & c & Hrs & _ & Hp & _ & Hg & _ & Hcase)];
      [rewrite Hret in Hdone; discriminate|].
    destruct Hcase as [(e & _ & Hret)|(v' & cost & _ & _ & Hret)];
      rewrite Hret in Hdone; [discriminate|].
    injection Hdone as <-. cbn [rentals]. rewrite Hrs, !existsb_app. cbn [existsb].
    split.
    + intros H0 H1. apply orb_false_elim in H0 as [Hb H0].
      apply orb_false_elim in H0 as [_ Ha]. rewrite Hb, Ha in H1. discriminate.
    + intros H1 H0. apply orb_false_elim in H0 as [Hb Ha]. rewrite Hb, Ha in H1.
      cbn [orb] in H1. rewrite orb_false_r in H1. apply ptr_eqb_true in H1.
      assert (p0 = p) by congruence. subst p0.
      left. exists reg, newMileage. cbn [run]. rewrite Hret. auto.
  - now specialize (Hnl file).
Qed.

(** C4, amended. In every manager reachable by the public member functions,
    at most one active rental refers to a vehicle. [rentVehicle] on a
    vehicle that has an active rental always throws and leaves the manager
    unchanged: "Vehicle is already rented." when the customer id is that of
    a stored customer, "Customer not found." when it is not, as the
    customer is looked up before the rentals are scanned. So after a
    [rentVehicle] that returned, a second one for the same registration
    and customer throws "Vehicle is already rented.". A vehicle becomes
    rented only by a [rentVehicle] of its registration that returns, and
    available again only by a [returnVehicle] of its registration that
    returns, or else by a [loadFromFile] of a file that opens, which
    destroys every object and rental and rebuilds the manager from the
    file; and [removeVehicle] removes only vehicles that are not rented. *)
Theorem one_rental_per_vehicle {DT : DoubleText} (m : VehicleManager) :
  reachable m ->
  (forall p : ptr,
      (List.length (filter (fun r => ptr_eqb (vehicle r) p) (rentals m)) <= 1)%nat)
  /\ (forall (reg cid start end_ : string) (p : ptr),
         getVehicle m reg = Some p -> is_rented m p = true ->
         rentVehicle reg cid start end_ m
         = Raised (invalid_argument
                     match getCustomer m cid with
                     | Some _ => "Vehicle is already rented."
                     | None => "Customer not found."
                     end) m)
  /\ (forall (reg cid start end_ : string) (m' : VehicleManager),
         rentVehicle reg cid start end_ m = Done tt m' ->
         forall start' end',
           rentVehicle reg cid start' end' m'
           = Raised (invalid_argument "Vehicle is already rented.") m')
  /\ (forall (c : call) (m' : VehicleManager) (p : ptr),
         leaves c m m' ->
         (is_rented m p = false -> is_rented m' p = true ->
          (exists reg cid start end_,
              c = call_rentVehicle reg cid start end_ /\ run c m = Done tt m'
              /\ getVehicle m reg = Some p)
          \/ exists file, c = call_loadFromFile (Some file))
         /\ (is_rented m p = true -> is_rented m' p = false ->
             (exists reg newMileage,
                 c = call_returnVehicle reg newMileage /\ run c m = Done tt m'
                 /\ getVehicle m reg = Some p)
             \/ exists file, c = call_loadFromFile (Some file)))
  /\ (forall (reg : string) (m' : VehicleManager),
         removeVehicle reg m = Done tt m' ->
         forall p v, In (p, v) (vehicles m) -> getRegNumber v = reg ->
                     is_rented m p = false).
Proof.
  intros Hreach. pose proof (reachable_inv m Hreach) as Hinv.
  split; [|split; [|split; [|split]]].
  - intros p. now apply rented_at_most_once.
  - intros reg cid start end_ p Hg Hr.
    rewrite (is_rented_has_reg m reg p Hinv Hg) in Hr.
    now apply rentVehicle_already_rented.
  - intros reg cid start end_ m' Hdone start' end'.
    pose proof (rentVehicle_inv m reg cid start end_ Hinv) as Hinv'.
    rewrite Hdone in Hinv'. cbn [ends_in] in Hinv'.
    destruct (rentVehicle_Done m m' reg cid start end_ Hinv Hdone)
      as (p & q & Hg & Hc & _ & ->).
    rewrite (rentVehicle_already_rented _ reg cid start' end' Hinv').
    + unfold getCustomer in *. cbn [customers]. now rewrite Hc.
    + cbn [rentals]. rewrite existsb_app. apply orb_true_intro. right.
      cbn [existsb]. rewrite orb_false_r.
      unfold has_reg, rental_reg, rental_vehicle. cbn [vehicle vehicles].
      destruct Hinv as [Hvp _ _ _ _ _].
      unfold getVehicle in Hg. rewrite find_vehicle_find_by in Hg.
      destruct (find_by_lookup _ _ _ _ Hvp Hg) as (v & Hl & Hk).
      rewrite Hl. cbn [option_map]. now apply String.eqb_eq.
  - intros c m' p Hleaves. now apply status_change.
  - intros reg m' Hdone p v Hin Hreg.
    destruct (removeVehicle_Done m m' reg Hinv Hdone) as (Hex & _).
    unfold is_rented.
    destruct (existsb (fun r => ptr_eqb (vehicle r) p) (rentals m)) eqn:Hr;
      [|reflexivity].
    apply existsb_exists in Hr as (r & Hinr & Hr). apply ptr_eqb_true in Hr.
    destruct Hinv as [Hvp _ _ _ _ _].
    pose proof (In_lookup _ _ _ Hvp Hin) as Hl.
    assert (has_reg m reg r = true).
    { unfold has_reg, rental_reg, rental_vehicle. rewrite Hr, Hl. cbn [option_map].
      now apply String.eqb_eq. }
    assert (existsb (has_reg m reg) (rentals m) = true)
      by (apply existsb_exists; eauto).
    congruence.
Qed.

Lemma one_rental_per_vehicle_witness :
  reachable demo_manager
  /\ (List.length (filter (fun r => ptr_eqb (vehicle r) 1%nat)
                     (rentals demo_manager)) <= 1)%nat
  /\ getVehicle demo_manager "WA12345" = Some 1%nat
  /\ is_rented demo_manager 1%nat = true
  /\ rentVehicle "WA12345" "1234567890" "2024-02-01" "2024-02-03" demo_manager
     = Raised (invalid_argument "Vehicle is already rented.") demo_manager.
Proof.
  destruct (one_rental_per_vehicle demo_manager demo_reachable)
    as (Honce & Hrented & _).
  split; [exact demo_reachable|].
  split; [apply Honce|].
  split; [reflexivity|]. split; [reflexivity|].
  exact (Hrented "WA12345" "1234567890" "2024-02-01" "2024-02-03" 1%nat
           eq_refl eq_refl).
Defined.

(** C4, as stated. The car "WA12345" of the fleet is rented; [rentVehicle]
    for it with a customer id the manager does not hold throws "Customer
    not found.", not "Vehicle is already rented.". *)
Lemma rentVehicle_rented_unknown_customer :
  reachable demo_manager
  /\ getVehicle demo_manager "WA12345" = Some 1%nat
  /\ is_rented demo_manager 1%nat = true
  /\ getCustomer demo_manager "XYZ000111" = None
  /\ rentVehicle "WA12345" "XYZ000111" "2024-02-01" "2024-02-03" demo_manager
     = Raised (invalid_argument "Customer not found.") demo_manager.
Proof. split; [exact demo_reachable|]. repeat split; reflexivity. Qed.

(** * Saving and loading *)

(** ** Text of integers *)

Lemma append_assoc (a b c : string) : ((a ++ b) ++ c = a ++ (b ++ c))%string.
Proof. induction a as [|x a IH]; cbn; [reflexivity|now rewrite IH]. Qed.

Lemma append_empty_r (a : string) : (a ++ "")%string = a.
Proof. induction a as [|x a IH]; cbn; [reflexivity|now rewrite IH]. Qed.

Lemma read_digits_uint (d : uint) : forall acc : Z,
  read_digits (NilEmpty.string_of_uint d) acc
  = Z.of_N (Unsigned.of_lu (rev d)) + acc * 10 ^ Z.of_N (Unsigned.usize d).
Proof.
  induction d as [|d IH|d IH|d IH|d IH|d IH|d IH|d IH|d IH|d IH|d IH]; intros acc;
    [cbn; lia|..];
    cbn [NilEmpty.string_of_uint read_digits];
    match goal with
    | |- context [isdigit ?c] => change (isdigit c) with true; cbv iota
    end;
    rewrite IH; set (R := Unsigned.of_lu (rev d)); unfold rev; cbn [revapp];
    rewrite (Unsigned.of_lu_revapp d); fold R; cbn [Unsigned.of_lu Unsigned.usize];
    rewrite N2Z.inj_succ, Z.pow_succ_r by lia;
    rewrite N2Z.inj_add, N2Z.inj_mul, N2Z.inj_pow;
    match goal with
    | |- context [digit_value ?c] =>
        let v := eval vm_compute in (digit_value c) in
        change (digit_value c) with v
    end;
    change (Z.of_N 10) with 10;
    cbn [Z.of_N N.mul N.add Pos.mul Pos.add]; ring.
Qed.

Lemma string_of_uint_digits (d : uint) :
  all_digits (NilEmpty.string_of_uint d) = true.
Proof.
  induction d; cbn [NilEmpty.string_of_uint all_digits]; [reflexivity|..];
    rewrite IHd; reflexivity.
Qed.

Lemma string_of_uint_not_empty (d : uint) :
  d <> Nil -> NilEmpty.string_of_uint d <> EmptyString.
Proof. destruct d; cbn; congruence. Qed.

Lemma stoi_digits (s : string) :
  all_digits s = true -> s <> EmptyString ->
  INT_MIN <= read_digits s 0 <= INT_MAX -> stoi s = Ok (read_digits s 0).
Proof.
  intros Hd Hne Hb. destruct s as [|c r]; [congruence|].
  cbn [all_digits] in Hd. apply andb_prop in Hd as [Hc Hr].
  unfold stoi. cbn [skip_spaces]. rewrite (isdigit_not_space c Hc).
  rewrite (isdigit_not_minus c Hc), (isdigit_not_plus c Hc), Hc.
  replace ((INT_MIN <=? read_digits (String c r) 0)
           && (read_digits (String c r) 0 <=? INT_MAX)) with true; [reflexivity|].
  symmetry. apply andb_true_intro. split; lia.
Qed.

Lemma read_digits_to_uint (p : positive) :
  read_digits (NilEmpty.string_of_uint (Pos.to_uint p)) 0 = Z.pos p.
Proof.
  rewrite read_digits_uint, <- Unsigned.of_uint_alt, Unsigned.of_to. cbn. lia.
Qed.

Lemma stoi_show_int (z : Z) : INT_MIN <= z <= INT_MAX -> stoi (show_int z) = Ok z.
Proof.
  intros Hz. unfold show_int. destruct z as [|p|p]; cbn [Z.to_int NilZero.string_of_int].
  - reflexivity.
  - pose proof (Unsigned.to_uint_nonnil p) as Hnil.
    replace (NilZero.string_of_uint (Pos.to_uint p))
      with (NilEmpty.string_of_uint (Pos.to_uint p))
      by (destruct (Pos.to_uint p); [congruence|reflexivity..]).
    rewrite stoi_digits; rewrite ?read_digits_to_uint;
      auto using string_of_uint_digits, string_of_uint_not_empty.
  - pose proof (Unsigned.to_uint_nonnil p) as Hnil.
    replace (NilZero.string_of_uint (Pos.to_uint p))
      with (NilEmpty.string_of_uint (Pos.to_uint p))
      by (destruct (Pos.to_uint p); [congruence|reflexivity..]).
    pose proof (string_of_uint_digits (Pos.to_uint p)) as Hd.
    pose proof (string_of_uint_not_empty _ Hnil) as Hne.
    pose proof (read_digits_to_uint p) as Hv.
    destruct (NilEmpty.string_of_uint (Pos.to_uint p)) as [|c r]; [congruence|].
    cbn [all_digits] in Hd. apply andb_prop in Hd as [Hc Hr].
    unfold stoi. cbn [skip_spaces].
    change (isspace "-") with false. cbv iota.
    change (Ascii.eqb "-" "-") with true. cbv iota.
    rewrite Hc, Hv.
    replace ((INT_MIN <=? - Z.pos p) && (- Z.pos p <=? INT_MAX)) with true;
      [reflexivity|].
    symmetry. apply andb_true_intro. split; lia.
Qed.

Lemma all_digits_lacks (c : ascii) (s : string) :
  isdigit c = false -> all_digits s = true -> lacks c s = true.
Proof.
  intros Hc. induction s as [|a r IH]; cbn [all_digits lacks]; [reflexivity|].
  intros H. apply andb_prop in H as [Ha Hr]. rewrite (IH Hr), andb_true_r.
  destruct (Ascii.eqb_spec a c) as [->|]; [congruence|reflexivity].
Qed.

Lemma show_int_lacks (c : ascii) (z : Z) :
  isdigit c = false -> Ascii.eqb "-" c = false -> lacks c (show_int z) = true.
Proof.
  intros Hc Hm. unfold show_int.
  assert (H : forall d, lacks c (NilZero.string_of_uint d) = true).
  { intros d. destruct d; try (apply all_digits_lacks;
                               [exact Hc|apply string_of_uint_digits]).
    apply all_digits_lacks; [exact Hc|reflexivity]. }
  destruct z as [|p|p]; cbn [Z.to_int NilZero.string_of_int]; try apply H.
  cbn [lacks]. rewrite Hm, H. reflexivity.
Qed.

Lemma show_int_plain (z : Z) : plain (show_int z) = true.
Proof. unfold plain. rewrite !show_int_lacks; reflexivity. Qed.

Lemma show_int_not_empty (z : Z) : show_int z <> EmptyString.
Proof.
  unfold show_int. destruct z as [|p|p]; cbn; try discriminate.
  pose proof (Unsigned.to_uint_nonnil p) as Hnil.
  destruct (Pos.to_uint p); cbn; congruence.
Qed.

(** ** Lines and fields *)

Lemma read_until_lacks (delim : ascii) (s rest : string) :
  lacks delim s = true ->
  read_until delim (s ++ String delim rest) = (s, rest).
Proof.
  induction s as [|a r IH]; cbn [lacks String.append read_until]; intros H.
  - now rewrite Ascii.eqb_refl.
  - apply andb_prop in H as [Ha Hr]. apply negb_true_iff in Ha.
    rewrite Ha, (IH Hr). reflexivity.
Qed.

Lemma read_until_lacks_end (delim : ascii) (s : string) :
  lacks delim s = true -> read_until delim s = (s, EmptyString).
Proof.
  induction s as [|a r IH]; cbn [lacks read_until]; intros H; [reflexivity|].
  apply andb_prop in H as [Ha Hr]. apply negb_true_iff in Ha.
  rewrite Ha, (IH Hr). reflexivity.
Qed.

Lemma getline_line (line rest : string) :
  lacks newline line = true ->
  getline newline (line ++ nl ++ rest) = Some (line, rest).
Proof.
  intros H. unfold getline, nl. cbn [String.append].
  rewrite (read_until_lacks newline line rest H).
  destruct line; reflexivity.
Qed.

Lemma join_with_cons (f g : string) (fs : list string) (tail : string) :
  join_with (f :: g :: fs) tail = (f ++ ";" ++ join_with (g :: fs) tail)%string.
Proof. reflexivity. Qed.

Lemma join_with_one (f tail : string) : join_with [f] tail = (f ++ tail)%string.
Proof. reflexivity. Qed.

Lemma join_with_app (fs : list string) (tail rest : string) :
  (join_with fs tail ++ rest)%string = join_with fs (tail ++ rest).
Proof.
  induction fs as [|f fs IH]; [reflexivity|].
  destruct fs as [|g fs].
  - apply append_assoc.
  - rewrite !join_with_cons, append_assoc. cbn [String.append]. now rewrite IH.
Qed.

Lemma lacks_app (c : ascii) (a b : string) :
  lacks c (a ++ b) = lacks c a && lacks c b.
Proof.
  induction a as [|x a IH]; cbn [String.append lacks]; [reflexivity|].
  now rewrite IH, andb_assoc.
Qed.

Lemma lacks_join_with (c : ascii) (fs : list string) :
  Ascii.eqb ";" c = false -> Forall (fun f => lacks c f = true) fs ->
  lacks c (join_with fs "") = true.
Proof.
  intros Hc H. induction H as [|f fs Hf Hfs IH]; [reflexivity|].
  destruct fs as [|g fs].
  - now rewrite join_with_one, append_empty_r.
  - rewrite join_with_cons, lacks_app, Hf. cbn [String.append lacks].
    now rewrite Hc, IH.
Qed.

Lemma length_append (a b : string) :
  String.length (a ++ b) = (String.length a + String.length b)%nat.
Proof. induction a as [|x a IH]; cbn; [reflexivity|now rewrite IH]. Qed.

Lemma split_loop_join (fs : list string) : forall fuel : nat,
  fs <> [] -> Forall (fun f => lacks ";" f = true) fs -> last fs "" <> "" ->
  (String.length (join_with fs "") < fuel)%nat ->
  split_loop fuel (join_with fs "") = fs.
Proof.
  induction fs as [|f fs IH]; intros fuel Hne Hplain Hlast Hfuel; [congruence|].
  inversion Hplain as [|? ? Hf Hfs]; subst.
  destruct fuel as [|fuel]; [lia|].
  destruct fs as [|g fs].
  - rewrite join_with_one, append_empty_r in *. cbn [last] in Hlast.
    cbn [split_loop]. unfold getline.
    destruct f as [|a f]; [congruence|].
    rewrite (read_until_lacks_end _ _ Hf).
    destruct fuel; reflexivity.
  - rewrite join_with_cons in *. cbn [split_loop]. unfold getline.
    cbn [String.append] in *.
    rewrite length_append in Hfuel. cbn [String.length] in Hfuel.
    rewrite (read_until_lacks ";" f _ Hf).
    assert (Hs : (f ++ String ";" (join_with (g :: fs) ""))%string <> "")
      by (destruct f; discriminate).
    destruct (f ++ String ";" (join_with (g :: fs) ""))%string eqn:E; [congruence|].
    rewrite IH; [reflexivity|discriminate|assumption|exact Hlast|lia].
Qed.

Lemma split_join (fs : list string) :
  fs <> [] -> Forall (fun f => plain f = true) fs -> last fs "" <> "" ->
  split (join_with fs "") = fs.
Proof.
  intros Hne Hplain Hlast. apply split_loop_join; auto.
  eapply Forall_impl; [|exact Hplain].
  intros f H. unfold plain in H. now apply andb_prop in H as [H _].
Qed.

Lemma plain_lacks_newline (fs : list string) :
  Forall (fun f => plain f = true) fs ->
  lacks newline (join_with fs "") = true.
Proof.
  intros H. apply lacks_join_with; [reflexivity|].
  eapply Forall_impl; [|exact H].
  intros f Hf. unfold plain in Hf. now apply andb_prop in Hf as [_ Hf].
Qed.

(** Reading back one saved line: [getline] returns it and [split] its
    fields. *)
Lemma getline_record (fs : list string) (rest : string) :
  Forall (fun f => plain f = true) fs ->
  getline newline (join_with fs nl ++ rest)
  = Some (join_with fs "", rest).
Proof.
  intros H. rewrite join_with_app.
  replace (join_with fs (nl ++ rest)) with (join_with fs "" ++ nl ++ rest)%string
    by (rewrite join_with_app; reflexivity).
  apply getline_line, plain_lacks_newline, H.
Qed.

Section Records.
Context {DT : DoubleText}.

Lemma vehicle_record_fields (v : Vehicle) :
  vehicle_record v = join_with (vehicle_fields v) nl.
Proof. destruct v; reflexivity. Qed.

Lemma customer_record_fields (c : Customer) :
  customer_record c = join_with (customer_fields c) nl.
Proof. destruct c; reflexivity. Qed.

Ltac eval_tests :=
  repeat match goal with
         | |- context [String.eqb ?a ?b] =>
             let r := eval vm_compute in (String.eqb a b) in
             change (String.eqb a b) with r
         | |- context [Nat.leb ?a ?b] =>
             let r := eval vm_compute in (Nat.leb a b) in
             change (Nat.leb a b) with r
         end;
  cbn [andb].

Lemma vehicle_fields_plain (v : Vehicle) :
  vehicle_savable v -> Forall (fun f => plain f = true) (vehicle_fields v).
Proof.
  destruct v as [b c d|b bat d|b c cap|b c]; cbn [vehicle_savable vehicle_fields];
    unfold base_savable, combustion_savable, reads_back; intros H;
    repeat match goal with
           | H : _ /\ _ |- _ => destruct H
           end;
    repeat (apply Forall_cons;
            [first [assumption|apply show_int_plain|reflexivity]|]);
    apply Forall_nil.
Qed.

Lemma vehicle_fields_last (v : Vehicle) :
  vehicle_savable v -> last (vehicle_fields v) "" <> "".
Proof.
  destruct v as [b c d|b bat d|b c cap|b c]; cbn [vehicle_savable vehicle_fields last];
    unfold base_savable, combustion_savable, reads_back; intros H;
    repeat match goal with
           | H : _ /\ _ |- _ => destruct H
           end;
    first [apply show_int_not_empty|assumption].
Qed.

Lemma parse_vehicle_fields (v : Vehicle) :
  constructed v -> vehicle_savable v ->
  parse_vehicle (vehicle_fields v) = Ok (Some v).
Proof.
  unfold constructed.
  destruct v as [b c d|b bat d|b c cap|b c];
    cbn [vehicle_savable vehicle_fields reconstruct];
    unfold base_savable, combustion_savable, reads_back, is_int; intros Hc H;
    repeat match goal with
           | H : _ /\ _ |- _ => destruct H
           end;
    unfold parse_vehicle, part; cbn [nth List.length]; eval_tests;
    rewrite ?stoi_show_int by (split; assumption);
    cbn [bind];
    repeat match goal with
           | H : stod _ = Converted _ |- _ => rewrite H; clear H
           end;
    cbn [bind conversion_result]; rewrite Hc; reflexivity.
Qed.

Lemma customer_fields_plain (c : Customer) :
  constructed_customer c -> customer_savable c ->
  Forall (fun f => plain f = true) (customer_fields c).
Proof.
  intros Hc (Hn & Ha & Hi). apply constructed_customer_okb in Hc.
  unfold customer_okb in Hc.
  repeat (apply andb_prop in Hc as [Hc ?]).
  destruct c as [b idc|b nip]; cbn [customer_fields];
    match goal with
    | H : (_ =? _)%string = true |- _ => apply String.eqb_eq in H
    end;
    repeat (apply Forall_cons; [first [assumption|reflexivity|idtac]|]);
    try apply Forall_nil; unfold getId in *; cbn [customer_base] in *; congruence.
Qed.

Lemma customer_fields_last (c : Customer) :
  constructed_customer c -> last (customer_fields c) "" <> "".
Proof.
  intros Hc. apply constructed_customer_okb in Hc. unfold customer_okb in Hc.
  repeat (apply andb_prop in Hc as [Hc ?]).
  destruct c as [b idc|b nip]; cbn [customer_fields last];
    match goal with
    | H : (_ =? _)%string = true |- _ => apply String.eqb_eq in H
    end;
    unfold getId in *; cbn [customer_base] in *; subst; intros E; rewrite E in *;
    discriminate.
Qed.

Lemma parse_customer_fields (c : Customer) :
  constructed_customer c -> parse_customer (customer_fields c) = Ok (Some c).
Proof.
  unfold constructed_customer.
  destruct c as [b idc|b nip]; cbn [customer_fields reconstruct_customer];
    intros Hc; unfold parse_customer, part; cbn [nth List.length]; eval_tests;
    unfold getName, getAddress; cbn [customer_base]; rewrite Hc; reflexivity.
Qed.

End Records.

Lemma concat_cons (x : string) (xs : list string) :
  String.concat "" (x :: xs) = (x ++ String.concat "" xs)%string.
Proof. destruct xs; cbn [String.concat]; [now rewrite append_empty_r|reflexivity]. Qed.

Lemma push_all_snd {A : Type} (vs : list A) : forall store : list (ptr * A),
  map snd (push_all store vs) = map snd store ++ vs.
Proof.
  induction vs as [|v vs IH]; intros store; cbn [push_all fold_left].
  - now rewrite app_nil_r.
  - fold (push_all (store ++ [(new_ptr store, v)]) vs).
    rewrite IH, map_app, <- app_assoc. reflexivity.
Qed.

Lemma push_all_NoDup {A : Type} (vs : list A) : forall store : list (ptr * A),
  NoDup (map fst store) -> NoDup (map fst (push_all store vs)).
Proof.
  induction vs as [|v vs IH]; intros store H; cbn [push_all fold_left]; [exact H|].
  apply IH, NoDup_push, H.
Qed.

Section Loops.
Context {DT : DoubleText}.

Lemma read_count_saved (n : nat) (rest : string) :
  is_int (Z.of_nat n) ->
  read_count (show_int (Z.of_nat n) ++ nl ++ rest) = Ok (Z.of_nat n, rest).
Proof.
  intros Hn. unfold read_count.
  rewrite getline_line by (apply show_int_lacks; reflexivity).
  rewrite stoi_show_int by exact Hn. reflexivity.
Qed.

Lemma load_vehicles_saved (vs : list Vehicle) : forall (rest : string) (m : VehicleManager),
  Forall constructed vs -> Forall vehicle_savable vs ->
  load_vehicles (List.length vs)
    (String.concat "" (map vehicle_record vs) ++ rest) m
  = Done rest (mkVehicleManager (push_all (vehicles m) vs) (customers m)
                 (rentals m) (rentalHistory m)).
Proof.
  induction vs as [|v vs IH]; intros rest m Hc Hs.
  - destruct m. reflexivity.
  - inversion Hc as [|? ? Hcv Hcvs]; inversion Hs as [|? ? Hsv Hsvs]; subst.
    cbn [map List.length]. rewrite concat_cons, append_assoc.
    cbn [load_vehicles].
    rewrite vehicle_record_fields,
      (getline_record _ _ (vehicle_fields_plain v Hsv)).
    rewrite (split_join (vehicle_fields v));
      [|destruct v; discriminate|apply vehicle_fields_plain, Hsv
       |apply vehicle_fields_last, Hsv].
    replace (List.length (vehicle_fields v) =? 0)%nat with false
      by (destruct v; reflexivity).
    rewrite (parse_vehicle_fields v Hcv Hsv).
    rewrite (IH rest _ Hcvs Hsvs). reflexivity.
Qed.

Lemma load_customers_saved (cs : list Customer) : forall (rest : string) (m : VehicleManager),
  Forall constructed_customer cs -> Forall customer_savable cs ->
  load_customers (List.length cs)
    (String.concat "" (map customer_record cs) ++ rest) m
  = Done rest (mkVehicleManager (vehicles m) (push_all (customers m) cs)
                 (rentals m) (rentalHistory m)).
Proof.
  induction cs as [|c cs IH]; intros rest m Hc Hs.
  - destruct m. reflexivity.
  - inversion Hc as [|? ? Hcv Hcvs]; inversion Hs as [|? ? Hsv Hsvs]; subst.
    cbn [map List.length]. rewrite concat_cons, append_assoc.
    cbn [load_customers].
    rewrite customer_record_fields,
      (getline_record _ _ (customer_fields_plain c Hcv Hsv)).
    rewrite (split_join (customer_fields c));
      [|destruct c; discriminate|apply customer_fields_plain; assumption
       |apply customer_fields_last, Hcv].
    replace (List.length (customer_fields c) =? 0)%nat with false
      by (destruct c; reflexivity).
    rewrite (parse_customer_fields c Hcv).
    rewrite (IH rest _ Hcvs Hsvs). reflexivity.
Qed.

Lemma load_history_saved (hs : list string) : forall acc : list string,
  Forall (fun entry => lacks newline entry = true) hs ->
  load_history (List.length hs)
    (String.concat "" (map (fun entry => entry ++ nl)%string hs)) acc
  = acc ++ hs.
Proof.
  induction hs as [|h hs IH]; intros acc H.
  - cbn. now rewrite app_nil_r.
  - inversion H as [|? ? Hh Hhs]; subst.
    cbn [map List.length]. rewrite concat_cons, append_assoc.
    cbn [load_history]. rewrite (getline_line h _ Hh).
    rewrite (IH _ Hhs), <- app_assoc. reflexivity.
Qed.

End Loops.

(** ** Replaying the rentals *)

Lemma find_by_same_values {A : Type} (key : A -> string) (k : string)
    (store : list (ptr * A)) : forall (store1 : list (ptr * A)) (p : ptr) (a : A),
  NoDup (map fst store) -> NoDup (map fst store1) ->
  map snd store1 = map snd store ->
  find_by key k store = Some p -> lookup p store = Some a ->
  exists p1, find_by key k store1 = Some p1 /\ lookup p1 store1 = Some a.
Proof.
  induction store as [|[q x] rest IH]; intros store1 p a Hnd Hnd1 Hsnd Hf Hl;
    [discriminate|].
  destruct store1 as [|[q1 x1] rest1]; [discriminate|].
  cbn [map fst snd] in *. injection Hsnd as -> Hsnd.
  inversion Hnd as [|? ? Hq Hrest]; inversion Hnd1 as [|? ? Hq1 Hrest1]; subst.
  cbn [find_by lookup] in *.
  destruct (key x =? k)%string.
  - injection Hf as <-. rewrite Nat.eqb_refl in Hl. exists q1.
    now rewrite Nat.eqb_refl.
  - destruct (find_by_In key _ _ _ Hf) as (b & Hin & _).
    assert (Hqp : Nat.eqb q p = false).
    { apply Nat.eqb_neq. intros ->. apply Hq.
      apply (in_map fst) in Hin. exact Hin. }
    rewrite Hqp in Hl.
    destruct (IH rest1 p a Hrest Hrest1 Hsnd Hf Hl) as (p1 & Hf1 & Hl1).
    exists p1. split; [exact Hf1|].
    destruct (find_by_In key _ _ _ Hf1) as (b1 & Hin1 & _).
    replace (Nat.eqb q1 p1) with false; [exact Hl1|].
    symmetry. apply Nat.eqb_neq. intros ->. apply Hq1.
    apply (in_map fst) in Hin1. exact Hin1.
Qed.

Lemma digit_char_lacks (c d : ascii) :
  isdigit d = false -> digit_char c -> Ascii.eqb c d = false.
Proof.
  intros Hd Hc. apply isdigit_digit_char in Hc.
  destruct (Ascii.eqb_spec c d) as [->|]; [congruence|reflexivity].
Qed.

Lemma valid_date_plain (s : string) : valid_date s -> plain s = true.
Proof.
  intros (y1 & y2 & y3 & y4 & m1 & m2 & d1 & d2 & -> & Hd & _).
  repeat match goal with
         | H : Forall _ (_ :: _) |- _ =>
             let Hc := fresh "Hc" in
             let Hr := fresh "Hr" in
             inversion H as [|? ? Hc Hr]; subst; clear H
         end.
  unfold plain. cbn [string_of_list_ascii lacks].
  repeat match goal with
         | H : digit_char ?c |- _ =>
             rewrite (digit_char_lacks c ";" eq_refl H),
               (digit_char_lacks c newline eq_refl H); clear H
         end.
  reflexivity.
Qed.

Lemma valid_date_not_nil (s : string) : valid_date s -> s <> EmptyString.
Proof. intros (y1 & y2 & y3 & y4 & m1 & m2 & d1 & d2 & -> & _). discriminate. Qed.

Lemma Rental_ctor_valid (p q : ptr) (start end_ : string) :
  valid_date start -> valid_date end_ -> String.leb end_ start = false ->
  Rental_ctor (Some p) (Some q) start end_
  = Ok (mkRental (Some p) (Some q) start end_).
Proof.
  intros Hs He Hle. unfold Rental_ctor.
  apply isValidDate_valid_date in Hs, He. rewrite Hs, He. cbn [bind negb].
  rewrite Hle. reflexivity.
Qed.

Lemma rentVehicle_succeeds (m : VehicleManager) (reg cid start end_ : string)
    (p q : ptr) :
  manager_inv m -> getVehicle m reg = Some p -> getCustomer m cid = Some q ->
  existsb (has_reg m reg) (rentals m) = false ->
  valid_date start -> valid_date end_ -> String.leb end_ start = false ->
  rentVehicle reg cid start end_ m
  = Done tt (mkVehicleManager (vehicles m) (customers m)
               (rentals m ++ [mkRental (Some p) (Some q) start end_])
               (rentalHistory m)).
Proof.
  intros Hinv Hv Hc Hfree Hs He Hle. unfold rentVehicle.
  rewrite Hv, Hc, (rented_scan_ok m reg _ (manager_inv_rentals_vehicle m Hinv)), Hfree.
  rewrite (Rental_ctor_valid p q start end_ Hs He Hle). reflexivity.
Qed.

Lemma existsb_has_reg (m : VehicleManager) (reg : string) (rs : list Rental) :
  existsb (has_reg m reg) rs
  = existsb (fun o : option string =>
               match o with
               | Some g => (g =? reg)%string
               | None => false
               end) (map (rental_reg m) rs).
Proof. induction rs as [|r rs IH]; cbn; [reflexivity|now rewrite IH]. Qed.

Lemma rental_view_reg (m m1 : VehicleManager) (rs rs1 : list Rental) :
  map (rental_view m1) rs1 = map (rental_view m) rs ->
  map (rental_reg m1) rs1 = map (rental_reg m) rs.
Proof.
  intros H.
  apply (f_equal (map (fun v : option Vehicle * option Customer * string * string =>
                         option_map getRegNumber (fst (fst (fst v)))))) in H.
  rewrite !map_map in H. exact H.
Qed.

Section Replay.

Context {DT : DoubleText}.
Variable m : VehicleManager.
Hypothesis Hinv : manager_inv m.
Hypothesis Hsav : savable m.

Lemma vehicle_savable_reg (v : Vehicle) :
  vehicle_savable v -> plain (getRegNumber v) = true.
Proof.
  destruct v; cbn [vehicle_savable]; unfold base_savable; intros H;
    repeat match goal with
           | H : _ /\ _ |- _ => destruct H
           end; assumption.
Qed.

Lemma rental_ok_fields (r : Rental) :
  rental_ok m r ->
  exists p v q c,
    lookup p (vehicles m) = Some v
    /\ find_vehicle (getRegNumber v) (vehicles m) = Some p
    /\ lookup q (customers m) = Some c
    /\ find_customer (getId c) (customers m) = Some q
    /\ rental_view m r = (Some v, Some c, startDate r, endDate r)
    /\ rental_fields m r = [getRegNumber v; getId c; startDate r; endDate r]
    /\ Forall (fun f => plain f = true) (rental_fields m r).
Proof.
  intros ((p & v & Hp & Hv & Hfv) & (q & c & Hq & Hc & Hfc) & Hs & He & _).
  exists p, v, q, c.
  assert (Hfields : rental_fields m r
                    = [getRegNumber v; getId c; startDate r; endDate r]).
  { unfold rental_fields, rental_vehicle, rental_customer.
    now rewrite Hp, Hq, Hv, Hc. }
  repeat (split; [assumption|]).
  split.
  { unfold rental_view, rental_vehicle, rental_customer.
    now rewrite Hp, Hq, Hv, Hc. }
  split; [exact Hfields|]. rewrite Hfields.
  destruct Hsav as (Hvs & Hcs & _).
  rewrite Forall_forall in Hvs, Hcs.
  pose proof (Hvs _ (lookup_In _ _ _ Hv)) as Hsv.
  pose proof (Hcs _ (lookup_In _ _ _ Hc)) as (_ & _ & Hid).
  repeat (apply Forall_cons;
          [first [apply vehicle_savable_reg, Hsv|exact Hid
                 |apply valid_date_plain; assumption]|]).
  apply Forall_nil.
Qed.

Lemma rental_records_fields (rs : list Rental) :
  Forall (rental_ok m) rs ->
  rental_records m rs
  = Ok (String.concat "" (map (fun r => join_with (rental_fields m r) nl) rs)).
Proof.
  induction 1 as [|r rs Hr Hrs IH]; [reflexivity|].
  cbn [rental_records map]. rewrite IH, concat_cons.
  destruct (rental_ok_fields r Hr) as (p & v & q & c & _ & _ & _ & _ & Hview & Hf & _).
  unfold rental_view in Hview. injection Hview as Hv Hc.
  unfold rental_record. rewrite Hv, Hc, Hf. reflexivity.
Qed.

Lemma load_rentals_saved (rs : list Rental) :
  forall (done : list Rental) (m1 : VehicleManager) (rest : string),
  rentals m = done ++ rs ->
  manager_inv m1 ->
  map snd (vehicles m1) = map snd (vehicles m) ->
  map snd (customers m1) = map snd (customers m) ->
  map (rental_view m1) (rentals m1) = map (rental_view m) done ->
  exists m2,
    load_rentals (List.length rs)
      (String.concat "" (map (fun r => join_with (rental_fields m r) nl) rs) ++ rest)
      m1
    = Done rest m2
    /\ vehicles m2 = vehicles m1 /\ customers m2 = customers m1
    /\ rentalHistory m2 = rentalHistory m1
    /\ map (rental_view m2) (rentals m2) = map (rental_view m) (rentals m).
Proof.
  induction rs as [|r rs IH]; intros done m1 rest Hsplit Hinv1 Hvs Hcs Hview.
  - exists m1. rewrite app_nil_r in Hsplit. rewrite Hsplit. auto.
  - assert (Hr : rental_ok m r).
    { pose proof (inv_rentals m Hinv) as Hall. rewrite Forall_forall in Hall.
      apply Hall. rewrite Hsplit. apply in_elt. }
    destruct (rental_ok_fields r Hr)
      as (p & v & q & c & Hv & Hfv & Hc & Hfc & Hrv & Hf & Hplain).
    destruct Hr as (_ & _ & Hs & He & Hle).
    destruct (find_by_same_values getRegNumber (getRegNumber v) (vehicles m)
                (vehicles m1) p v (inv_vehicle_ptrs m Hinv)
                (inv_vehicle_ptrs m1 Hinv1) Hvs)
      as (p1 & Hfv1 & Hv1); [now rewrite <- find_vehicle_find_by|exact Hv|].
    destruct (find_by_same_values getId (getId c) (customers m)
                (customers m1) q c (inv_customer_ptrs m Hinv)
                (inv_customer_ptrs m1 Hinv1) Hcs)
      as (q1 & Hfc1 & Hc1); [now rewrite <- find_customer_find_by|exact Hc|].
    rewrite <- find_vehicle_find_by in Hfv1.
    rewrite <- find_customer_find_by in Hfc1.
    assert (Hfree : existsb (has_reg m1 (getRegNumber v)) (rentals m1) = false).
    { rewrite existsb_has_reg, (rental_view_reg m m1 done _ Hview).
      rewrite <- existsb_has_reg.
      destruct (existsb (has_reg m (getRegNumber v)) done) eqn:E; [|reflexivity].
      exfalso. apply existsb_exists in E as (r0 & Hin & Hreg).
      unfold has_reg in Hreg.
      destruct (rental_reg m r0) as [g|] eqn:Hg; [|discriminate].
      apply String.eqb_eq in Hreg. subst g.
      pose proof (inv_rented_once m Hinv) as Hnd.
      rewrite Hsplit, map_app in Hnd. cbn [map] in Hnd.
      apply NoDup_remove_2 in Hnd. apply Hnd, in_or_app. left.
      replace (rental_reg m r) with (Some (getRegNumber v)).
      - rewrite <- Hg. apply in_map, Hin.
      - unfold rental_reg. unfold rental_view in Hrv.
        injection Hrv as -> _. reflexivity. }
    pose proof (rentVehicle_succeeds m1 (getRegNumber v) (getId c) (startDate r)
                  (endDate r) p1 q1 Hinv1 Hfv1 Hfc1 Hfree Hs He Hle) as Hrent.
    pose proof (rentVehicle_inv m1 (getRegNumber v) (getId c) (startDate r)
                  (endDate r) Hinv1) as Hinv2.
    rewrite Hrent in Hinv2. cbn [ends_in] in Hinv2.
    cbn [map List.length]. rewrite concat_cons, append_assoc.
    cbn [load_rentals].
    rewrite (getline_record _ _ Hplain).
    rewrite (split_join (rental_fields m r));
      [|rewrite Hf; discriminate|exact Hplain
       |rewrite Hf; cbn [last]; apply valid_date_not_nil, He].
    rewrite Hf. cbn [List.length part nth]. change (4 <? 4)%nat with false.
    cbv iota. rewrite Hrent.
    destruct (IH (done ++ [r])
                (mkVehicleManager (vehicles m1) (customers m1)
                   (rentals m1
                    ++ [mkRental (Some p1) (Some q1) (startDate r) (endDate r)])
                   (rentalHistory m1)) rest)
      as (m2 & Hload & Hv2 & Hc2 & Hh2 & Hview2).
    + rewrite <- app_assoc. exact Hsplit.
    + exact Hinv2.
    + exact Hvs.
    + exact Hcs.
    + cbn [rentals]. rewrite !map_app. cbn [map]. f_equal; [exact Hview|].
      rewrite Hrv. unfold rental_view, rental_vehicle, rental_customer.
      cbn [vehicle customer vehicles customers startDate endDate].
      now rewrite Hv1, Hc1.
    + exists m2. split; [exact Hload|]. auto.
Qed.

End Replay.

Lemma manager_inv_loaded (vs : list Vehicle) (cs : list Customer) (hs : list string) :
  Forall constructed vs -> Forall constructed_customer cs ->
  manager_inv (mkVehicleManager (push_all [] vs) (push_all [] cs) [] hs).
Proof.
  intros Hvs Hcs. constructor; cbn [vehicles customers rentals map].
  - apply push_all_NoDup. constructor.
  - apply push_all_NoDup. constructor.
  - constructor.
  - constructor.
  - apply (Forall_map snd constructed). now rewrite push_all_snd.
  - apply (Forall_map snd constructed_customer). now rewrite push_all_snd.
Qed.

(** C8, amended. A reachable manager whose text fields hold no [;] and no
    line break, whose numbers are read back from their text and whose
    history lines hold no line break is saved to a text from which
    [loadFromFile], into any manager, rebuilds the same vehicles, the same
    customers, the same active rentals (by the vehicle, the customer and
    the dates of each) and the same history lines, each in the same order. *)
Theorem save_load_round_trip {DT : DoubleText} (m m0 : VehicleManager) :
  reachable m -> savable m ->
  exists (text : string) (m' : VehicleManager),
    saveToFile true m = Ok text
    /\ loadFromFile (Some text) m0 = Done tt m'
    /\ snapshot m' = snapshot m.
Proof.
  intros Hreach Hsav. pose proof (reachable_inv m Hreach) as Hinv.
  pose proof Hsav as (Hvs & Hcs & Hhs & Hnv & Hnc & Hnr & Hnh).
  assert (Hcv : Forall constructed (map snd (vehicles m)))
    by (apply Forall_map, (inv_vehicles m Hinv)).
  assert (Hcc : Forall constructed_customer (map snd (customers m)))
    by (apply Forall_map, (inv_customers m Hinv)).
  assert (Hsv : Forall vehicle_savable (map snd (vehicles m)))
    by (apply Forall_map, Hvs).
  assert (Hsc : Forall customer_savable (map snd (customers m)))
    by (apply Forall_map, Hcs).
  unfold saveToFile. cbn [negb].
  rewrite (rental_records_fields m Hsav _ (inv_rentals m Hinv)). cbn [bind].
  eexists.
  set (m1 := mkVehicleManager (push_all [] (map snd (vehicles m)))
               (push_all [] (map snd (customers m))) [] (rentalHistory m0)).
  destruct (load_rentals_saved m Hinv Hsav (rentals m) [] m1
              (show_int (Z.of_nat (List.length (rentalHistory m))) ++ nl
               ++ String.concat "" (map (fun entry => entry ++ nl) (rentalHistory m)))%string
              eq_refl (manager_inv_loaded _ _ _ Hcv Hcc))
    as (m2 & Hload & Hv2 & Hc2 & Hh2 & Hview);
    [apply push_all_snd|apply push_all_snd|reflexivity|].
  exists (mkVehicleManager (vehicles m2) (customers m2) (rentals m2) (rentalHistory m)).
  split; [reflexivity|]. split.
  - unfold loadFromFile.
    rewrite (read_count_saved _ _ Hnv). cbn [lift and_then].
    rewrite Nat2Z.id, <- (map_map snd vehicle_record), <- (length_map snd (vehicles m)).
    rewrite (load_vehicles_saved _ _ _ Hcv Hsv). cbn [and_then vehicles customers rentals rentalHistory].
    rewrite (read_count_saved _ _ Hnc). cbn [lift and_then].
    rewrite Nat2Z.id, <- (map_map snd customer_record), <- (length_map snd (customers m)).
    rewrite (load_customers_saved _ _ _ Hcc Hsc). cbn [and_then vehicles customers rentals rentalHistory].
    rewrite (read_count_saved _ _ Hnr). cbn [lift and_then].
    rewrite Nat2Z.id. fold m1. rewrite Hload. cbn [and_then].
    rewrite (read_count_saved _ _ Hnh). cbn [lift and_then].
    rewrite Nat2Z.id.
    rewrite (load_history_saved _ [] Hhs). reflexivity.
  - unfold snapshot. cbn [vehicles customers rentals rentalHistory].
    rewrite (map_ext _ (rental_view m2) (fun r => eq_refl)), Hview, Hv2, Hc2.
    unfold m1. cbn [vehicles customers].
    rewrite !push_all_snd. reflexivity.
Qed.

Lemma demo_season_reachable : reachable demo_season.
Proof.
  apply (reachable_run_all
           [call_returnVehicle "WA12345" 15200.5;
            call_rentVehicle "KR7777" "1234567890" "2024-02-01" "2024-02-03"]
           demo_manager).
  - exact demo_reachable.
  - repeat (apply Forall_cons; [exact I|]). apply Forall_nil.
  - vm_compute. reflexivity.
Qed.

Lemma listed_manager_reachable : reachable listed_manager.
Proof.
  apply (reachable_call (call_addCustomer (Some listed_customer))
           VehicleManager_new).
  - apply reachable_new.
  - reflexivity.
  - left. reflexivity.
Qed.

Lemma worn_manager_reachable : reachable worn_manager.
Proof.
  apply (reachable_call (call_addVehicle (Some worn_car)) VehicleManager_new).
  - apply reachable_new.
  - reflexivity.
  - left. reflexivity.
Qed.

Ltac savable_fields :=
  repeat match goal with
         | |- _ /\ _ => split
         | |- Forall _ [] => apply Forall_nil
         | |- Forall _ (_ :: _) => apply Forall_cons
         | |- vehicle_savable _ =>
             cbn [snd vehicle_savable];
             unfold base_savable, combustion_savable, reads_back
         | |- customer_savable _ =>
             cbn [snd]; unfold customer_savable
         | |- is_int _ => unfold is_int, INT_MIN, INT_MAX; cbn; lia
         | |- _ <> EmptyString => vm_compute; discriminate
         | |- _ = _ => vm_compute; reflexivity
         end.

Lemma demo_season_savable : savable demo_season.
Proof.
  unfold savable, demo_season. cbn [vehicles customers rentals rentalHistory].
  savable_fields.
Qed.

Lemma save_load_round_trip_witness :
  reachable demo_season /\ savable demo_season
  /\ exists (text : string) (m' : VehicleManager),
      saveToFile true demo_season = Ok text
      /\ loadFromFile (Some text) VehicleManager_new = Done tt m'
      /\ snapshot m' = snapshot demo_season.
Proof.
  split; [exact demo_season_reachable|]. split; [exact demo_season_savable|].
  exact (save_load_round_trip demo_season VehicleManager_new
           demo_season_reachable demo_season_savable).
Defined.

(** C8, as stated. One customer whose name is "Kowalski; Jan": the line
    saved for them has five fields, and [loadFromFile] rebuilds a customer
    of name "Kowalski", address " Jan" and id "Warszawa". *)
Lemma round_trip_splits_name :
  reachable listed_manager
  /\ exists text : string,
      saveToFile true listed_manager = Ok text
      /\ loadFromFile (Some text) VehicleManager_new
         = Done tt (mkVehicleManager []
                      [(1%nat,
                        PrivateCustomer
                          (Customer.mk_base "Warszawa" "Kowalski" " Jan")
                          "Warszawa")] [] [])
      /\ snapshot listed_manager
         <> snapshot (mkVehicleManager []
                        [(1%nat,
                          PrivateCustomer
                            (Customer.mk_base "Warszawa" "Kowalski" " Jan")
                            "Warszawa")] [] []).
Proof.
  split; [exact listed_manager_reachable|].
  eexists. split; [reflexivity|]. split; [vm_compute; reflexivity|].
  unfold snapshot, listed_manager, listed_customer. cbn. intros H. discriminate H.
Qed.

(** With the text [operator<<] writes for a [double] (six significant
    digits), a mileage of 123456.7 is saved as 123457 and read back as
    that. *)
Lemma round_trip_rounds_mileage :
  reachable worn_manager
  /\ exists text : string,
      saveToFile true worn_manager = Ok text
      /\ loadFromFile (Some text) VehicleManager_new
         = Done tt (mkVehicleManager
                      [(1%nat,
                        CombustionCar
                          (mkVehicle_base "WA12345" "Toyota" "Corolla" 123457 100
                             LicenceCategory_B)
                          (mkCombustionVehicle_part 1600 6.5 FuelType_Gasoline) 4)]
                      [] [] []).
Proof.
  split; [exact worn_manager_reachable|].
  eexists. split; [reflexivity|]. vm_compute. reflexivity.
Qed.

(** ** What [loadFromFile] keeps of the manager it is called on *)

Lemma rented_scan_with_history (h : list string) (m : VehicleManager) (reg : string)
    (rs : list Rental) :
  rented_scan (with_history h m) reg rs = rented_scan m reg rs.
Proof.
  induction rs as [|r rs IH]; cbn [rented_scan]; [reflexivity|].
  change (rental_vehicle (with_history h m) r) with (rental_vehicle m r).
  now rewrite IH.
Qed.

Lemma rentVehicle_with_history (h : list string) (m : VehicleManager)
    (reg cid start end_ : string) :
  rentVehicle reg cid start end_ (with_history h m)
  = outcome_with_history h (rentVehicle reg cid start end_ m).
Proof.
  unfold rentVehicle.
  change (getVehicle (with_history h m) reg) with (getVehicle m reg).
  change (getCustomer (with_history h m) cid) with (getCustomer m cid).
  change (rentals (with_history h m)) with (rentals m).
  rewrite rented_scan_with_history.
  destruct (getVehicle m reg) as [p|]; [|reflexivity].
  destruct (getCustomer m cid) as [q|]; [|reflexivity].
  destruct (rented_scan m reg (rentals m)) as [[|]|e|]; try reflexivity.
  destruct (Rental_ctor (Some p) (Some q) start end_); reflexivity.
Qed.


Section History.

Context {DT : DoubleText}.


Lemma and_then_with_history {A B : Type} (h : list string) (o : outcome A)
    (k : A -> VehicleManager -> outcome B) :
  (forall a m, k a (with_history h m) = outcome_with_history h (k a m)) ->
  and_then (outcome_with_history h o) k = outcome_with_history h (and_then o k).
Proof. intros Hk. destruct o; cbn; auto. Qed.




End History.

(** ** Rebuilding the manager from a file *)


Lemma push_all_cons {A : Type} (store : list (ptr * A)) (a : A) (l : list A) :
  push_all store (a :: l) = push_all (store ++ [(new_ptr store, a)]) l.
Proof. reflexivity. Qed.

Section Rebuilding.

Context {DT : DoubleText}.








Lemma replay_rental_with_history (h : list string) (m : VehicleManager)
    (line : string) :
  replay_rental (with_history h m) line = with_history h (replay_rental m line).
Proof.
  unfold replay_rental.
  destruct (split line) as [|reg [|cid [|start [|end_ more]]]]; try reflexivity.
  rewrite rentVehicle_with_history.
  destruct (rentVehicle reg cid start end_ m) as [x m'|e m'|]; reflexivity.
Qed.

Lemma replay_with_history (h : list string) (lines : list string) :
  forall m : VehicleManager,
  fold_left replay_rental lines (with_history h m)
  = with_history h (fold_left replay_rental lines m).
Proof.
  induction lines as [|line lines IH]; intros m; [reflexivity|].
  cbn [fold_left]. now rewrite replay_rental_with_history, IH.
Qed.




End Rebuilding.


(** The history is cleared last: when the first line of the file is no
    number, [std::stoi] throws out of [loadFromFile] with the vehicles,
    customers and rentals gone and the history still there. *)
Lemma loadFromFile_throw_keeps_history :
  loadFromFile (Some "data") demo_season
  = Raised (invalid_argument "stoi")
      (mkVehicleManager [] [] [] (rentalHistory demo_season))
  /\ rentalHistory demo_season
     = ["Toyota Corolla (WA12345);Jan Kowalski (ABC123456);2024-01-01;2024-01-05;400"].
Proof. split; reflexivity. Qed.

(** * The invariant of the manager *)

(** Every manager the public member functions produce from a new one
    satisfies the invariant: the stored objects have distinct addresses,
    every active rental points at a stored vehicle and a stored customer
    that [getVehicle] and [getCustomer] find under their registration and
    id, has two valid dates with the end after the start, no two active
    rentals are of the same registration, and every stored vehicle and
    customer passes the checks of its constructor. In particular no call
    has undefined behaviour: no rental holds a dangling pointer. *)
Theorem reachable_manager_invariant {DT : DoubleText} (m : VehicleManager) :
  reachable m ->
  manager_inv m
  /\ forall c : call, call_ok c -> run c m <> UB.
Proof.
  intros Hreach. pose proof (reachable_inv m Hreach) as Hinv.
  split; [exact Hinv|].
  intros c Hc Hub. pose proof (run_inv c m Hinv Hc) as H.
  rewrite Hub in H. exact H.
Qed.

Lemma reachable_manager_invariant_witness :
  reachable demo_manager
  /\ manager_inv demo_manager
  /\ run (call_returnVehicle "WA12345" 15200.5) demo_manager <> UB.
Proof.
  split; [exact demo_reachable|].
  destruct (reachable_manager_invariant demo_manager demo_reachable) as [Hinv Hrun].
  split; [exact Hinv|]. apply Hrun. exact I.
Defined.

(** * Further properties of the manager *)

(** ** Available vehicles *)

Lemma NoDup_map_compose {A B C : Type} (h : A -> B) (g : B -> C) (l : list A) :
  NoDup (map (fun x => g (h x)) l) -> NoDup (map h l).
Proof.
  induction l as [|a l IH]; cbn [map]; intros H; [constructor|].
  inversion H as [|? ? Hnotin Hnd]; subst. constructor; [|now apply IH].
  intros Hin. apply Hnotin. apply in_map_iff in Hin as (x & Hx & Hin).
  apply in_map_iff. exists x. split; [now rewrite Hx|exact Hin].
Qed.

Lemma rental_pointers_NoDup (m : VehicleManager) :
  manager_inv m -> NoDup (map vehicle (rentals m)).
Proof.
  intros Hinv.
  apply (NoDup_map_compose vehicle
           (fun o : option ptr =>
              option_map getRegNumber
                match o with
                | Some p => lookup p (vehicles m)
                | None => None
                end)).
  exact (inv_rented_once m Hinv).
Qed.

Lemma is_rented_In (m : VehicleManager) (p : ptr) :
  is_rented m p = true <-> In (Some p) (map vehicle (rentals m)).
Proof.
  unfold is_rented. rewrite existsb_exists. split.
  - intros (r & Hin & Hp). apply in_map_iff. exists r. split; [|exact Hin].
    destruct (vehicle r) as [q|]; [|discriminate]. cbn in Hp.
    apply Nat.eqb_eq in Hp. now subst.
  - intros Hin. apply in_map_iff in Hin as (r & Hr & Hin). exists r.
    split; [exact Hin|]. rewrite Hr. cbn. apply Nat.eqb_refl.
Qed.

Lemma lookup_Some_In {A : Type} (store : list (ptr * A)) (p : ptr) :
  In p (map fst store) <-> exists a, lookup p store = Some a.
Proof.
  induction store as [|[q x] rest IH]; cbn [map fst lookup In].
  - split; [contradiction|intros [a H]; discriminate].
  - destruct (Nat.eqb_spec q p) as [->|Hne].
    + split; [eauto|auto].
    + rewrite <- IH. split; [intros [H|H]; [contradiction|exact H]|auto].
Qed.

Lemma NoDup_map_Some {A : Type} (l : list A) : NoDup l -> NoDup (map Some l).
Proof.
  induction 1 as [|a l Hnotin Hnd IH]; cbn [map]; constructor; [|exact IH].
  intros Hin. apply in_map_iff in Hin as (b & Hb & Hin). injection Hb as ->.
  contradiction.
Qed.

Lemma filter_length_split {A : Type} (f : A -> bool) (l : list A) :
  (List.length (filter f l) + List.length (filter (fun x => negb (f x)) l)
   = List.length l)%nat.
Proof.
  induction l as [|a l IH]; cbn [filter]; [reflexivity|].
  destruct (f a); cbn [negb List.length]; lia.
Qed.

(** On a reachable manager, [findAvailableVehicles] returns the addresses
    of exactly the stored vehicles no active rental points at, each once,
    and every active rental takes one vehicle out of the list: the
    available vehicles and the active rentals together count the fleet. *)
Theorem findAvailableVehicles_complement {DT : DoubleText} (m : VehicleManager) :
  reachable m ->
  (forall p : ptr,
      In p (findAvailableVehicles m)
      <-> (exists v, lookup p (vehicles m) = Some v) /\ is_rented m p = false)
  /\ NoDup (findAvailableVehicles m)
  /\ (List.length (findAvailableVehicles m) + List.length (rentals m)
      = List.length (vehicles m))%nat.
Proof.
  intros Hreach. pose proof (reachable_inv m Hreach) as Hinv.
  pose proof (inv_vehicle_ptrs m Hinv) as Hnd.
  assert (Hmem : forall p : ptr,
             In p (findAvailableVehicles m)
             <-> (exists v, lookup p (vehicles m) = Some v) /\ is_rented m p = false).
  { intros p. unfold findAvailableVehicles. rewrite in_map_iff. split.
    - intros ([q v] & Hq & Hin). cbn [fst] in Hq. subst q.
      apply filter_In in Hin as [Hin Hfree]. cbn [fst] in Hfree.
      apply negb_true_iff in Hfree. split; [|exact Hfree].
      exists v. now apply In_lookup.
    - intros [[v Hv] Hfree]. exists (p, v). split; [reflexivity|].
      apply filter_In. split; [now apply lookup_In|].
      cbn [fst]. apply negb_true_iff. exact Hfree. }
  split; [exact Hmem|]. split.
  { unfold findAvailableVehicles. now apply NoDup_map_fst_filter. }
  unfold findAvailableVehicles. rewrite length_map.
  pose proof (filter_length_split
                (fun pv : ptr * Vehicle => is_rented m (fst pv)) (vehicles m)) as Hsplit.
  unfold is_rented in Hsplit at 2. rewrite <- Hsplit.
  rewrite Nat.add_comm. f_equal.
  set (rented := map fst (filter (fun pv : ptr * Vehicle => is_rented m (fst pv))
                            (vehicles m))).
  assert (Hrented : NoDup (map Some rented)).
  { apply NoDup_map_Some. unfold rented. now apply NoDup_map_fst_filter. }
  pose proof (rental_pointers_NoDup m Hinv) as Hrentals.
  assert (Hlen : List.length (map Some rented) = List.length (map vehicle (rentals m))).
  { apply Nat.le_antisymm; apply NoDup_incl_length; try assumption.
    - intros o Ho. apply in_map_iff in Ho as (p & <- & Hp).
      unfold rented in Hp. apply in_map_iff in Hp as ([q v] & Hq & Hin).
      cbn [fst] in Hq. subst q. apply filter_In in Hin as [_ Hr].
      now apply is_rented_In.
    - intros o Ho. pose proof Ho as Ho'.
      apply in_map_iff in Ho as (r & Hr & Hin).
      pose proof (manager_inv_rentals_vehicle m Hinv) as Hall.
      rewrite Forall_forall in Hall.
      destruct (Hall r Hin) as (p & v & Hp & Hv & _).
      rewrite Hp in Hr. subst o. apply in_map. unfold rented.
      apply in_map_iff. exists (p, v). split; [reflexivity|].
      apply filter_In. split; [now apply lookup_In|].
      cbn [fst]. now apply is_rented_In. }
  rewrite !length_map in Hlen. unfold rented in Hlen. rewrite length_map in Hlen.
  symmetry. exact Hlen.
Qed.

Lemma findAvailableVehicles_complement_witness :
  reachable demo_manager
  /\ findAvailableVehicles demo_manager = [2%nat]
  /\ (List.length (findAvailableVehicles demo_manager)
      + List.length (rentals demo_manager)
      = List.length (vehicles demo_manager))%nat.
Proof.
  split; [exact demo_reachable|]. split; [reflexivity|].
  apply (findAvailableVehicles_complement demo_manager demo_reachable).
Defined.

(** ** What one call does to the manager *)

(** The manager a call other than [loadFromFile] leaves: the one it was
    called on, or that one with the single change of the call. *)
Lemma call_effect {DT : DoubleText} (c : call) (m m' : VehicleManager) :
  manager_inv m -> (forall file, c <> call_loadFromFile file) -> leaves c m m' ->
  m' = m
  \/ (exists v,
         c = call_addVehicle (Some v)
         /\ isRegNumberUnique m (getRegNumber v) = true
         /\ m' = mkVehicleManager (vehicles m ++ [(new_ptr (vehicles m), v)])
                   (customers m) (rentals m) (rentalHistory m))
  \/ (exists reg,
         c = call_removeVehicle reg
         /\ existsb (has_reg m reg) (rentals m) = false
         /\ m' = mkVehicleManager
                   (filter (fun pv => negb (getRegNumber (snd pv) =? reg)%string)
                      (vehicles m))
                   (customers m) (rentals m) (rentalHistory m))
  \/ (exists k,
         c = call_addCustomer (Some k)
         /\ isCustomerIdUnique m (getId k) = true
         /\ m' = mkVehicleManager (vehicles m)
                   (customers m ++ [(new_ptr (customers m), k)])
                   (rentals m) (rentalHistory m))
  \/ (exists id,
         c = call_removeCustomer id
         /\ existsb (has_id m id) (rentals m) = false
         /\ m' = mkVehicleManager (vehicles m)
                   (filter (fun pc => negb (getId (snd pc) =? id)%string)
                      (customers m))
                   (rentals m) (rentalHistory m))
  \/ (exists reg cid start end_ p q,
         c = call_rentVehicle reg cid start end_
         /\ getVehicle m reg = Some p /\ getCustomer m cid = Some q
         /\ existsb (has_reg m reg) (rentals m) = false
         /\ m' = mkVehicleManager (vehicles m) (customers m)
                   (rentals m ++ [mkRental (Some p) (Some q) start end_])
                   (rentalHistory m))
  \/ (exists reg newMileage before r after p v v' k cost,
         c = call_returnVehicle reg newMileage
         /\ rentals m = before ++ r :: after
         /\ vehicle r = Some p /\ lookup p (vehicles m) = Some v
         /\ rental_customer m r = Some k
         /\ setMileage newMileage v = Ok v'
         /\ calculateTotalCost (vehicles m) r = Ok cost
         /\ returnVehicle reg newMileage m = Done cost m'
         /\ m' = mkVehicleManager (store_set p v' (vehicles m)) (customers m)
                   (before ++ after)
                   (rentalHistory m ++ [history_line v' k r cost])).
Proof.
  intros Hinv Hnl [Hdone|[e Hraised]].
  2: { left. exact (raised_unchanged c m m' e Hinv Hnl Hraised). }
  pose proof (manager_inv_rentals_vehicle m Hinv) as Hrv.
  pose proof (manager_inv_rentals_customer m Hinv) as Hrc.
  destruct c as [v|reg|k|id|reg cid start end_|reg newMileage|file]; cbn [run] in Hdone.
  - destruct v as [v|]; cbn [addVehicle] in Hdone; [|discriminate].
    destruct (isRegNumberUnique m (getRegNumber v)) eqn:Hu; cbn [negb] in Hdone;
      [|discriminate].
    injection Hdone as <-. right. left. exists v. auto.
  - destruct (removeVehicle_Done m m' reg Hinv Hdone) as [Hfree ->].
    right. right. left. exists reg. auto.
  - destruct k as [k|]; cbn [addCustomer] in Hdone; [|discriminate].
    destruct (isCustomerIdUnique m (getId k)) eqn:Hu; cbn [negb] in Hdone;
      [|discriminate].
    injection Hdone as <-. do 3 right. left. exists k. auto.
  - unfold removeCustomer in Hdone. rewrite (renting_scan_ok m id _ Hrc) in Hdone.
    destruct (existsb (has_id m id) (rentals m)) eqn:Hfree; [discriminate|].
    destruct (existsb _ (customers m)); [|discriminate].
    injection Hdone as <-. do 4 right. left. exists id. auto.
  - destruct (rentVehicle_Done m m' reg cid start end_ Hinv Hdone)
      as (p & q & Hp & Hq & Hfree & ->).
    do 5 right. left. exists reg, cid, start, end_, p, q. auto.
  - destruct (returnVehicle_cases m reg newMileage Hinv)
      as [[_ Hr]|(before & r & after & p & v & k & Hrs & _ & Hp & Hv & _ & Hk
                  & [(e & _ & Hr)|(v' & cost & Hset & Hcost & Hr)])];
      rewrite Hr in Hdone; cbn [forget] in Hdone; try discriminate.
    injection Hdone as <-. do 6 right.
    exists reg, newMileage, before, r, after, p, v, v', k, cost. auto 12.
  - now specialize (Hnl file).
Qed.

Lemma edited_reachable {DT : DoubleText} (m : VehicleManager) :
  edited m -> reachable m.
Proof.
  induction 1 as [|c m m' _ IH Hok _ Hleaves]; [apply reachable_new|].
  exact (reachable_call c m m' IH Hok Hleaves).
Qed.

(** ** Registrations and ids stay unique *)

Lemma NoDup_map_filter {A B : Type} (f : A -> B) (g : A -> bool) (l : list A) :
  NoDup (map f l) -> NoDup (map f (filter g l)).
Proof.
  induction l as [|a l IH]; cbn [map filter]; intros H; [constructor|].
  inversion H as [|? ? Hnotin Hnd]; subst.
  destruct (g a); cbn [map]; [|now apply IH].
  constructor; [|now apply IH].
  intros Hin. apply Hnotin. apply in_map_iff in Hin as (x & Hx & Hin).
  apply filter_In in Hin as [Hin _]. apply in_map_iff. now exists x.
Qed.

Lemma NoDup_snoc {A : Type} (l : list A) (a : A) :
  NoDup l -> ~ In a l -> NoDup (l ++ [a]).
Proof.
  intros Hnd Hnotin. apply NoDup_app; [exact Hnd|repeat constructor; intros []|].
  intros x Hx [<-|[]]. contradiction.
Qed.

Lemma existsb_key_In {A : Type} (key : A -> string) (k : string)
    (store : list (ptr * A)) :
  existsb (fun pa => key (snd pa) =? k)%string store = true
  <-> In k (map (fun pa => key (snd pa)) store).
Proof.
  rewrite existsb_exists, in_map_iff. split.
  - intros (pa & Hin & Hk). apply String.eqb_eq in Hk. eauto.
  - intros (pa & Hk & Hin). exists pa. split; [exact Hin|now apply String.eqb_eq].
Qed.

Lemma map_key_store_set {A : Type} (key : A -> string) (p : ptr) (a a' : A)
    (store : list (ptr * A)) :
  lookup p store = Some a -> key a' = key a ->
  map (fun pa => key (snd pa)) (store_set p a' store)
  = map (fun pa => key (snd pa)) store.
Proof.
  intros Hl Hk. induction store as [|[q x] rest IH]; [reflexivity|].
  cbn [lookup store_set] in *. destruct (Nat.eqb q p).
  - injection Hl as ->. cbn [map snd]. now rewrite Hk.
  - cbn [map snd]. now rewrite IH.
Qed.

Lemma unique_keys_find {A : Type} (key : A -> string) (store : list (ptr * A))
    (p : ptr) (a : A) :
  NoDup (map fst store) -> NoDup (map (fun pa => key (snd pa)) store) ->
  lookup p store = Some a -> find_by key (key a) store = Some p.
Proof.
  induction store as [|[q x] rest IH]; cbn [map fst snd lookup find_by];
    intros Hptr Hkey Hl; [discriminate|].
  inversion Hptr as [|? ? Hq Hptr']; inversion Hkey as [|? ? Hx Hkey']; subst.
  destruct (Nat.eqb_spec q p) as [->|Hne].
  - injection Hl as ->. now rewrite String.eqb_refl.
  - destruct (String.eqb_spec (key x) (key a)) as [Heq|_]; [|now apply IH].
    exfalso. apply Hx. rewrite Heq. apply lookup_In in Hl.
    apply in_map_iff. now exists (p, a).
Qed.

Lemma unique_step {DT : DoubleText} (c : call) (m m' : VehicleManager) :
  manager_inv m -> (forall file, c <> call_loadFromFile file) -> leaves c m m' ->
  NoDup (registrations m) /\ NoDup (customer_ids m) ->
  NoDup (registrations m') /\ NoDup (customer_ids m').
Proof.
  intros Hinv Hnl Hleaves [Hregs Hids]. unfold registrations, customer_ids in *.
  destruct (call_effect c m m' Hinv Hnl Hleaves)
    as [->|[(v & _ & Hu & ->)|[(reg & _ & _ & ->)|[(k & _ & Hu & ->)
        |[(id & _ & _ & ->)|[(reg & cid & start & end_ & p & q & _ & _ & _ & _ & ->)
        |(reg & miles & before & r & after & p & v & v' & k & cost
          & _ & _ & _ & Hv & _ & Hset & _ & _ & ->)]]]]]];
    cbn [vehicles customers]; try (split; assumption).
  - split; [|exact Hids]. rewrite map_app. cbn [map snd].
    apply NoDup_snoc; [exact Hregs|].
    unfold isRegNumberUnique in Hu. apply negb_true_iff in Hu.
    intros Hin. apply (existsb_key_In getRegNumber) in Hin. congruence.
  - split; [|exact Hids]. now apply NoDup_map_filter.
  - split; [exact Hregs|]. rewrite map_app. cbn [map snd].
    apply NoDup_snoc; [exact Hids|].
    unfold isCustomerIdUnique in Hu. apply negb_true_iff in Hu.
    intros Hin. apply (existsb_key_In getId) in Hin. congruence.
  - split; [exact Hregs|]. now apply NoDup_map_filter.
  - split; [|exact Hids].
    rewrite (map_key_store_set getRegNumber p v v' _ Hv); [exact Hregs|].
    apply (setMileage_Ok _ _ _ Hset).
Qed.

(** In a manager built without [loadFromFile], no two stored vehicles have
    the same registration and no two stored customers the same id, so
    [getVehicle] and [getCustomer] find every stored object under its own
    key. [loadFromFile] checks neither: a file that lists a registration
    twice is loaded as two vehicles. *)
Theorem registrations_unique {DT : DoubleText} (m : VehicleManager) :
  edited m ->
  NoDup (registrations m) /\ NoDup (customer_ids m)
  /\ (forall p v, lookup p (vehicles m) = Some v ->
                  getVehicle m (getRegNumber v) = Some p)
  /\ (forall q k, lookup q (customers m) = Some k ->
                  getCustomer m (getId k) = Some q).
Proof.
  intros Hedited.
  assert (Hunique : NoDup (registrations m) /\ NoDup (customer_ids m)).
  { induction Hedited as [|c m m' Hm IH Hok Hnl Hleaves]; [split; constructor|].
    apply (unique_step c m m'); auto.
    apply reachable_inv, edited_reachable, Hm. }
  pose proof (reachable_inv m (edited_reachable m Hedited)) as Hinv.
  destruct Hunique as [Hregs Hids]. split; [exact Hregs|]. split; [exact Hids|].
  split.
  - intros p v Hv. unfold getVehicle. rewrite find_vehicle_find_by.
    apply unique_keys_find; [apply (inv_vehicle_ptrs m Hinv)|exact Hregs|exact Hv].
  - intros q k Hk. unfold getCustomer. rewrite find_customer_find_by.
    apply unique_keys_find; [apply (inv_customer_ptrs m Hinv)|exact Hids|exact Hk].
Qed.

Lemma edited_run_all {DT : DoubleText} (cs : list call) (m m' : VehicleManager) :
  edited m -> Forall call_ok cs ->
  Forall (fun c => forall file, c <> call_loadFromFile file) cs ->
  run_all cs m = Some m' -> edited m'.
Proof.
  intros Hm Hcs. revert m Hm.
  induction Hcs as [|c rest Hc _ IH]; intros m Hm Hnl H; cbn [run_all] in H.
  - inversion H. subst m'. exact Hm.
  - inversion Hnl as [|? ? Hc' Hrest]; subst.
    destruct (run c m) as [x m1|e m1|] eqn:Hrun; try discriminate.
    + apply (IH m1); [|exact Hrest|exact H].
      apply (edited_call c m m1 Hm Hc Hc'). left. destruct x. exact Hrun.
    + apply (IH m1); [|exact Hrest|exact H].
      apply (edited_call c m m1 Hm Hc Hc'). right. exists e. exact Hrun.
Qed.

Lemma demo_edited : edited demo_manager.
Proof.
  apply (edited_run_all demo_calls VehicleManager_new).
  - apply edited_new.
  - unfold demo_calls.
    repeat (apply Forall_cons; [vm_compute; auto|]). apply Forall_nil.
  - unfold demo_calls.
    repeat (apply Forall_cons; [intros file; discriminate|]). apply Forall_nil.
  - vm_compute. reflexivity.
Qed.

Lemma registrations_unique_witness :
  edited demo_manager
  /\ NoDup (registrations demo_manager)
  /\ getVehicle demo_manager "KR7777" = Some 2%nat.
Proof.
  split; [exact demo_edited|].
  destruct (registrations_unique demo_manager demo_edited) as (Hregs & _ & Hfind & _).
  split; [exact Hregs|]. apply (Hfind 2%nat demo_truck). reflexivity.
Defined.

(** A file that lists the registration WA1 twice is loaded as two vehicles
    of that registration. *)
Lemma loadFromFile_duplicates :
  exists m' : VehicleManager,
    loadFromFile
      (Some ("2" ++ nl ++ "Motorcycle;Honda;CBR;WA1;100;600;5.5;0;0;1000" ++ nl
             ++ "Motorcycle;Honda;CBR;WA1;100;600;5.5;0;0;1000" ++ nl)%string)
      VehicleManager_new
    = Done tt m'
    /\ registrations m' = ["WA1"; "WA1"].
Proof. eexists. split; [vm_compute; reflexivity|reflexivity]. Qed.

(** ** Adding, finding and removing *)

Lemma find_by_None_existsb {A : Type} (key : A -> string) (k : string)
    (store : list (ptr * A)) :
  find_by key k store = None
  <-> existsb (fun pa => key (snd pa) =? k)%string store = false.
Proof. rewrite find_by_existsb. destruct (find_by key k store); split; congruence. Qed.

Lemma find_by_snoc_other {A : Type} (key : A -> string) (k : string)
    (store : list (ptr * A)) (p : ptr) (a : A) :
  k <> key a -> find_by key k (store ++ [(p, a)]) = find_by key k store.
Proof.
  intros Hne. rewrite find_by_app. destruct (find_by key k store); [reflexivity|].
  cbn [find_by]. destruct (String.eqb_spec (key a) k); congruence.
Qed.

Lemma lookup_snoc_old {A : Type} (store : list (ptr * A)) (p q : ptr) (a b : A) :
  lookup q store = Some b -> lookup q (store ++ [(p, a)]) = Some b.
Proof. intros H. now rewrite lookup_app, H. Qed.

Lemma lookup_snoc_new {A : Type} (store : list (ptr * A)) (a : A) :
  lookup (new_ptr store) (store ++ [(new_ptr store, a)]) = Some a.
Proof.
  rewrite lookup_app.
  destruct (lookup (new_ptr store) store) as [b|] eqn:Hl.
  - exfalso. apply (new_ptr_fresh store). apply lookup_In in Hl.
    apply (in_map fst) in Hl. exact Hl.
  - cbn [lookup]. now rewrite Nat.eqb_refl.
Qed.

Lemma no_rental_of_missing_vehicle (m : VehicleManager) (reg : string) :
  manager_inv m -> getVehicle m reg = None ->
  existsb (has_reg m reg) (rentals m) = false.
Proof.
  intros Hinv Hnone.
  destruct (existsb (has_reg m reg) (rentals m)) eqn:Hex; [|reflexivity].
  exfalso. apply existsb_exists in Hex as (r & Hin & Hr).
  pose proof (manager_inv_rentals_vehicle m Hinv) as Hrv.
  rewrite Forall_forall in Hrv.
  destruct (rental_reg_of_vehicle m r (Hrv r Hin)) as (p & v & _ & _ & Hf & _ & Hreg).
  unfold has_reg in Hr. rewrite Hreg in Hr. apply String.eqb_eq in Hr.
  unfold getVehicle in Hnone. congruence.
Qed.

Lemma no_rental_of_missing_customer (m : VehicleManager) (id : string) :
  manager_inv m -> getCustomer m id = None ->
  existsb (has_id m id) (rentals m) = false.
Proof.
  intros Hinv Hnone.
  destruct (existsb (has_id m id) (rentals m)) eqn:Hex; [|reflexivity].
  exfalso. apply existsb_exists in Hex as (r & Hin & Hr).
  pose proof (manager_inv_rentals_customer m Hinv) as Hrc.
  rewrite Forall_forall in Hrc.
  destruct (Hrc r Hin) as (q & c & Hq & Hc & Hf).
  unfold has_id, rental_customer in Hr. rewrite Hq, Hc in Hr.
  apply String.eqb_eq in Hr. unfold getCustomer in Hnone. congruence.
Qed.

(** Vehicles, on a reachable manager. After a successful [addVehicle] the
    registration was free before, [getVehicle] finds the new vehicle under
    it, and every other registration and stored vehicle is found as before.
    After a successful [removeVehicle] the registration was present and is
    gone, and the others are found as before. For a registration that is
    not stored, [removeVehicle] and [rentVehicle] fail with "Vehicle not
    found." and [returnVehicle] with "Rental not found for this vehicle.",
    and the manager is unchanged. *)
Theorem vehicle_lookup_laws {DT : DoubleText} (m : VehicleManager) :
  reachable m ->
  (forall (v : Vehicle) (m1 : VehicleManager),
      addVehicle (Some v) m = Done tt m1 ->
      getVehicle m (getRegNumber v) = None
      /\ getVehicle m1 (getRegNumber v) = Some (new_ptr (vehicles m))
      /\ lookup (new_ptr (vehicles m)) (vehicles m1) = Some v
      /\ (forall reg, reg <> getRegNumber v -> getVehicle m1 reg = getVehicle m reg)
      /\ (forall q a, lookup q (vehicles m) = Some a ->
                      lookup q (vehicles m1) = Some a))
  /\ (forall (reg : string) (m1 : VehicleManager),
         removeVehicle reg m = Done tt m1 ->
         getVehicle m reg <> None
         /\ getVehicle m1 reg = None
         /\ (forall reg', reg' <> reg -> getVehicle m1 reg' = getVehicle m reg')
         /\ (forall q a, lookup q (vehicles m) = Some a -> getRegNumber a <> reg ->
                         lookup q (vehicles m1) = Some a))
  /\ (forall reg : string,
         getVehicle m reg = None ->
         removeVehicle reg m = Raised (invalid_argument "Vehicle not found.") m
         /\ (forall cid start end_,
                rentVehicle reg cid start end_ m
                = Raised (invalid_argument "Vehicle not found.") m)
         /\ (forall newMileage,
                returnVehicle reg newMileage m
                = Raised (invalid_argument "Rental not found for this vehicle.") m)).
Proof.
  intros Hreach. pose proof (reachable_inv m Hreach) as Hinv.
  pose proof (manager_inv_rentals_vehicle m Hinv) as Hrv.
  split; [|split].
  - intros v m1 Hadd. cbn [addVehicle] in Hadd.
    destruct (isRegNumberUnique m (getRegNumber v)) eqn:Hu; cbn [negb] in Hadd;
      [|discriminate].
    injection Hadd as <-. apply isRegNumberUnique_find in Hu.
    unfold getVehicle in *. cbn [vehicles]. rewrite !find_vehicle_find_by in *.
    split; [exact Hu|]. split.
    { rewrite find_by_app, Hu. cbn [find_by]. now rewrite String.eqb_refl. }
    split; [apply lookup_snoc_new|]. split.
    + intros reg Hne. rewrite !find_vehicle_find_by. now apply find_by_snoc_other.
    + intros q a Hq. now apply lookup_snoc_old.
  - intros reg m1 Hrem.
    destruct (removeVehicle_Done m m1 reg Hinv Hrem) as [Hfree ->].
    unfold removeVehicle in Hrem. rewrite (rented_scan_ok m reg _ Hrv), Hfree in Hrem.
    destruct (existsb (fun pv => getRegNumber (snd pv) =? reg)%string (vehicles m))
      eqn:Hex; [|discriminate].
    unfold getVehicle. cbn [vehicles]. rewrite !find_vehicle_find_by.
    split.
    { intros Hnone. apply (find_by_None_existsb getRegNumber) in Hnone. congruence. }
    split; [apply find_by_filter_removed|]. split.
    + intros reg' Hne. rewrite !find_vehicle_find_by. now apply find_by_filter.
    + intros q a Hq Hne. apply lookup_filter; [exact Hq|].
      cbn [snd]. apply negb_true_iff. now apply String.eqb_neq.
  - intros reg Hnone.
    pose proof (no_rental_of_missing_vehicle m reg Hinv Hnone) as Hfree.
    split; [|split].
    + unfold removeVehicle. rewrite (rented_scan_ok m reg _ Hrv), Hfree.
      unfold getVehicle in Hnone. rewrite find_vehicle_find_by in Hnone.
      apply (find_by_None_existsb getRegNumber) in Hnone. now rewrite Hnone.
    + intros cid start end_. unfold rentVehicle. now rewrite Hnone.
    + intros newMileage.
      destruct (returnVehicle_cases m reg newMileage Hinv)
        as [[_ Hr]|(before & r & after & p & v & k & Hrs & _ & _ & _ & Hg & _)];
        [exact Hr|congruence].
Qed.

Lemma vehicle_lookup_laws_witness :
  reachable demo_manager
  /\ getVehicle demo_manager "PO5555" = None
  /\ removeVehicle "PO5555" demo_manager
     = Raised (invalid_argument "Vehicle not found.") demo_manager
  /\ (exists m1 : VehicleManager,
         removeVehicle "KR7777" demo_manager = Done tt m1
         /\ getVehicle m1 "KR7777" = None
         /\ getVehicle m1 "WA12345" = getVehicle demo_manager "WA12345")
  /\ (exists m1 : VehicleManager,
         addVehicle (Some demo_bike) demo_manager = Done tt m1
         /\ getVehicle m1 "PO5555" = Some 3%nat
         /\ lookup 3%nat (vehicles m1) = Some demo_bike).
Proof.
  destruct (vehicle_lookup_laws demo_manager demo_reachable)
    as (Hadd & Hremove & Hmissing).
  split; [exact demo_reachable|]. split; [reflexivity|]. split.
  - apply Hmissing. reflexivity.
  - split; eexists; (split; [reflexivity|]).
    + destruct (Hremove "KR7777" _ eq_refl) as (_ & Hgone & Hothers & _).
      split; [exact Hgone|]. apply Hothers. discriminate.
    + destruct (Hadd demo_bike _ eq_refl) as (_ & Hfound & Hstored & _).
      split; [exact Hfound|exact Hstored].
Defined.

(** Customers, on a reachable manager: the same laws for [addCustomer],
    [getCustomer] and [removeCustomer]; for an id that is not stored,
    [removeCustomer] fails with "Customer not found.", and so does
    [rentVehicle] of a stored vehicle. *)
Theorem customer_lookup_laws {DT : DoubleText} (m : VehicleManager) :
  reachable m ->
  (forall (c : Customer) (m1 : VehicleManager),
      addCustomer (Some c) m = Done tt m1 ->
      getCustomer m (getId c) = None
      /\ getCustomer m1 (getId c) = Some (new_ptr (customers m))
      /\ lookup (new_ptr (customers m)) (customers m1) = Some c
      /\ (forall id, id <> getId c -> getCustomer m1 id = getCustomer m id)
      /\ (forall q a, lookup q (customers m) = Some a ->
                      lookup q (customers m1) = Some a))
  /\ (forall (id : string) (m1 : VehicleManager),
         removeCustomer id m = Done tt m1 ->
         getCustomer m id <> None
         /\ getCustomer m1 id = None
         /\ (forall id', id' <> id -> getCustomer m1 id' = getCustomer m id')
         /\ (forall q a, lookup q (customers m) = Some a -> getId a <> id ->
                         lookup q (customers m1) = Some a))
  /\ (forall id : string,
         getCustomer m id = None ->
         removeCustomer id m = Raised (invalid_argument "Customer not found.") m
         /\ (forall reg start end_,
                getVehicle m reg <> None ->
                rentVehicle reg id start end_ m
                = Raised (invalid_argument "Customer not found.") m)).
Proof.
  intros Hreach. pose proof (reachable_inv m Hreach) as Hinv.
  pose proof (manager_inv_rentals_customer m Hinv) as Hrc.
  split; [|split].
  - intros c m1 Hadd. cbn [addCustomer] in Hadd.
    destruct (isCustomerIdUnique m (getId c)) eqn:Hu; cbn [negb] in Hadd;
      [|discriminate].
    injection Hadd as <-. unfold isCustomerIdUnique in Hu.
    apply negb_true_iff, (find_by_None_existsb getId) in Hu.
    unfold getCustomer in *. cbn [customers]. rewrite !find_customer_find_by in *.
    split; [exact Hu|]. split.
    { rewrite find_by_app, Hu. cbn [find_by]. now rewrite String.eqb_refl. }
    split; [apply lookup_snoc_new|]. split.
    + intros id Hne. rewrite !find_customer_find_by. now apply find_by_snoc_other.
    + intros q a Hq. now apply lookup_snoc_old.
  - intros id m1 Hrem. unfold removeCustomer in Hrem.
    rewrite (renting_scan_ok m id _ Hrc) in Hrem.
    destruct (existsb (has_id m id) (rentals m)); [discriminate|].
    destruct (existsb (fun pc => getId (snd pc) =? id)%string (customers m))
      eqn:Hex; [|discriminate].
    injection Hrem as <-.
    unfold getCustomer. cbn [customers]. rewrite !find_customer_find_by.
    split.
    { intros Hnone. apply (find_by_None_existsb getId) in Hnone. congruence. }
    split; [apply find_by_filter_removed|]. split.
    + intros id' Hne. rewrite !find_customer_find_by. now apply find_by_filter.
    + intros q a Hq Hne. apply lookup_filter; [exact Hq|].
      cbn [snd]. apply negb_true_iff. now apply String.eqb_neq.
  - intros id Hnone.
    pose proof (no_rental_of_missing_customer m id Hinv Hnone) as Hfree.
    split.
    + unfold removeCustomer. rewrite (renting_scan_ok m id _ Hrc), Hfree.
      unfold getCustomer in Hnone. rewrite find_customer_find_by in Hnone.
      apply (find_by_None_existsb getId) in Hnone. now rewrite Hnone.
    + intros reg start end_ Hreg. unfold rentVehicle.
      destruct (getVehicle m reg); [|congruence]. now rewrite Hnone.
Qed.

Lemma customer_lookup_laws_witness :
  reachable demo_manager
  /\ getCustomer demo_manager "XYZ000111" = None
  /\ removeCustomer "XYZ000111" demo_manager
     = Raised (invalid_argument "Customer not found.") demo_manager
  /\ rentVehicle "KR7777" "XYZ000111" "2024-03-01" "2024-03-04" demo_manager
     = Raised (invalid_argument "Customer not found.") demo_manager
  /\ (exists m1 : VehicleManager,
         addCustomer (Some demo_guest) demo_manager = Done tt m1
         /\ getCustomer m1 "XYZ000111" = Some 3%nat
         /\ lookup 3%nat (customers m1) = Some demo_guest)
  /\ (exists m1 : VehicleManager,
         removeCustomer "1234567890" demo_manager = Done tt m1
         /\ getCustomer m1 "1234567890" = None).
Proof.
  destruct (customer_lookup_laws demo_manager demo_reachable)
    as (Hadd & Hremove & Hmissing).
  split; [exact demo_reachable|]. split; [reflexivity|].
  destruct (Hmissing "XYZ000111" eq_refl) as [Hnotfound Hrent].
  split; [exact Hnotfound|]. split; [apply Hrent; discriminate|].
  split; eexists; (split; [reflexivity|]).
  - destruct (Hadd demo_guest _ eq_refl) as (_ & Hfound & Hstored & _).
    split; [exact Hfound|exact Hstored].
  - destruct (Hremove "1234567890" _ eq_refl) as (_ & Hgone & _). exact Hgone.
Defined.

(** ** Undoing an addition *)

Lemma filter_all {A : Type} (f : A -> bool) (l : list A) :
  existsb f l = false -> filter (fun a => negb (f a)) l = l.
Proof.
  induction l as [|a l IH]; cbn [existsb filter]; [reflexivity|].
  intros H. apply orb_false_elim in H as [Ha Hl]. rewrite Ha. cbn [negb].
  now rewrite IH.
Qed.

Lemma existsb_snoc {A : Type} (f : A -> bool) (l : list A) (a : A) :
  existsb f (l ++ [a]) = existsb f l || f a.
Proof. rewrite existsb_app. cbn [existsb]. now rewrite orb_false_r. Qed.

Lemma filter_snoc_removed {A : Type} (f : A -> bool) (l : list A) (a : A) :
  existsb f l = false -> f a = true ->
  filter (fun x => negb (f x)) (l ++ [a]) = l.
Proof.
  intros Hl Ha. rewrite filter_app, (filter_all f l Hl). cbn [filter].
  rewrite Ha. cbn [negb]. apply app_nil_r.
Qed.

Lemma existsb_ext_Forall {A : Type} (f g : A -> bool) (l : list A) :
  Forall (fun a => f a = g a) l -> existsb f l = existsb g l.
Proof.
  induction 1 as [|a l Ha _ IH]; cbn [existsb]; [reflexivity|].
  now rewrite Ha, IH.
Qed.

(** On a reachable manager, removing the vehicle that was just added gives
    back the manager as it was, and so for a customer. *)
Theorem add_then_remove {DT : DoubleText} (m : VehicleManager) :
  reachable m ->
  (forall (v : Vehicle) (m1 : VehicleManager),
      addVehicle (Some v) m = Done tt m1 ->
      removeVehicle (getRegNumber v) m1 = Done tt m)
  /\ (forall (c : Customer) (m1 : VehicleManager),
         addCustomer (Some c) m = Done tt m1 ->
         removeCustomer (getId c) m1 = Done tt m).
Proof.
  intros Hreach. pose proof (reachable_inv m Hreach) as Hinv.
  pose proof (manager_inv_rentals_vehicle m Hinv) as Hrv.
  pose proof (manager_inv_rentals_customer m Hinv) as Hrc.
  split.
  - intros v m1 Hadd. cbn [addVehicle] in Hadd.
    destruct (isRegNumberUnique m (getRegNumber v)) eqn:Hu; cbn [negb] in Hadd;
      [|discriminate].
    injection Hadd as <-.
    set (m1 := mkVehicleManager (vehicles m ++ [(new_ptr (vehicles m), v)])
                 (customers m) (rentals m) (rentalHistory m)).
    pose proof (proj1 (isRegNumberUnique_find m _) Hu) as Hnone.
    pose proof (no_rental_of_missing_vehicle m _ Hinv Hnone) as Hfree.
    unfold isRegNumberUnique in Hu. apply negb_true_iff in Hu.
    assert (Hrv1 : Forall (fun r => refers_to_vehicle (vehicles m1) r) (rentals m)).
    { eapply Forall_impl; [|exact Hrv]. intros r Hr. now apply refers_to_vehicle_app. }
    assert (Hfree1 : existsb (has_reg m1 (getRegNumber v)) (rentals m) = false).
    { rewrite <- Hfree. apply existsb_ext_Forall.
      eapply Forall_impl; [|exact Hrv]. intros r Hr. unfold has_reg.
      now rewrite (rental_reg_app m m1 [(new_ptr (vehicles m), v)] r eq_refl Hr). }
    unfold removeVehicle.
    change (rentals m1) with (rentals m).
    rewrite (rented_scan_ok m1 _ _ Hrv1), Hfree1.
    cbn [vehicles m1]. rewrite existsb_snoc, Hu. cbn [snd orb].
    rewrite String.eqb_refl.
    rewrite (filter_snoc_removed
               (fun pv : ptr * Vehicle => (getRegNumber (snd pv) =? getRegNumber v)%string)
               _ _ Hu) by (cbn [snd]; apply String.eqb_refl).
    destruct m. reflexivity.
  - intros c m1 Hadd. cbn [addCustomer] in Hadd.
    destruct (isCustomerIdUnique m (getId c)) eqn:Hu; cbn [negb] in Hadd;
      [|discriminate].
    injection Hadd as <-.
    set (m1 := mkVehicleManager (vehicles m)
                 (customers m ++ [(new_ptr (customers m), c)])
                 (rentals m) (rentalHistory m)).
    unfold isCustomerIdUnique in Hu. apply negb_true_iff in Hu.
    pose proof (proj2 (find_by_None_existsb getId _ _) Hu) as Hnone.
    rewrite <- find_customer_find_by in Hnone.
    pose proof (no_rental_of_missing_customer m _ Hinv Hnone) as Hfree.
    assert (Hrc1 : Forall (fun r => refers_to_customer (customers m1) r) (rentals m)).
    { eapply Forall_impl; [|exact Hrc]. intros r Hr. now apply refers_to_customer_app. }
    assert (Hfree1 : existsb (has_id m1 (getId c)) (rentals m) = false).
    { rewrite <- Hfree. apply existsb_ext_Forall.
      eapply Forall_impl; [|exact Hrc]. intros r (q & k & Hq & Hk & _).
      unfold has_id, rental_customer. rewrite Hq. cbn [customers m1].
      now rewrite lookup_app, Hk. }
    unfold removeCustomer.
    change (rentals m1) with (rentals m).
    rewrite (renting_scan_ok m1 _ _ Hrc1), Hfree1.
    cbn [customers m1]. rewrite existsb_snoc, Hu. cbn [snd orb].
    rewrite String.eqb_refl.
    rewrite (filter_snoc_removed
               (fun pc : ptr * Customer => (getId (snd pc) =? getId c)%string)
               _ _ Hu) by (cbn [snd]; apply String.eqb_refl).
    destruct m. reflexivity.
Qed.

Lemma add_then_remove_witness :
  reachable demo_manager
  /\ (exists m1,
         addVehicle (Some demo_bike) demo_manager = Done tt m1
         /\ removeVehicle "PO5555" m1 = Done tt demo_manager)
  /\ (exists m1,
         addCustomer (Some demo_guest) demo_manager = Done tt m1
         /\ removeCustomer "XYZ000111" m1 = Done tt demo_manager).
Proof.
  split; [exact demo_reachable|].
  destruct (add_then_remove demo_manager demo_reachable) as [Hvehicle Hcustomer].
  split; eexists; (split; [reflexivity|]).
  - apply (Hvehicle demo_bike). reflexivity.
  - apply (Hcustomer demo_guest). reflexivity.
Defined.

(** ** The cost of a rental *)

(** A rental the constructor returned always has a cost: its duration is
    at least one day, so the [days <= 0] branch of [calculateRentCost]
    (which throws for a CombustionCar and a Motorcycle) is never taken, and
    [calculateTotalCost] returns what [calculateRentCost] of its vehicle
    gives for the duration. *)
Theorem calculateTotalCost_never_throws (store : list (ptr * Vehicle))
    (p pc : ptr) (v : Vehicle) (start end_ : string) (r : Rental) :
  Rental_ctor (Some p) (Some pc) start end_ = Ok r ->
  lookup p store = Some v ->
  exists (days : Z) (cost : float),
    getRentalDays r = Ok days /\ 1 <= days
    /\ calculateRentCost v days = Ok cost
    /\ calculateTotalCost store r = Ok cost.
Proof.
  intros Hctor Hv. apply Rental_ctor_Ok in Hctor as (_ & Hs & He & _ & ->).
  pose proof (getRentalDays_valid (mkRental (Some p) (Some pc) start end_) Hs He)
    as Hdays.
  cbn [startDate endDate] in Hdays.
  set (days := Z.max 1 (counted_days end_ - counted_days start)) in *.
  destruct (calculateRentCost_positive v days ltac:(lia)) as [cost Hcost].
  exists days, cost. split; [exact Hdays|]. split; [lia|]. split; [exact Hcost|].
  unfold calculateTotalCost. cbn [vehicle]. rewrite Hdays. cbn [bind].
  now rewrite Hv.
Qed.

Lemma calculateTotalCost_never_throws_witness :
  exists (days : Z) (cost : float),
    getRentalDays (mkRental (Some 1%nat) (Some 1%nat) "2024-01-01" "2024-01-05")
    = Ok days
    /\ 1 <= days
    /\ calculateRentCost demo_car days = Ok cost
    /\ calculateTotalCost (vehicles demo_manager)
         (mkRental (Some 1%nat) (Some 1%nat) "2024-01-01" "2024-01-05")
       = Ok cost.
Proof.
  apply (calculateTotalCost_never_throws (vehicles demo_manager) 1%nat 1%nat
           demo_car "2024-01-01" "2024-01-05"); reflexivity.
Defined.

(** ** Changing the end date *)

(** On a rental the constructor returned, [setEndDate] does what the
    constructor does with the new end date: it throws the same exception
    or gives the rental the constructor would have made. *)
Theorem setEndDate_reconstructs (v c : option ptr) (start end_ : string)
    (r : Rental) (newEnd : string) :
  Rental_ctor v c start end_ = Ok r ->
  setEndDate newEnd r = Rental_ctor v c start newEnd.
Proof.
  intros Hctor.
  apply Rental_ctor_Ok in Hctor as ((pv & pc & -> & ->) & Hs & _ & _ & ->).
  apply isValidDate_valid_date in Hs.
  unfold setEndDate, Rental_ctor. cbn [startDate vehicle customer].
  rewrite Hs. cbn [bind negb]. reflexivity.
Qed.

Lemma setEndDate_reconstructs_witness :
  Rental_ctor (Some 1%nat) (Some 1%nat) "2024-01-01" "2024-01-05"
  = Ok (mkRental (Some 1%nat) (Some 1%nat) "2024-01-01" "2024-01-05")
  /\ setEndDate "2024-01-09"
       (mkRental (Some 1%nat) (Some 1%nat) "2024-01-01" "2024-01-05")
     = Ok (mkRental (Some 1%nat) (Some 1%nat) "2024-01-01" "2024-01-09")
  /\ setEndDate "2023-12-31"
       (mkRental (Some 1%nat) (Some 1%nat) "2024-01-01" "2024-01-05")
     = Throw (invalid_argument "End date must be later than start date.").
Proof.
  split; [reflexivity|]. split.
  - rewrite (setEndDate_reconstructs (Some 1%nat) (Some 1%nat) "2024-01-01"
               "2024-01-05" _ "2024-01-09" eq_refl). reflexivity.
  - rewrite (setEndDate_reconstructs (Some 1%nat) (Some 1%nat) "2024-01-01"
               "2024-01-05" _ "2023-12-31" eq_refl). reflexivity.
Defined.

(** ** Renting and returning *)

Lemma snoc_split {A : Type} (P : A -> Prop) (l : list A) (x : A) :
  forall (before : list A) (r : A) (after : list A),
  l ++ [x] = before ++ r :: after -> Forall (fun a => ~ P a) l -> P r ->
  before = l /\ r = x /\ after = [].
Proof.
  induction l as [|a l IH]; intros before r after Heq Hl Hr.
  - destruct before as [|b [|b' before]]; cbn in Heq; try discriminate.
    injection Heq as -> <-. auto.
  - inversion Hl as [|? ? Ha Hl']; subst.
    destruct before as [|b before]; cbn in Heq; injection Heq as <- Heq.
    + contradiction.
    + destruct (IH before r after Heq Hl' Hr) as (-> & -> & ->). auto.
Qed.

Lemma setMileage_accepts (newMileage : float) (v : Vehicle) :
  PrimFloat.ltb newMileage 0 = false ->
  PrimFloat.ltb newMileage (getMileage v) = false ->
  exists v', setMileage newMileage v = Ok v'.
Proof. intros H0 H1. unfold setMileage. rewrite H0, H1. eauto. Qed.

(** On a reachable manager: a vehicle that is not rented is rented to a
    stored customer for any two valid dates with the end after the start,
    and when it is returned with a mileage that is not negative and not
    lower than before, [returnVehicle] returns [calculateRentCost] of the
    vehicle for the difference of the two day counters (at least 1), and
    leaves the manager as it was before the rental but for the new mileage
    and one more history line. *)
Theorem rent_then_return {DT : DoubleText} (m : VehicleManager)
    (reg cid start end_ : string) (p q : ptr) (v : Vehicle) (k : Customer)
    (newMileage : float) :
  reachable m ->
  getVehicle m reg = Some p -> lookup p (vehicles m) = Some v ->
  getCustomer m cid = Some q -> lookup q (customers m) = Some k ->
  is_rented m p = false ->
  valid_date start -> valid_date end_ -> String.leb end_ start = false ->
  PrimFloat.ltb newMileage 0 = false ->
  PrimFloat.ltb newMileage (getMileage v) = false ->
  exists (m1 : VehicleManager) (v' : Vehicle) (startTotal endTotal : Z) (cost : float),
    rentVehicle reg cid start end_ m = Done tt m1
    /\ countTotalDays start = Ok startTotal /\ countTotalDays end_ = Ok endTotal
    /\ calculateRentCost v (Z.max 1 (endTotal - startTotal)) = Ok cost
    /\ setMileage newMileage v = Ok v'
    /\ returnVehicle reg newMileage m1
       = Done cost
           (mkVehicleManager (store_set p v' (vehicles m)) (customers m) (rentals m)
              (rentalHistory m
               ++ [history_line v' k (mkRental (Some p) (Some q) start end_) cost])).
Proof.
  intros Hreach Hp Hv Hq Hk Hfree Hs He Hle Hm0 Hm1.
  pose proof (reachable_inv m Hreach) as Hinv.
  rewrite (is_rented_has_reg m reg p Hinv Hp) in Hfree.
  pose proof (rentVehicle_succeeds m reg cid start end_ p q Hinv Hp Hq Hfree Hs He Hle)
    as Hrent.
  set (r := mkRental (Some p) (Some q) start end_) in *.
  set (m1 := mkVehicleManager (vehicles m) (customers m) (rentals m ++ [r])
               (rentalHistory m)) in *.
  pose proof (rentVehicle_inv m reg cid start end_ Hinv) as Hinv1.
  rewrite Hrent in Hinv1. cbn [ends_in] in Hinv1.
  destruct (setMileage_accepts newMileage v Hm0 Hm1) as [v' Hset].
  exists m1, v', (counted_days start), (counted_days end_).
  destruct (calculateTotalCost_ok (vehicles m) r p v eq_refl Hv Hs He)
    as (cost & Hcost & Hrate).
  cbn [startDate endDate r] in Hrate.
  exists cost. split; [exact Hrent|].
  split; [now apply countTotalDays_valid|]. split; [now apply countTotalDays_valid|].
  split; [exact Hrate|]. split; [exact Hset|].
  destruct (returnVehicle_cases m1 reg newMileage Hinv1)
    as [[Hnone _]|(before & r' & after & p' & w & k' & Hrs & _ & Hp' & Hw & Hg & Hk'
                   & Hresult)].
  { exfalso. cbn [rentals m1] in Hnone. rewrite existsb_app in Hnone.
    apply orb_false_elim in Hnone as [_ Hnone]. cbn [existsb] in Hnone.
    unfold has_reg, rental_reg, rental_vehicle in Hnone.
    cbn [vehicle r vehicles m1] in Hnone. rewrite Hv in Hnone.
    cbn [option_map] in Hnone. rewrite orb_false_r in Hnone.
    unfold getVehicle in Hp. rewrite find_vehicle_find_by in Hp.
    destruct (find_by_lookup getRegNumber _ _ _ (inv_vehicle_ptrs m Hinv) Hp)
      as (a & Ha & Hreg).
    assert (a = v) by congruence. subst a. apply String.eqb_neq in Hnone.
    contradiction. }
  change (getVehicle m1 reg) with (getVehicle m reg) in Hg.
  assert (p' = p) by congruence. subst p'.
  change (vehicles m1) with (vehicles m) in Hw.
  assert (w = v) by congruence. subst w.
  cbn [rentals m1] in Hrs.
  destruct (snoc_split (fun x => vehicle x = Some p) (rentals m) r before r' after
              Hrs) as (-> & -> & ->); [|exact Hp'|].
  { pose proof (manager_inv_rentals_vehicle m Hinv) as Hrv.
    apply Forall_forall. intros x Hin Hx.
    assert (Hex : existsb (has_reg m reg) (rentals m) = true); [|congruence].
    apply existsb_exists. exists x. split; [exact Hin|].
    unfold has_reg, rental_reg, rental_vehicle. rewrite Hx, Hv. cbn [option_map].
    unfold getVehicle in Hp. rewrite find_vehicle_find_by in Hp.
    destruct (find_by_lookup getRegNumber _ _ _ (inv_vehicle_ptrs m Hinv) Hp)
      as (a & Ha & Hreg).
    assert (a = v) by congruence. subst a. now apply String.eqb_eq. }
  assert (k' = k).
  { unfold rental_customer in Hk'. cbn [customer r customers m1] in Hk'. congruence. }
  subst k'.
  destruct Hresult as [(e & Hthrow & _)|(v'' & cost' & Hset' & Hcost' & Hreturn)];
    [congruence|].
  assert (v'' = v') by congruence. subst v''.
  change (vehicles m1) with (vehicles m) in Hcost'.
  assert (cost' = cost) by congruence. subst cost'.
  rewrite Hreturn. cbn [vehicles customers rentalHistory m1].
  now rewrite app_nil_r.
Qed.

Lemma rent_then_return_witness :
  reachable demo_manager
  /\ exists (m1 : VehicleManager) (v' : Vehicle) (startTotal endTotal : Z)
       (cost : float),
      rentVehicle "KR7777" "1234567890" "2024-02-27" "2024-03-02" demo_manager
      = Done tt m1
      /\ countTotalDays "2024-02-27" = Ok startTotal
      /\ countTotalDays "2024-03-02" = Ok endTotal
      /\ calculateRentCost demo_truck (Z.max 1 (endTotal - startTotal)) = Ok cost
      /\ setMileage 250400 demo_truck = Ok v'
      /\ returnVehicle "KR7777" 250400 m1
         = Done cost
             (mkVehicleManager (store_set 2%nat v' (vehicles demo_manager))
                (customers demo_manager) (rentals demo_manager)
                (rentalHistory demo_manager
                 ++ [history_line v' demo_company
                       (mkRental (Some 2%nat) (Some 2%nat) "2024-02-27" "2024-03-02")
                       cost])).
Proof.
  split; [exact demo_reachable|].
  apply (rent_then_return demo_manager "KR7777" "1234567890" "2024-02-27"
           "2024-03-02" 2%nat 2%nat demo_truck demo_company 250400 demo_reachable);
    try reflexivity; apply isValidDate_valid_date; reflexivity.
Defined.

(** ** What a call leaves alone *)

Lemma lookup_filter_inv {A : Type} (keep : ptr * A -> bool) (store : list (ptr * A))
    (p : ptr) (a : A) :
  NoDup (map fst store) -> lookup p (filter keep store) = Some a ->
  lookup p store = Some a.
Proof.
  intros Hnd H. apply In_lookup; [exact Hnd|].
  apply lookup_In in H. now apply filter_In in H as [H _].
Qed.

(** On a reachable manager, a call other than [loadFromFile] never changes
    a stored customer, changes a stored vehicle only by [setMileage] in a
    successful [returnVehicle], and never drops or changes a history line:
    it appends at most one, and only in a successful [returnVehicle]. *)
Theorem calls_change_little {DT : DoubleText} (c : call) (m m' : VehicleManager) :
  reachable m -> (forall file, c <> call_loadFromFile file) -> leaves c m m' ->
  (forall p v v',
      lookup p (vehicles m) = Some v -> lookup p (vehicles m') = Some v' ->
      v' = v
      \/ exists reg newMileage,
          c = call_returnVehicle reg newMileage /\ setMileage newMileage v = Ok v')
  /\ (forall q k k',
         lookup q (customers m) = Some k -> lookup q (customers m') = Some k' ->
         k' = k)
  /\ exists added : list string,
      rentalHistory m' = rentalHistory m ++ added
      /\ (List.length added <= 1)%nat
      /\ (added <> [] ->
          exists reg newMileage,
            c = call_returnVehicle reg newMileage
            /\ exists cost, returnVehicle reg newMileage m = Done cost m').
Proof.
  intros Hreach Hnl Hleaves. pose proof (reachable_inv m Hreach) as Hinv.
  assert (Hsame : forall h : list string,
             exists added : list string,
               h = h ++ added /\ (List.length added <= 1)%nat
               /\ (added <> [] ->
                   exists reg newMileage,
                     c = call_returnVehicle reg newMileage
                     /\ exists cost, returnVehicle reg newMileage m = Done cost m')).
  { intros h. exists []. rewrite app_nil_r. cbn. split; [reflexivity|].
    split; [lia|congruence]. }
  destruct (call_effect c m m' Hinv Hnl Hleaves)
    as [->|[(v0 & _ & _ & ->)|[(reg & _ & _ & ->)|[(k0 & _ & _ & ->)
        |[(id & _ & _ & ->)|[(reg & cid & start & end_ & p0 & q0 & _ & _ & _ & _ & ->)
        |(reg & miles & before & r & after & p0 & v0 & v0' & k0 & cost
          & -> & Hrs & Hp0 & Hv0 & Hk0 & Hset & Hcost & Hreturn & ->)]]]]]];
    cbn [vehicles customers rentalHistory].
  - split; [intros; left; congruence|]. split; [intros; congruence|apply Hsame].
  - split; [|split; [intros; congruence|apply Hsame]].
    intros p v v' Hv Hv'. left. rewrite lookup_app, Hv in Hv'. congruence.
  - split; [|split; [intros; congruence|apply Hsame]].
    intros p v v' Hv Hv'. left.
    apply (lookup_filter_inv _ _ _ _ (inv_vehicle_ptrs m Hinv)) in Hv'. congruence.
  - split; [intros; left; congruence|]. split; [|apply Hsame].
    intros q k k' Hk Hk'. rewrite lookup_app, Hk in Hk'. congruence.
  - split; [intros; left; congruence|]. split; [|apply Hsame].
    intros q k k' Hk Hk'.
    apply (lookup_filter_inv _ _ _ _ (inv_customer_ptrs m Hinv)) in Hk'. congruence.
  - split; [intros; left; congruence|]. split; [intros; congruence|apply Hsame].
  - split; [|split; [intros; congruence|]].
    + intros p v v' Hv Hv'. rewrite lookup_store_set in Hv'.
      destruct (Nat.eqb_spec p0 p) as [->|_]; [|left; congruence].
      rewrite Hv in Hv'. cbn [option_map] in Hv'. right. exists reg, miles.
      split; [reflexivity|]. congruence.
    + exists [history_line v0' k0 r cost]. split; [reflexivity|].
      split; [cbn; lia|]. intros _. exists reg, miles. split; [reflexivity|].
      exists cost. exact Hreturn.
Qed.

Lemma calls_change_little_witness :
  reachable demo_manager
  /\ leaves (call_returnVehicle "WA12345" 15200.5) demo_manager demo_returned
  /\ (forall q k k',
         lookup q (customers demo_manager) = Some k ->
         lookup q (customers demo_returned) = Some k' -> k' = k)
  /\ exists added : list string,
      rentalHistory demo_returned = rentalHistory demo_manager ++ added
      /\ (List.length added <= 1)%nat.
Proof.
  assert (Hleaves : leaves (call_returnVehicle "WA12345" 15200.5) demo_manager
                      demo_returned) by (left; vm_compute; reflexivity).
  split; [exact demo_reachable|]. split; [exact Hleaves|].
  destruct (calls_change_little (call_returnVehicle "WA12345" 15200.5) demo_manager
              demo_returned demo_reachable ltac:(intros file; discriminate) Hleaves)
    as (_ & Hcustomers & added & Hhistory & Hlen & _).
  split; [exact Hcustomers|]. exists added. split; [exact Hhistory|exact Hlen].
Defined.

(** ** The exceptions that leave the manager *)

Lemma stoi_throws (s : string) (e : exn) :
  stoi s = Throw e -> e = invalid_argument "stoi" \/ e = out_of_range "stoi".
Proof.
  unfold stoi.
  destruct (match skip_spaces s with
            | String c r =>
                if Ascii.eqb c "-" then (true, r)
                else if Ascii.eqb c "+" then (false, r) else (false, skip_spaces s)
            | EmptyString => (false, skip_spaces s)
            end) as [negative s2].
  destruct s2 as [|c r]; [intros [= <-]; auto|].
  destruct (isdigit c); [|intros [= <-]; auto].
  cbv zeta. destruct ((INT_MIN <=? _) && (_ <=? INT_MAX)); [discriminate|].
  intros [= <-]. auto.
Qed.

Lemma read_count_throws (file : string) (e : exn) :
  read_count file = Throw e -> e = invalid_argument "stoi" \/ e = out_of_range "stoi".
Proof.
  unfold read_count. destruct (getline newline file) as [[line file']|]; [|discriminate].
  destruct (stoi line) as [n|e'|] eqn:Hs; cbn [bind]; try discriminate.
  intros [= <-]. exact (stoi_throws line e' Hs).
Qed.

Section Loading.

Context {DT : DoubleText}.

Lemma load_vehicles_returns (count : nat) : forall (file : string) (m : VehicleManager),
  forall e m', load_vehicles count file m <> Raised e m'.
Proof.
  induction count as [|count IH]; intros file m e m'; cbn [load_vehicles];
    [discriminate|].
  destruct (getline newline file) as [[line file']|]; [|discriminate].
  cbv zeta. destruct (List.length (split line) =? 0)%nat; [apply IH|].
  destruct (parse_vehicle (split line)) as [[v|]|e0|]; try apply IH. discriminate.
Qed.

Lemma load_customers_returns (count : nat) : forall (file : string) (m : VehicleManager),
  forall e m', load_customers count file m <> Raised e m'.
Proof.
  induction count as [|count IH]; intros file m e m'; cbn [load_customers];
    [discriminate|].
  destruct (getline newline file) as [[line file']|]; [|discriminate].
  cbv zeta. destruct (List.length (split line) =? 0)%nat; [apply IH|].
  destruct (parse_customer (split line)) as [[c|]|e0|]; try apply IH. discriminate.
Qed.

Lemma load_rentals_returns (count : nat) : forall (file : string) (m : VehicleManager),
  forall e m', load_rentals count file m <> Raised e m'.
Proof.
  induction count as [|count IH]; intros file m e m'; cbn [load_rentals];
    [discriminate|].
  destruct (getline newline file) as [[line file']|]; [|discriminate].
  cbv zeta. destruct (List.length (split line) <? 4)%nat; [apply IH|].
  destruct (rentVehicle _ _ _ _ m) as [x m1|e1 m1|]; try apply IH. discriminate.
Qed.

Lemma loadFromFile_throws (file : option string) (m m' : VehicleManager) (e : exn) :
  loadFromFile file m = Raised e m' ->
  e = invalid_argument "stoi" \/ e = out_of_range "stoi".
Proof.
  destruct file as [file|]; cbn [loadFromFile]; [|discriminate].
  set (m0 := mkVehicleManager [] [] [] (rentalHistory m)).
  destruct (read_count file) as [[vCount file1]|e1|] eqn:H1;
    cbn [lift and_then]; [|intros [= <- _]; exact (read_count_throws _ _ H1)|discriminate].
  destruct (load_vehicles (Z.to_nat vCount) file1 m0) as [file2 m2|e2 m2|] eqn:H2;
    cbn [and_then]; [|exfalso; exact (load_vehicles_returns _ _ _ _ _ H2)|discriminate].
  destruct (read_count file2) as [[cCount file3]|e3|] eqn:H3;
    cbn [lift and_then]; [|intros [= <- _]; exact (read_count_throws _ _ H3)|discriminate].
  destruct (load_customers (Z.to_nat cCount) file3 m2) as [file4 m4|e4 m4|] eqn:H4;
    cbn [and_then]; [|exfalso; exact (load_customers_returns _ _ _ _ _ H4)|discriminate].
  destruct (read_count file4) as [[rCount file5]|e5|] eqn:H5;
    cbn [lift and_then]; [|intros [= <- _]; exact (read_count_throws _ _ H5)|discriminate].
  destruct (load_rentals (Z.to_nat rCount) file5 m4) as [file6 m6|e6 m6|] eqn:H6;
    cbn [and_then]; [|exfalso; exact (load_rentals_returns _ _ _ _ _ H6)|discriminate].
  destruct (read_count file6) as [[hCount file7]|e7|] eqn:H7;
    cbn [lift and_then]; [discriminate|intros [= <- _]; exact (read_count_throws _ _ H7)
                         |discriminate].
Qed.

Lemma rental_records_defined (m : VehicleManager) (rs : list Rental) :
  Forall (rental_ok m) rs -> exists text, rental_records m rs = Ok text.
Proof.
  induction 1 as [|r rs Hr _ [text IH]]; [now exists EmptyString|].
  destruct Hr as ((p & v & Hp & Hv & _) & (q & c & Hq & Hc & _) & _).
  cbn [rental_records]. unfold rental_record, rental_vehicle, rental_customer.
  rewrite Hp, Hq, Hv, Hc, IH. cbn [bind]. eauto.
Qed.

End Loading.

Lemma Rental_ctor_throws (v c : option ptr) (start end_ : string) (e : exn) :
  Rental_ctor v c start end_ = Throw e -> exists msg, e = invalid_argument msg.
Proof.
  unfold Rental_ctor. destruct v; [|intros [= <-]; eauto].
  destruct c; [|intros [= <-]; eauto].
  destruct (isValidDate_total start) as [-> | ->]; cbn [bind negb];
    [|intros [= <-]; eauto].
  destruct (isValidDate_total end_) as [-> | ->]; cbn [bind negb];
    [|intros [= <-]; eauto].
  destruct (String.leb end_ start); [intros [= <-]; eauto|discriminate].
Qed.

Lemma setMileage_throws (newMileage : float) (v : Vehicle) (e : exn) :
  setMileage newMileage v = Throw e -> exists msg, e = invalid_argument msg.
Proof.
  unfold setMileage. destruct (PrimFloat.ltb newMileage 0); [intros [= <-]; eauto|].
  destruct (PrimFloat.ltb newMileage (getMileage v)); [intros [= <-]; eauto|].
  discriminate.
Qed.

(** On a reachable manager, the exceptions that leave the member functions
    are few: the six calls that edit the manager throw only
    [std::invalid_argument]; [loadFromFile] throws only what [std::stoi]
    throws on a count line, never for a vehicle, customer or rental line
    (the three loops over these lines never throw); [saveToFile] writes its
    text whenever the file opens, and throws [std::runtime_error] when it
    does not. *)
Theorem exceptions_thrown {DT : DoubleText} (m : VehicleManager) :
  reachable m ->
  (forall (c : call) (e : exn) (m' : VehicleManager),
      (forall file, c <> call_loadFromFile file) ->
      run c m = Raised e m' -> exists msg, e = invalid_argument msg)
  /\ (forall (file : option string) (e : exn) (m' : VehicleManager),
         loadFromFile file m = Raised e m' ->
         e = invalid_argument "stoi" \/ e = out_of_range "stoi")
  /\ (exists text, saveToFile true m = Ok text)
  /\ saveToFile false m = Throw (runtime_error "Could not open file for saving.")
  /\ (forall (count : nat) (file : string) (m0 m' : VehicleManager) (e : exn),
         load_vehicles count file m0 <> Raised e m'
         /\ load_customers count file m0 <> Raised e m'
         /\ load_rentals count file m0 <> Raised e m').
Proof.
  intros Hreach. pose proof (reachable_inv m Hreach) as Hinv.
  pose proof (manager_inv_rentals_vehicle m Hinv) as Hrv.
  pose proof (manager_inv_rentals_customer m Hinv) as Hrc.
  split; [|split; [|split; [|split]]].
  - intros c e m' Hnl.
    destruct c as [v|reg|c|id|reg cid start end_|reg newMileage|file]; cbn [run].
    + destruct v as [v|]; cbn [addVehicle]; [|intros [= <- _]; eauto].
      destruct (isRegNumberUnique m (getRegNumber v)); cbn [negb];
        [discriminate|intros [= <- _]; eauto].
    + unfold removeVehicle. rewrite (rented_scan_ok m reg _ Hrv).
      destruct (existsb (has_reg m reg) (rentals m)); [intros [= <- _]; eauto|].
      destruct (existsb _ (vehicles m)); [discriminate|intros [= <- _]; eauto].
    + destruct c as [c|]; cbn [addCustomer]; [|intros [= <- _]; eauto].
      destruct (isCustomerIdUnique m (getId c)); cbn [negb];
        [discriminate|intros [= <- _]; eauto].
    + unfold removeCustomer. rewrite (renting_scan_ok m id _ Hrc).
      destruct (existsb (has_id m id) (rentals m)); [intros [= <- _]; eauto|].
      destruct (existsb _ (customers m)); [discriminate|intros [= <- _]; eauto].
    + unfold rentVehicle.
      destruct (getVehicle m reg); [|intros [= <- _]; eauto].
      destruct (getCustomer m cid); [|intros [= <- _]; eauto].
      rewrite (rented_scan_ok m reg _ Hrv).
      destruct (existsb (has_reg m reg) (rentals m)); [intros [= <- _]; eauto|].
      destruct (Rental_ctor _ _ start end_) as [r|e'|] eqn:Hctor; try discriminate.
      intros [= <- _]. exact (Rental_ctor_throws _ _ _ _ _ Hctor).
    + destruct (returnVehicle_cases m reg newMileage Hinv)
        as [[_ Hr]|(before & r & after & p & v & k & _ & _ & _ & _ & _ & _
                    & [(e' & Hset & Hr)|(v' & cost & _ & _ & Hr)])];
        rewrite Hr; cbn [forget]; try discriminate.
      * intros [= <- _]. eauto.
      * intros [= <- _]. exact (setMileage_throws _ _ _ Hset).
    + now specialize (Hnl file).
  - intros file e m'. apply loadFromFile_throws.
  - unfold saveToFile. cbn [negb].
    destruct (rental_records_defined m _ (inv_rentals m Hinv)) as [text ->].
    cbn [bind]. eauto.
  - reflexivity.
  - intros count file m0 m' e. split; [|split].
    + apply load_vehicles_returns.
    + apply load_customers_returns.
    + apply load_rentals_returns.
Qed.

Lemma exceptions_thrown_witness :
  reachable demo_manager
  /\ (exists msg,
         run (call_rentVehicle "KR7777" "1234567890" "2024-02-30" "2024-03-02")
           demo_manager
         = Raised (invalid_argument msg) demo_manager)
  /\ (exists text, saveToFile true demo_manager = Ok text).
Proof.
  destruct (exceptions_thrown demo_manager demo_reachable) as (Hcalls & _ & Hsave & _).
  split; [exact demo_reachable|]. split; [|exact Hsave].
  assert (Hrun : run (call_rentVehicle "KR7777" "1234567890" "2024-02-30" "2024-03-02")
                   demo_manager
                 = Raised (invalid_argument "Start date must be in format YYYY-MM-DD.")
                     demo_manager) by reflexivity.
  assert (Hnl : forall file,
             call_rentVehicle "KR7777" "1234567890" "2024-02-30" "2024-03-02"
             <> call_loadFromFile file) by (intros file; discriminate).
  destruct (Hcalls _ _ _ Hnl Hrun) as [msg Hmsg].
  exists msg. rewrite Hrun, Hmsg. reflexivity.
Defined.

(** * Further properties of dates *)

(** From the year 0001 on, [countTotalDays] counts the days of the
    Gregorian calendar: the counter of the day after a date is the counter
    of the date plus one, within a month, from the last day of a month (of
    28, 29, 30 or 31 days) to the first of the next, and from the 31st of
    December to the first of January. *)
Theorem countTotalDays_next_day (a b : string) :
  valid_date a -> valid_date b -> 1 <= date_year a -> day_after a b ->
  exists n : Z, countTotalDays a = Ok n /\ countTotalDays b = Ok (n + 1).
Proof.
  intros Ha Hb Hy Hnext.
  pose proof (valid_date_ranges a Ha) as (_ & Hma & Hda).
  exists (counted_days a). split; [now apply countTotalDays_valid|].
  rewrite (countTotalDays_valid b Hb). f_equal.
  rewrite !counted_days_day_number. unfold day_number.
  destruct Hnext as [(-> & -> & ->)|[(-> & -> & -> & Hlast)|(-> & -> & -> & Hdec & Hlast)]].
  - lia.
  - rewrite days_before_month_succ by lia. lia.
  - rewrite days_before_year_succ by lia.
    rewrite Hdec, Hlast.
    pose proof (sum_months_of_year (date_year a)) as Hyear.
    change (sum_1_to 12 (fun j => days_in_month j (date_year a)))
      with (days_before_month 12 (date_year a) + days_in_month 12 (date_year a))
      in Hyear.
    change (days_in_month 12 (date_year a)) with 31 in Hyear.
    change (days_before_month 1 (date_year a + 1)) with 0. lia.
Qed.

Lemma countTotalDays_next_day_witness :
  valid_date "2024-02-29" /\ valid_date "2024-03-01"
  /\ day_after "2024-02-29" "2024-03-01"
  /\ exists n : Z,
      countTotalDays "2024-02-29" = Ok n /\ countTotalDays "2024-03-01" = Ok (n + 1).
Proof.
  assert (Ha : valid_date "2024-02-29")
    by (apply isValidDate_valid_date; reflexivity).
  assert (Hb : valid_date "2024-03-01")
    by (apply isValidDate_valid_date; reflexivity).
  assert (Hnext : day_after "2024-02-29" "2024-03-01")
    by (right; left; repeat split; reflexivity).
  split; [exact Ha|]. split; [exact Hb|]. split; [exact Hnext|].
  apply (countTotalDays_next_day "2024-02-29" "2024-03-01" Ha Hb); [|exact Hnext].
  vm_compute. discriminate.
Defined.

(** * Further properties of the objects *)

(** ** Customers *)

(** Both customer constructors build the customer exactly when the id
    card number or NIP, the name and the address are all non-empty; the
    customer's id is then that number. Otherwise they throw the exception of
    the base class for the first empty one, in this order; the derived
    classes' own checks of the number come too late to ever throw. *)
Theorem customer_constructors_validate (name addr key : string) :
  if negb (empty key) && negb (empty name) && negb (empty addr) then
    PrivateCustomer_ctor name addr key
    = Ok (PrivateCustomer (Customer.mk_base key name addr) key)
    /\ BusinessCustomer_ctor name addr key
       = Ok (BusinessCustomer (Customer.mk_base key name addr) key)
  else
    exists msg,
      msg = (if empty key then "ID cannot be empty."
             else if empty name then "Name cannot be empty."
             else "Address cannot be empty.")
      /\ PrivateCustomer_ctor name addr key = Throw (invalid_argument msg)
      /\ BusinessCustomer_ctor name addr key = Throw (invalid_argument msg).
Proof.
  unfold PrivateCustomer_ctor, BusinessCustomer_ctor, Customer_ctor.
  destruct (empty key), (empty name), (empty addr); cbn [negb andb bind];
    try (split; reflexivity); eexists; repeat split; reflexivity.
Qed.

(** ** Setters *)

(** A setter that returns has passed its check and stores its argument in
    its own member, leaving every other member as it was: registration,
    brand, model and licence category never change, and each getter returns
    what it returned before unless it is the getter of the setter's member,
    which returns the argument; the class of the object stays (a getter the
    class does not have is still not there). The mileage changes only by
    [setMileage], never to one that compares lower; a vehicle that passed
    the checks of its constructor passes them afterwards; the rent cost is
    the same unless the base cost or the cargo capacity was set. The
    checks on a [double] are comparisons, which a NaN passes:
    [setBaseCost] stores a NaN. *)
Theorem setters_keep_validity (s : setter) (v v' : Vehicle) :
  apply_setter s v = Some (Ok v') ->
  (constructed v -> constructed v')
  /\ getRegNumber v' = getRegNumber v /\ getBrand v' = getBrand v
  /\ getModel v' = getModel v
  /\ licenceCat (vehicle_base v') = licenceCat (vehicle_base v)
  /\ getMileage v'
     = match s with call_setMileage x => x | _ => getMileage v end
  /\ getBaseCost v'
     = match s with call_setBaseCost x => x | _ => getBaseCost v end
  /\ getEngineSize v'
     = match s with call_setEngineSize n => Some n | _ => getEngineSize v end
  /\ getFuelConsumption v'
     = match s with
       | call_setFuelConsumption x => Some x
       | _ => getFuelConsumption v
       end
  /\ getFuelType v'
     = match s with call_setFuelType t => Some t | _ => getFuelType v end
  /\ getBatteryCapacity v'
     = match s with
       | call_setBatteryCapacity x => Some x
       | _ => getBatteryCapacity v
       end
  /\ getDoors v' = match s with call_setDoors n => Some n | _ => getDoors v end
  /\ getCargoCapacity v'
     = match s with
       | call_setCargoCapacity n => Some n
       | _ => getCargoCapacity v
       end
  /\ (getEngineSize v = None <-> getEngineSize v' = None)
  /\ (getBatteryCapacity v = None <-> getBatteryCapacity v' = None)
  /\ (getDoors v = None <-> getDoors v' = None)
  /\ (getCargoCapacity v = None <-> getCargoCapacity v' = None)
  /\ match s with
     | call_setMileage x =>
         PrimFloat.ltb x 0 = false /\ PrimFloat.ltb x (getMileage v) = false
     | call_setBaseCost x | call_setFuelConsumption x
     | call_setBatteryCapacity x => PrimFloat.leb x 0 = false
     | call_setEngineSize n | call_setDoors n | call_setCargoCapacity n => 0 < n
     | call_setFuelType t => t = FuelType_Gasoline \/ t = FuelType_Diesel
     end
  /\ (getMileage v' = getMileage v
      \/ s = call_setMileage (getMileage v')
         /\ PrimFloat.ltb (getMileage v') 0 = false
         /\ PrimFloat.ltb (getMileage v') (getMileage v) = false)
  /\ (forall newCost, s = call_setBaseCost newCost ->
                      getBaseCost v' = newCost /\ PrimFloat.leb newCost 0 = false)
  /\ (forall days, (forall newCost, s <> call_setBaseCost newCost) ->
                   (forall capacity, s <> call_setCargoCapacity capacity) ->
                   calculateRentCost v' days = calculateRentCost v days)
  /\ (forall u, exists u',
         apply_setter (call_setBaseCost nan) u = Some (Ok u')
         /\ getBaseCost u' = nan).
Proof.
  intros H. rewrite !constructed_okb.
  assert (Hnan : forall u, exists u',
             apply_setter (call_setBaseCost nan) u = Some (Ok u')
             /\ getBaseCost u' = nan)
    by (intros u; destruct u; eexists; split; reflexivity).
  destruct s as [miles|cost|size|consumption|type|capacity|num|capacity];
    destruct v as [[reg br mo mi co cat] [en fc ft] d|[reg br mo mi co cat] bat d
                  |[reg br mo mi co cat] [en fc ft] cap|[reg br mo mi co cat] [en fc ft]];
    cbn [apply_setter] in H; try discriminate H;
    unfold setMileage, setBaseCost, setEngineSize, setFuelConsumption, setFuelType,
      setBatteryCapacity, setDoors, setCargoCapacity in H;
    cbn [getMileage vehicle_base mileage regNumber brand model baseCost licenceCat
           engineSize fuelConsumption fuelType with_base] in H;
    repeat match type of H with
           | context [if ?c then _ else _] =>
               let E := fresh "E" in destruct c eqn:E; cbn [bind negb] in H
           end;
    try discriminate H; injection H as <-;
    unfold vehicle_okb, base_okb, comb_okb, getRegNumber, getBrand, getModel,
      getMileage, getBaseCost, getEngineSize, getFuelConsumption, getFuelType,
      getBatteryCapacity, getDoors, getCargoCapacity;
    cbn [vehicle_base regNumber brand model mileage baseCost licenceCat
           engineSize fuelConsumption fuelType calculateRentCost combustion_part
           option_map];
    (split; [try (intros Hok; exact Hok)|]);
    repeat match goal with
           | |- _ /\ _ => split
           | |- _ <-> _ => split
           | |- ?x = ?x => reflexivity
           | |- forall _, _ => intro
           | H : Some _ = None |- _ => discriminate H
           | H : call_setMileage _ = call_setBaseCost _ |- _ => discriminate H
           | H : call_setBaseCost _ = call_setBaseCost _ |- _ =>
               injection H as <-
           | H : forall c, call_setBaseCost ?x <> call_setBaseCost c |- _ =>
               exfalso; exact (H x eq_refl)
           | H : forall c, call_setCargoCapacity ?x <> call_setCargoCapacity c |- _ =>
               exfalso; exact (H x eq_refl)
           | H : _ = call_setBaseCost _ |- _ => discriminate H
           | |- exists u', _ => apply Hnan
           | E : (_ <=? 0) = false |- 0 < _ => apply Z.leb_gt in E; exact E
           | E : negb (_ || _) = false |- _ = _ \/ _ = _ =>
               apply negb_false_iff, orb_prop in E as [E|E];
               apply Z.eqb_eq in E; auto
           | |- _ \/ _ => first [left; reflexivity|right; repeat split; assumption]
           | |- _ = _ => assumption
           end.
  all: repeat match goal with
              | H : _ && _ = true |- _ => apply andb_prop in H as [H ?]
              end;
    repeat match goal with
           | E : _ = false |- _ => rewrite E; clear E
           end;
    cbn [negb]; repeat (apply andb_true_intro; split); first [assumption|reflexivity].
Qed.

Lemma setters_keep_validity_witness :
  apply_setter (call_setDoors 5) demo_car
  = Some (Ok (CombustionCar (vehicle_base demo_car)
                (mkCombustionVehicle_part 1600 6.5 FuelType_Gasoline) 5))
  /\ constructed (CombustionCar (vehicle_base demo_car)
                    (mkCombustionVehicle_part 1600 6.5 FuelType_Gasoline) 5)
  /\ getDoors (CombustionCar (vehicle_base demo_car)
                 (mkCombustionVehicle_part 1600 6.5 FuelType_Gasoline) 5) = Some 5
  /\ apply_setter (call_setDoors 0) demo_car
     = Some (Throw (invalid_argument "Doors must be positive."))
  /\ apply_setter (call_setDoors 5) demo_truck = None.
Proof.
  split; [reflexivity|].
  destruct (setters_keep_validity (call_setDoors 5) demo_car _ eq_refl)
    as (Hconstructed & _ & _ & _ & _ & _ & _ & _ & _ & _ & _ & Hdoors & _).
  split; [apply Hconstructed; reflexivity|].
  split; [exact Hdoors|split; reflexivity].
Defined.

(** * Further properties of the history and of loading *)

(** ** The history as [showRentalHistory] displays it *)

Lemma concat_snoc (l : list string) (x : string) :
  String.concat "" (l ++ [x]) = (String.concat "" l ++ x)%string.
Proof.
  induction l as [|a l IH]; [reflexivity|].
  change ((a :: l) ++ [x]) with (a :: (l ++ [x])).
  now rewrite !concat_cons, IH, append_assoc.
Qed.

Section Display.

Context {DT : DoubleText}.

Lemma history_line_fields (v : Vehicle) (c : Customer) (r : Rental) (cost : float) :
  history_line v c r cost
  = join_with [(getBrand v ++ " " ++ getModel v ++ " (" ++ getRegNumber v ++ ")")%string;
               (getName c ++ " (" ++ getId c ++ ")")%string;
               startDate r; endDate r; show_double cost] "".
Proof.
  unfold history_line. rewrite !join_with_cons, join_with_one, append_empty_r.
  rewrite !append_assoc. cbn [String.append]. reflexivity.
Qed.

Lemma split_history_line (v : Vehicle) (c : Customer) (r : Rental) (cost : float) :
  vehicle_text_plain v -> customer_text_plain c ->
  lacks ";" (startDate r) = true -> lacks ";" (endDate r) = true ->
  lacks ";" (show_double cost) = true -> show_double cost <> EmptyString ->
  split (history_line v c r cost)
  = [(getBrand v ++ " " ++ getModel v ++ " (" ++ getRegNumber v ++ ")")%string;
     (getName c ++ " (" ++ getId c ++ ")")%string;
     startDate r; endDate r; show_double cost].
Proof.
  intros (Hb & Hm & Hr) (Hn & Hi) Hs He Hc Hne.
  rewrite history_line_fields. unfold split. apply split_loop_join.
  - discriminate.
  - repeat (apply Forall_cons; [|]); try apply Forall_nil; try assumption;
      rewrite !lacks_app; cbn [lacks];
      rewrite ?Hb, ?Hm, ?Hr, ?Hn, ?Hi; reflexivity.
  - exact Hne.
  - lia.
Qed.

End Display.

(** On a reachable manager whose vehicles and customers have no [;] in
    their brand, model, registration, name and id: after a successful
    [returnVehicle], [showRentalHistory] displays what it displayed before
    (under the heading) and then the returned rental, with the vehicle, the
    customer, the two dates and the cost that was charged, when the text of
    the cost is a field of its own. *)
Theorem returned_rental_is_shown {DT : DoubleText} (m m' : VehicleManager)
    (reg : string) (newMileage cost : float) :
  reachable m ->
  returnVehicle reg newMileage m = Done cost m' ->
  Forall (fun pv => vehicle_text_plain (snd pv)) (vehicles m) ->
  Forall (fun pc => customer_text_plain (snd pc)) (customers m) ->
  lacks ";" (show_double cost) = true -> show_double cost <> EmptyString ->
  exists (p : ptr) (v : Vehicle) (k : Customer) (r : Rental),
    getVehicle m reg = Some p /\ lookup p (vehicles m) = Some v
    /\ In r (rentals m) /\ vehicle r = Some p /\ rental_customer m r = Some k
    /\ showRentalHistory m'
       = ("=== Rental History ===" ++ nl
          ++ String.concat ""
               (map (fun entry => history_entry_text (split entry)) (rentalHistory m))
          ++ "Vehicle: " ++ getBrand v ++ " " ++ getModel v ++ " (" ++ reg ++ ")" ++ nl
          ++ "Customer: " ++ getName k ++ " (" ++ getId k ++ ")" ++ nl
          ++ "Period: " ++ startDate r ++ " - " ++ endDate r ++ nl
          ++ "Cost: " ++ show_double cost ++ " zl" ++ nl
          ++ "-----------------" ++ nl)%string.
Proof.
  intros Hreach Hreturn Hvs Hcs Hcost Hne.
  pose proof (reachable_inv m Hreach) as Hinv.
  destruct (returnVehicle_cases m reg newMileage Hinv)
    as [[_ Hr]|(before & r & after & p & v & k & Hrs & _ & Hp & Hv & Hg & Hk
                & [(e & _ & Hr)|(v' & cost' & Hset & _ & Hr)])];
    rewrite Hr in Hreturn; try discriminate.
  injection Hreturn as -> <-.
  exists p, v, k, r. split; [exact Hg|]. split; [exact Hv|].
  split; [rewrite Hrs; apply in_elt|]. split; [exact Hp|]. split; [exact Hk|].
  destruct (setMileage_Ok _ _ _ Hset) as (Hreg' & Hbrand' & Hmodel' & _).
  assert (Hreg : getRegNumber v = reg).
  { unfold getVehicle in Hg. rewrite find_vehicle_find_by in Hg.
    destruct (find_by_lookup getRegNumber _ _ _ (inv_vehicle_ptrs m Hinv) Hg)
      as (a & Ha & Hkey). congruence. }
  assert (Hplain : vehicle_text_plain v').
  { rewrite Forall_forall in Hvs. specialize (Hvs _ (lookup_In _ _ _ Hv)).
    unfold vehicle_text_plain in *. cbn [snd] in Hvs.
    now rewrite Hreg', Hbrand', Hmodel'. }
  assert (Hkplain : customer_text_plain k).
  { unfold rental_customer in Hk. destruct (customer r) as [q|]; [|discriminate].
    rewrite Forall_forall in Hcs. exact (Hcs _ (lookup_In _ _ _ Hk)). }
  assert (Hrok : rental_ok m r).
  { pose proof (inv_rentals m Hinv) as Hall. rewrite Forall_forall in Hall.
    apply Hall. rewrite Hrs. apply in_elt. }
  destruct Hrok as (_ & _ & Hs & He & _).
  apply valid_date_plain in Hs, He. unfold plain in Hs, He.
  apply andb_prop in Hs as [Hs _]. apply andb_prop in He as [He _].
  unfold showRentalHistory. cbn [rentalHistory].
  rewrite length_app. cbn [List.length].
  replace (List.length (rentalHistory m) + 1 =? 0)%nat with false
    by (symmetry; apply Nat.eqb_neq; lia).
  rewrite map_app. cbn [map]. rewrite concat_snoc.
  rewrite (split_history_line v' k r cost Hplain Hkplain Hs He Hcost Hne).
  unfold history_entry_text, part. cbn [List.length nth Nat.leb].
  rewrite Hreg', Hbrand', Hmodel', Hreg.
  rewrite !append_assoc. cbn [String.append]. reflexivity.
Qed.

Lemma returned_rental_is_shown_witness :
  reachable demo_manager
  /\ returnVehicle "WA12345" 15200.5 demo_manager = Done 400%float demo_returned
  /\ exists (p : ptr) (v : Vehicle) (k : Customer) (r : Rental),
      getVehicle demo_manager "WA12345" = Some p
      /\ lookup p (vehicles demo_manager) = Some v
      /\ In r (rentals demo_manager) /\ vehicle r = Some p
      /\ rental_customer demo_manager r = Some k
      /\ showRentalHistory demo_returned
         = ("=== Rental History ===" ++ nl
            ++ String.concat ""
                 (map (fun entry => history_entry_text (split entry))
                    (rentalHistory demo_manager))
            ++ "Vehicle: " ++ getBrand v ++ " " ++ getModel v ++ " (WA12345)" ++ nl
            ++ "Customer: " ++ getName k ++ " (" ++ getId k ++ ")" ++ nl
            ++ "Period: " ++ startDate r ++ " - " ++ endDate r ++ nl
            ++ "Cost: " ++ show_double 400 ++ " zl" ++ nl
            ++ "-----------------" ++ nl)%string.
Proof.
  assert (Hreturn : returnVehicle "WA12345" 15200.5 demo_manager
                    = Done 400%float demo_returned) by (vm_compute; reflexivity).
  split; [exact demo_reachable|]. split; [exact Hreturn|].
  apply (returned_rental_is_shown demo_manager demo_returned "WA12345" 15200.5
           400%float demo_reachable Hreturn).
  - repeat (apply Forall_cons; [repeat split; reflexivity|]). apply Forall_nil.
  - repeat (apply Forall_cons; [repeat split; reflexivity|]). apply Forall_nil.
  - vm_compute. reflexivity.
  - vm_compute. discriminate.
Defined.

(** ** Lines of the file that cannot be rebuilt *)

Section Skipping.

Context {DT : DoubleText}.

Lemma load_vehicles_line (line : string) (m : VehicleManager) :
  lacks newline line = true ->
  exists m1 : VehicleManager,
    (forall (count : nat) (rest : string),
        load_vehicles (S count) (line ++ nl ++ rest) m = load_vehicles count rest m1)
    /\ ((forall v, parse_vehicle (split line) <> Ok (Some v)) -> m1 = m).
Proof.
  intros Hline.
  destruct (List.length (split line) =? 0)%nat eqn:Hempty.
  { exists m. split; [|reflexivity]. intros count rest. cbn [load_vehicles].
    rewrite (getline_line line rest Hline). cbv zeta. now rewrite Hempty. }
  destruct (parse_vehicle (split line)) as [[v|]|e|] eqn:Hparse.
  - exists (mkVehicleManager (vehicles m ++ [(new_ptr (vehicles m), v)])
              (customers m) (rentals m) (rentalHistory m)).
    split; [|intros Hbad; now specialize (Hbad v)].
    intros count rest. cbn [load_vehicles].
    rewrite (getline_line line rest Hline). cbv zeta. now rewrite Hempty, Hparse.
  - exists m. split; [|reflexivity]. intros count rest. cbn [load_vehicles].
    rewrite (getline_line line rest Hline). cbv zeta. now rewrite Hempty, Hparse.
  - exists m. split; [|reflexivity]. intros count rest. cbn [load_vehicles].
    rewrite (getline_line line rest Hline). cbv zeta. now rewrite Hempty, Hparse.
  - exfalso. exact (parse_vehicle_defined _ Hparse).
Qed.

Lemma load_vehicles_skips (bad rest : string) (before : list string) :
  lacks newline bad = true ->
  (forall v, parse_vehicle (split bad) <> Ok (Some v)) ->
  Forall (fun line => lacks newline line = true) before ->
  forall (count : nat) (m : VehicleManager),
    (List.length before <= count)%nat ->
    load_vehicles (S count)
      (String.concat "" (map (fun line => line ++ nl)%string before) ++ bad ++ nl ++ rest) m
    = load_vehicles count
        (String.concat "" (map (fun line => line ++ nl)%string before) ++ rest) m.
Proof.
  intros Hbad Hmalformed Hbefore.
  induction Hbefore as [|line before Hline _ IH]; intros count m Hcount.
  - cbn [map String.concat String.append].
    destruct (load_vehicles_line bad m Hbad) as (m1 & Hstep & Hsame).
    rewrite Hstep, (Hsame Hmalformed). reflexivity.
  - cbn [List.length] in Hcount. destruct count as [|count]; [lia|].
    cbn [map]. rewrite !concat_cons, !append_assoc.
    destruct (load_vehicles_line line m Hline) as (m1 & Hstep & _).
    rewrite !Hstep. apply IH. lia.
Qed.

End Skipping.

(** A line of the vehicles section from which no vehicle is rebuilt (too
    few fields, an unknown class, a field that is no number, values the
    constructor refuses) is skipped: the file loads as the file without
    that line, counted one less, does. *)
Theorem malformed_vehicle_line_is_skipped {DT : DoubleText} (count : nat)
    (before : list string) (bad rest : string) (m : VehicleManager) :
  Forall (fun line => lacks newline line = true) before ->
  lacks newline bad = true ->
  (forall v, parse_vehicle (split bad) <> Ok (Some v)) ->
  (List.length before <= count)%nat ->
  is_int (Z.of_nat (S count)) ->
  loadFromFile
    (Some (show_int (Z.of_nat (S count)) ++ nl
           ++ String.concat "" (map (fun line => line ++ nl)%string before)
           ++ bad ++ nl ++ rest)%string) m
  = loadFromFile
      (Some (show_int (Z.of_nat count) ++ nl
             ++ String.concat "" (map (fun line => line ++ nl)%string before)
             ++ rest)%string) m.
Proof.
  intros Hbefore Hbad Hmalformed Hcount Hint.
  assert (Hint' : is_int (Z.of_nat count)) by (unfold is_int, INT_MIN in *; lia).
  unfold loadFromFile.
  rewrite (read_count_saved (S count) _ Hint), (read_count_saved count _ Hint').
  cbn [lift and_then]. rewrite !Nat2Z.id.
  now rewrite (load_vehicles_skips bad rest before Hbad Hmalformed Hbefore count _ Hcount).
Qed.

Lemma malformed_vehicle_line_is_skipped_witness :
  loadFromFile
    (Some ("2" ++ nl
           ++ "Motorcycle;Honda;CBR;WA1;100;600;5.5;0;0;1000" ++ nl
           ++ "Truck;Volvo;FH16;KR7777;100;twelve;32.5;1;2;250000;50" ++ nl
           ++ "0" ++ nl ++ "0" ++ nl ++ "0" ++ nl)%string) VehicleManager_new
  = loadFromFile
      (Some ("1" ++ nl
             ++ "Motorcycle;Honda;CBR;WA1;100;600;5.5;0;0;1000" ++ nl
             ++ "0" ++ nl ++ "0" ++ nl ++ "0" ++ nl)%string) VehicleManager_new.
Proof.
  apply (malformed_vehicle_line_is_skipped 1
           ["Motorcycle;Honda;CBR;WA1;100;600;5.5;0;0;1000"]
           "Truck;Volvo;FH16;KR7777;100;twelve;32.5;1;2;250000;50"
           ("0" ++ nl ++ "0" ++ nl ++ "0" ++ nl)%string VehicleManager_new).
  - repeat constructor.
  - reflexivity.
  - intros v. vm_compute. discriminate.
  - cbn. lia.
  - unfold is_int, INT_MIN, INT_MAX. cbn. lia.
Defined.

(** ** No overflow in the day counters *)

(** Whatever the two date strings of a rental are, the [int] arithmetic of
    [countTotalDays] and [getRentalDays] stays far inside the range of
    [int]: when [getRentalDays] returns, the two counters lie between -99
    and 3662832, and the result between 0 and their largest difference. *)
Theorem rental_days_are_ints (r : Rental) (days : Z) :
  getRentalDays r = Ok days ->
  0 <= days <= 3662931 /\ is_int days
  /\ (days = 0
      \/ exists startTotal endTotal : Z,
          countTotalDays (startDate r) = Ok startTotal
          /\ countTotalDays (endDate r) = Ok endTotal
          /\ is_int startTotal /\ is_int endTotal
          /\ is_int (endTotal - startTotal)
          /\ days = Z.max 1 (endTotal - startTotal)
          /\ -99 <= startTotal <= 3662832 /\ -99 <= endTotal <= 3662832).
Proof.
  unfold getRentalDays, is_int. change INT_MIN with (-2147483648).
  change INT_MAX with 2147483647.
  destruct (empty (startDate r) || empty (endDate r)).
  { intros [= <-]. split; [lia|]. split; [lia|]. now left. }
  destruct (countTotalDays (startDate r)) as [s| |] eqn:Hs; cbn [bind];
    try discriminate.
  destruct (countTotalDays (endDate r)) as [e| |] eqn:He; cbn [bind];
    try discriminate.
  intros [= <-].
  pose proof (countTotalDays_int_range _ _ Hs) as [Hs' _].
  pose proof (countTotalDays_int_range _ _ He) as [He' _].
  assert (Hdays : (if e - s <? 1 then 1 else e - s) = Z.max 1 (e - s))
    by (destruct (Z.ltb_spec (e - s) 1); lia).
  rewrite Hdays. split; [lia|]. split; [lia|]. right. exists s, e.
  repeat split; lia.
Qed.

Lemma rental_days_are_ints_witness :
  getRentalDays (mkRental (Some 1%nat) (Some 1%nat) "0001-01-01" "9999-12-31")
  = Ok 3652058
  /\ 0 <= 3652058 <= 3662931 /\ is_int 3652058.
Proof.
  assert (H : getRentalDays
                (mkRental (Some 1%nat) (Some 1%nat) "0001-01-01" "9999-12-31")
              = Ok 3652058) by (vm_compute; reflexivity).
  split; [exact H|].
  destruct (rental_days_are_ints _ _ H) as (Hrange & Hint & _).
  split; [exact Hrange|exact Hint].
Defined.
